(** * Lifecycle orchestrator of the Palworld Discord bot

    A shallow embedding of the orchestrator's JavaScript sources
    ([src/palworld.js], [src/process.js], [src/monitor.js], [src/index.js])
    and the properties of its lock, state tracker, monitor tick, startup and
    shutdown protocols.

    Asynchronous functions are embedded in a state-and-exception monad over a
    record holding the module-level variables of the sources together with
    the remote world (server, network, operating system, Discord gateway) and
    a trace of the calls that left the process.  The world may change at
    every [await]; within one run of a protocol or of a monitor tick the
    module variables are written by that run only.  The interleaving of
    overlapping [withLock] invocations is modelled separately, as a step
    function over invocations suspended at their [await] points. *)

From Stdlib Require Import ZArith List String Ascii Bool Lia DecimalString.
Import ListNotations.

Set Implicit Arguments.
Set Warnings "-register-all".

Open Scope string_scope.
Open Scope Z_scope.

(* ================================================================== *)
(** ** JavaScript values, errors and completions *)

(** Values as [JSON.parse] and property reads produce them.  Numbers are the
    integer-valued ones; strings are sequences of code units; an object is
    the list of its own properties, read front to back. *)
Inductive JsVal : Type :=
| VUndefined
| VNull
| VBool (b : bool)
| VNum (z : Z)
| VStr (s : string)
| VArr (items : list JsVal)
| VObj (fields : list (string * JsVal)).

(** An [Error] object: its [name] and [message]. *)
Record JsError : Type := mkError { err_name : string; err_message : string }.

(** [new Error(message)] *)
Definition newError (message : string) : JsError := mkError "Error" message.

(** How a call ends: [return a] or [throw e]. *)
Inductive Completion (A : Type) : Type :=
| Normal (a : A)
| Abrupt (e : JsError).
Arguments Normal {A} a.
Arguments Abrupt {A} e.

(** The result of running a model function: a completion, or [None] when a
    polling loop was cut off by its iteration budget. *)
Abbreviation Ret a := (Some (Normal a)).
Abbreviation Thr e := (Some (Abrupt e)).
Abbreviation OutOfFuel := None.

(** Decimal rendering of an integer, as a template literal renders a number
    within the safe integers. *)
Definition show_Z (z : Z) : string := NilEmpty.string_of_int (Z.to_int z).

(** [Number.MAX_SAFE_INTEGER] *)
Definition MAX_SAFE_INTEGER : Z := 9007199254740991.

(** [needle] occurs in [hay]. *)
Definition contains (needle hay : string) : Prop :=
  exists pre post, hay = pre ++ needle ++ post.

Definition string_length_Z (s : string) : Z := Z.of_nat (String.length s).

Fixpoint lookup_field (key : string) (fields : list (string * JsVal)) : JsVal :=
  match fields with
  | [] => VUndefined
  | (k, v) :: rest => if String.eqb k key then v else lookup_field key rest
  end.

(** Property read [v.key], for the keys the sources read ([players],
    [length], [servername]): none of them is defined on a built-in prototype
    except [length] on arrays and strings.  Reading a property of [null] or
    [undefined] throws a [TypeError]. *)
Definition get_prop (v : JsVal) (key : string) : Completion JsVal :=
  match v with
  | VUndefined =>
      Abrupt (mkError "TypeError"
        ("Cannot read properties of undefined (reading '" ++ key ++ "')"))
  | VNull =>
      Abrupt (mkError "TypeError"
        ("Cannot read properties of null (reading '" ++ key ++ "')"))
  | VBool _ | VNum _ => Normal VUndefined
  | VStr s =>
      Normal (if String.eqb key "length" then VNum (string_length_Z s) else VUndefined)
  | VArr items =>
      Normal (if String.eqb key "length" then VNum (Z.of_nat (List.length items))
              else VUndefined)
  | VObj fields => Normal (lookup_field key fields)
  end.

(** [Array.isArray(v)] *)
Definition isArray (v : JsVal) : bool :=
  match v with VArr _ => true | _ => false end.

(** Truthiness, as [||] and [if] test it. *)
Definition truthy (v : JsVal) : bool :=
  match v with
  | VUndefined | VNull => false
  | VBool b => b
  | VNum z => negb (z =? 0)
  | VStr s => negb (String.eqb s "")
  | VArr _ | VObj _ => true
  end.

(** [v === 0] *)
Definition strict_eq_zero (v : JsVal) : bool :=
  match v with VNum z => z =? 0 | _ => false end.

(* ================================================================== *)
(** ** Configuration ([src/config/index.js]) *)

Record Config : Type := mkConfig {
  apiUrl : string;
  serviceName : option string;
  startCommand : option string;
  startWorkingDirectory : option string;
  startTimeoutMs : Z;
  pollIntervalMs : Z;
  saveWorldDelayMs : Z;
  shutdownDelaySeconds : Z;
  emptyCheckThreshold : Z
}.

(** Truthiness of a [validateOptionalString] result: [null] and the empty
    string are falsy. *)
Definition truthy_opt (o : option string) : bool :=
  match o with
  | None => false
  | Some s => negb (String.eqb s "")
  end.

(* ================================================================== *)
(** ** Requests, responses and the trace of outgoing calls *)

Inductive Method : Type := GET | POST.

(** The [Authorization] and [Content-Type] headers are constant and left out. *)
Record Request : Type := mkRequest {
  req_method : Method;
  req_url : string;
  req_body : option JsVal
}.

(** What [fetch] resolves with: the [ok] flag, the status line, and what
    [response.json()] gives (the parsed body or a parse error). *)
Record Response : Type := mkResponse {
  resp_ok : bool;
  resp_status : Z;
  resp_statusText : string;
  resp_json : Completion JsVal
}.

(** How a spawned PowerShell ends: the [close] event with its exit code and
    collected output, the [error] event, or a synchronous throw of [spawn]. *)
Inductive SpawnOutcome : Type :=
| Closed (code : Z) (stdout stderr : string)
| SpawnErrorEvent (e : JsError)
| SpawnThrew (e : JsError).

(** Calls that leave the process, most recent first in a trace;
    [EvStatusUpdate] marks an invocation of [updateDiscordStatus]. *)
Inductive Event : Type :=
| EvFetch (m : Method) (url : string)
| EvSpawn (file : string) (args : list string)
| EvSetActivity (name : string)
| EvStatusUpdate.

Definition is_spawn (e : Event) : bool :=
  match e with EvSpawn _ _ => true | _ => false end.
Definition is_set_activity (e : Event) : bool :=
  match e with EvSetActivity _ => true | _ => false end.
Definition is_status_update (e : Event) : bool :=
  match e with EvStatusUpdate => true | _ => false end.

Definition count_events (p : Event -> bool) (tr : list Event) : nat :=
  List.length (List.filter p tr).

(** Node's timer clamp: a delay below 1 or above 2^31-1 becomes 1. *)
Definition timer_delay (ms : Z) : Z :=
  if (ms <? 1) || (2147483647 <? ms) then 1 else ms.

(** Server state constants of [monitor.js]. *)
Inductive ServerState : Type := UNKNOWN | KNOWN_UP | KNOWN_DOWN.

Definition ServerState_eqb (a b : ServerState) : bool :=
  match a, b with
  | UNKNOWN, UNKNOWN | KNOWN_UP, KNOWN_UP | KNOWN_DOWN, KNOWN_DOWN => true
  | _, _ => false
  end.

(** The Discord client handed to [startMonitoring]; [client.user] is set once
    the client is ready. *)
Record Client : Type := mkClient { client_user : bool }.

(** Result objects of the protocols. *)
Record StartResult : Type := mkStartResult {
  started : bool;
  reason : option string
}.

Record ShutdownOutcome : Type := mkOutcome {
  success : bool;
  message : string
}.

(* ================================================================== *)
(** ** The host: everything outside the orchestrator's own code *)

(** The remote server and network, the operating system's process
    primitives, the Discord gateway and the timers, as functions on a world
    [W].  A network call or a spawned process also says how many
    milliseconds it took, a timer how many milliseconds late it fired.  The
    last four fields are language or utility
    functions the orchestrator calls but does not define: the regular
    expression rewrites of [sanitizeErrorMessage], the parser and file-system
    checks of [validateStartCommand], the coercion of a string, array or
    object operand in [x > 0], and the rendering in a template literal of an
    array, an object or a number beyond the safe integers. *)
Record Host (W : Type) : Type := mkHost {
  net_fetch : Request -> W -> Completion Response * N * W;
  timer_late : Z -> W -> N * W;
  spawn_powershell : list string -> W -> SpawnOutcome * N * W;
  spawn_detached : string -> list string -> option string -> W -> option JsError * W;
  discord_setActivity : string -> W -> option JsError * W;
  sanitize_text : string -> string;
  validateStartCommand : string -> Completion (string * list string);
  coerce_gt_zero : JsVal -> Completion bool;
  coerce_to_string : JsVal -> Completion string
}.

(** The module-level variables of [index.js] ([busy]) and [monitor.js], the
    world, the clock read by [Date.now()] and the trace. *)
Record St (W : Type) : Type := mkSt {
  world : W;
  now : Z;
  trace : list Event;
  busy : bool;
  serverState : ServerState;
  consecutiveEmptyChecks : Z;
  discordClient : option Client;
  lastKnownServerName : JsVal
}.

(* ================================================================== *)
(** ** Overlapping [withLock] invocations

    [withLock] of [index.js] under the cooperative scheduling of the event
    loop.  An asynchronous action is a chain of segments, each run without
    interruption from one [await] to the next; other code runs between
    segments.  The flag [busy] is private to the lock: segments act on the
    rest of the shared state, of type [U]. *)

Section LockModel.

Variables U A : Type.

(** An action between two segments: settled with its completion, or
    suspended with the segment to run when resumed. *)
Inductive Task : Type :=
| Settled (r : Completion A)
| Suspended (segment : U -> U) (next : U -> Task).

(** Run the next segment. *)
Definition resume (t : Task) (u : U) : U * Task :=
  match t with
  | Settled r => (u, Settled r)
  | Suspended segment next => (segment u, next u)
  end.

(** One call [withLock(fn)]: rejected at the [if (busy)] test, holding the
    lock while [fn] runs or while [finally] is still to run, or finished
    with the lock released. *)
Inductive Invocation : Type :=
| Rejected (e : JsError)
| Holding (t : Task)
| Finished (r : Completion A).

Record Sys : Type := mkSys {
  lock_busy : bool;
  shared : U;
  invocations : list Invocation
}.

Inductive Action : Type :=
| Invoke (fn : Task)
| Resume (i : nat)
| Elsewhere (f : U -> U).

Definition busyError : JsError := newError "Another operation is in progress.".

Fixpoint update_nth {X} (i : nat) (x : X) (l : list X) : list X :=
  match l, i with
  | [], _ => []
  | _ :: rest, O => x :: rest
  | y :: rest, S j => y :: update_nth j x rest
  end.

(** [Invoke fn]: the synchronous part of [withLock(fn)], up to [await fn()].
    [Resume i]: invocation [i] continues, with the next segment of its action
    or, once the action has settled, with [finally { busy = false }].
    [Elsewhere f]: code outside any [withLock]. *)
Definition step (sys : Sys) (a : Action) : Sys :=
  match a with
  | Invoke fn =>
      if lock_busy sys then
        mkSys (lock_busy sys) (shared sys) (invocations sys ++ [Rejected busyError])
      else
        let '(u, t) := resume fn (shared sys) in
        mkSys true u (invocations sys ++ [Holding t])
  | Resume i =>
      match nth_error (invocations sys) i with
      | Some (Holding (Settled r)) =>
          mkSys false (shared sys) (update_nth i (Finished r) (invocations sys))
      | Some (Holding t) =>
          let '(u, t1) := resume t (shared sys) in
          mkSys (lock_busy sys) u (update_nth i (Holding t1) (invocations sys))
      | _ => sys
      end
  | Elsewhere f => mkSys (lock_busy sys) (f (shared sys)) (invocations sys)
  end.

Definition run (sys : Sys) (acts : list Action) : Sys := fold_left step acts sys.

Definition initial (u : U) : Sys := mkSys false u [].

Definition is_holding (i : Invocation) : bool :=
  match i with Holding _ => true | _ => false end.

Definition holders (sys : Sys) : nat :=
  List.length (List.filter is_holding (invocations sys)).

(** The flag is set exactly when one invocation holds the lock. *)
Definition lock_consistent (sys : Sys) : Prop :=
  holders sys = if lock_busy sys then 1%nat else 0%nat.

End LockModel.

Arguments Settled {U A} r.
Arguments Rejected {U A} e.
Arguments Finished {U A} r.
Arguments Resume {U A} i.
Arguments initial {U A} u.

(* ================================================================== *)
(** ** A scripted host for concrete runs

    The world is the list of answers the network gives to the successive
    requests; once the list is used up every request fails.  Timers fire on
    time, processes start, the gateway accepts every status. *)

Definition Script : Type := list (Completion Response).

Definition scripted_host : Host Script :=
  mkHost
    (fun _ w => match w with
                | [] => (Abrupt (mkError "TypeError" "fetch failed"), 0%N, [])
                | r :: rest => (r, 0%N, rest)
                end)
    (fun _ w => (0%N, w))
    (fun _ w => (Closed 0 "" "", 0%N, w))
    (fun _ _ _ w => (None, w))
    (fun _ w => (None, w))
    (fun text => text)
    (fun cmd => Normal (cmd, []))
    (fun _ => Normal false)
    (fun _ => Normal "[object Object]").

Definition ok_json (body : JsVal) : Completion Response :=
  Normal (mkResponse true 200 "OK" (Normal body)).

Definition http_failure (status : Z) (text : string) : Completion Response :=
  Normal (mkResponse false status text (Normal VNull)).

Definition info_body : JsVal :=
  VObj [("version", VStr "v0.3"); ("servername", VStr "Pal")].

Definition player (name : string) : JsVal := VObj [("name", VStr name)].

Definition test_config : Config :=
  mkConfig "http://127.0.0.1:8212/v1/api/" (Some "PalServer") None None
           5000 1000 500 2 2.

Definition test_state (script : Script) (st : ServerState) (checks : Z) (held : bool)
    : St Script :=
  mkSt script 0 [] held st checks (Some (mkClient true)) (VStr "Palworld Server").

(** Scripts of server behaviour. *)

(** One player online. *)
Definition script_occupied : Script :=
  [ok_json info_body; ok_json (VObj [("players", VArr [player "A"])])].

(** Empty at the first poll, saved, one player at the second poll. *)
Definition script_late_join : Script :=
  [ok_json info_body; ok_json (VArr []); ok_json (VObj []); ok_json (VArr [player "A"])].

(** Up at the liveness poll, then an HTTP error on the player poll. *)
Definition script_poll_fails : Script :=
  [ok_json info_body; http_failure 500 "Internal Server Error"].

(** An idle tick followed by a shutdown that goes through: the server stops
    answering after the shutdown request. *)
Definition script_idle_stop : Script :=
  [ok_json info_body; ok_json (VArr []);
   ok_json info_body; ok_json (VArr []); ok_json (VObj []); ok_json (VArr []);
   ok_json (VObj [])].

(** An idle tick followed by an attempt during which a player joins. *)
Definition script_idle_late_join : Script :=
  [ok_json info_body; ok_json (VArr []);
   ok_json info_body; ok_json (VArr []); ok_json (VObj []); ok_json (VArr [player "A"])].

(** A body whose [players] field is a number. *)
Definition script_players_number : Script :=
  [ok_json (VObj [("players", VNum 5)])].

(** Actions for the interleaving model, over a shared counter. *)
Definition counting_action : Task nat string :=
  Suspended S (fun _ => Settled (Normal "done")).

Definition failing_action : Task nat string :=
  Suspended S (fun _ => Settled (Abrupt (newError "boom"))).

(** Two readings of the specification that the code does not meet. *)

(** [getPlayers] resolved with a list. *)
Definition resolves_with_list (r : option (Completion JsVal)) : Prop :=
  exists items, r = Ret (VArr items).

(** [startServer] reported the timeout inside its result object. *)
Definition reports_timeout_in_result (r : option (Completion StartResult)) : Prop :=
  exists started_flag text,
    r = Ret (mkStartResult started_flag (Some text)) /\
    contains "did not come up in time" text.

(* ================================================================== *)
(** ** Pure helpers of the front end and of the validators *)

(** [parts.push(x)] *)
Definition push (parts : list string) (x : string) : list string :=
  (parts ++ [x])%list.

(** [formatUptime] of [index.js], on a whole number of seconds within the
    safe integers: there the quotients and remainders the code computes on
    doubles are exact.  Beyond 2^53 the code rounds and this definition does
    not follow it. *)
Definition formatUptime (seconds : Z) : string :=
  let hours := seconds / 3600 in
  let minutes := Z.rem seconds 3600 / 60 in
  let secs := Z.rem seconds 60 in
  let parts0 : list string := [] in
  let parts1 := if 0 <? hours then push parts0 (show_Z hours ++ "h") else parts0 in
  let parts2 := if 0 <? minutes then push parts1 (show_Z minutes ++ "m") else parts1 in
  let parts3 :=
    if (0 <? secs) || (Nat.eqb (List.length parts2) 0)
    then push parts2 (show_Z secs ++ "s") else parts2 in
  String.concat " " parts3.

(** One shown component of an uptime, or nothing when it is zero. *)
Definition uptime_component (n : Z) (unit_name : string) : list string :=
  if 0 <? n then [show_Z n ++ unit_name] else [].

Module Security.

(** The tokenizer of [validateStartCommand]: split at spaces outside quotes;
    the quote characters that open and close a quoted stretch are dropped. *)
Definition double_quote : ascii := Eval cbv in ascii_of_nat 34.

Definition is_quote (c : ascii) : bool :=
  Ascii.eqb c double_quote || Ascii.eqb c "'"%char.

Definition push_current (parts : list string) (current : string) : list string :=
  if Nat.eqb (String.length current) 0 then parts else push parts current.

Fixpoint parse_loop (rest : string) (parts : list string) (current : string)
    (inQuotes : bool) (quoteChar : option ascii) : list string :=
  match rest with
  | EmptyString => push_current parts current
  | String char rest' =>
      if is_quote char && negb inQuotes then
        parse_loop rest' parts current true (Some char)
      else if match quoteChar with Some q => Ascii.eqb char q | None => false end
              && inQuotes then
        parse_loop rest' parts current false None
      else if Ascii.eqb char " "%char && negb inQuotes then
        parse_loop rest' (push_current parts current) EmptyString inQuotes quoteChar
      else
        parse_loop rest' parts (current ++ String char EmptyString) inQuotes quoteChar
  end.

Definition parse_command (startCommand : string) : list string :=
  parse_loop startCommand [] EmptyString false None.

(** Character classes of the patterns, on code units below 256. *)
Definition is_shell_meta (c : ascii) : bool :=
  existsb (Ascii.eqb c) [";"; "&"; "|"; "`"; "$"; "("; ")"]%char.

Definition is_space_class (c : ascii) : bool :=
  let n := nat_of_ascii c in
  ((9 <=? n) && (n <=? 13) || (n =? 32) || (n =? 160))%nat.

Definition is_line_terminator (c : ascii) : bool :=
  let n := nat_of_ascii c in ((n =? 10) || (n =? 13))%nat.

Fixpoint string_exists (p : ascii -> bool) (s : string) : bool :=
  match s with
  | EmptyString => false
  | String c rest => p c || string_exists p rest
  end.

(** [p] holds of some suffix of [s]: a pattern matched at some position. *)
Fixpoint at_some_position (p : string -> bool) (s : string) : bool :=
  p s ||
  match s with
  | EmptyString => false
  | String _ rest => at_some_position p rest
  end.

Definition upper_ascii (c : ascii) : ascii :=
  let n := nat_of_ascii c in
  if ((97 <=? n) && (n <=? 122))%nat then ascii_of_nat (n - 32) else c.

(** [s] starts with [word], letters compared without case; gives the rest. *)
Fixpoint strip_prefix_ci (word s : string) : option string :=
  match word, s with
  | EmptyString, _ => Some s
  | String w word', String c s' =>
      if Ascii.eqb (upper_ascii w) (upper_ascii c) then strip_prefix_ci word' s' else None
  | String _ _, EmptyString => None
  end.

Definition starts_with_space (s : string) : bool :=
  match s with
  | String c _ => is_space_class c
  | EmptyString => false
  end.

(** [/\s*(-|\/)(c|command|exec)\s+/i] matched at the start of [s]; the
    leading [\s*] may match nothing, so a match somewhere begins at the
    dash or slash. *)
Definition exec_flag_here (s : string) : bool :=
  match s with
  | String c rest =>
      (Ascii.eqb c "-"%char || Ascii.eqb c "/"%char) &&
      existsb (fun word =>
                 match strip_prefix_ci word rest with
                 | Some after => starts_with_space after
                 | None => false
                 end)
              ["c"; "command"; "exec"]
  | EmptyString => false
  end.

(** [.*] followed by [close]: [close] occurs before any line terminator. *)
Fixpoint dot_star_then (close : ascii) (s : string) : bool :=
  match s with
  | EmptyString => false
  | String c rest =>
      Ascii.eqb c close || (negb (is_line_terminator c) && dot_star_then close rest)
  end.

(** [open1 open2 .* close] matched at the start of [s]. *)
Definition delimited_here (open1 : ascii) (open2 : option ascii) (close : ascii)
    (s : string) : bool :=
  match s with
  | String c rest =>
      Ascii.eqb c open1 &&
      match open2 with
      | None => dot_star_then close rest
      | Some o =>
          match rest with
          | String d rest' => Ascii.eqb d o && dot_star_then close rest'
          | EmptyString => false
          end
      end
  | EmptyString => false
  end.

(** The five [dangerousPatterns] of [validateCommandArgument], in order. *)
Definition argument_patterns : list (string -> bool) :=
  [string_exists is_shell_meta;
   at_some_position exec_flag_here;
   at_some_position (delimited_here "$" (Some "{") "}");
   at_some_position (delimited_here "`" None "`");
   at_some_position (delimited_here "$" (Some "(") ")")]%char.

Definition validateCommandArgument (arg : string) : Completion unit :=
  if 1024 <? string_length_Z arg then Abrupt (newError "Command argument too long")
  else if existsb (fun pattern => pattern arg) argument_patterns then
    Abrupt (newError "Command argument contains dangerous patterns")
  else Normal tt.

(** [for (const arg of args) validateCommandArgument(arg)] *)
Fixpoint validate_arguments (args : list string) : Completion unit :=
  match args with
  | [] => Normal tt
  | arg :: rest =>
      match validateCommandArgument arg with
      | Normal _ => validate_arguments rest
      | Abrupt e => Abrupt e
      end
  end.

(** [validateStartCommand]; the path and file-system checks of
    [validateExecutablePath] are passed in. *)
Definition validateStartCommand (validateExecutablePath : string -> Completion unit)
    (startCommand : string) : Completion (string * list string) :=
  if (string_length_Z startCommand =? 0) || (2048 <? string_length_Z startCommand) then
    Abrupt (newError "Start command must be between 1 and 2048 characters")
  else
    match parse_command startCommand with
    | [] => Abrupt (newError "Start command is empty after parsing")
    | executable :: args =>
        match validateExecutablePath executable with
        | Abrupt e => Abrupt e
        | Normal _ =>
            match validate_arguments args with
            | Abrupt e => Abrupt e
            | Normal _ => Normal (executable, args)
            end
        end
    end.

End Security.

(** Spaces removed, as the tokenizer drops them outside quotes. *)
Fixpoint drop_spaces (s : string) : string :=
  match s with
  | EmptyString => EmptyString
  | String c rest =>
      if Ascii.eqb c " "%char then drop_spaces rest else String c (drop_spaces rest)
  end.

Definition has_space (s : string) : bool :=
  Security.string_exists (fun c => Ascii.eqb c " "%char) s.

(** A request to the remote API. *)
Definition is_request (e : Event) : bool :=
  match e with EvFetch _ _ => true | _ => false end.

(* ================================================================== *)
(** ** The configuration loader ([src/config/index.js]) *)

Module Loader.

(** [String.prototype.trim], on code units below 256. *)
Fixpoint trim_start (s : string) : string :=
  match s with
  | EmptyString => EmptyString
  | String c rest => if Security.is_space_class c then trim_start rest else s
  end.

Fixpoint trim_end (s : string) : string :=
  match s with
  | EmptyString => EmptyString
  | String c rest =>
      match trim_end rest with
      | EmptyString =>
          if Security.is_space_class c then EmptyString else String c EmptyString
      | kept => String c kept
      end
  end.

Definition trim (s : string) : string := trim_end (trim_start s).

Definition digit_value (c : ascii) : option Z :=
  let n := nat_of_ascii c in
  if ((48 <=? n) && (n <=? 57))%nat then Some (Z.of_nat (n - 48)) else None.

Fixpoint read_digits (s : string) (acc : option Z) : option Z :=
  match s with
  | EmptyString => acc
  | String c rest =>
      match digit_value c with
      | Some d =>
          read_digits rest (Some (10 * match acc with Some a => a | None => 0 end + d))
      | None => acc
      end
  end.

(** [parseInt(value, 10)]: leading white space is skipped, a sign is read,
    then digits up to the first character that is none; [None] stands for
    [NaN].  The value is exact; JavaScript rounds a result beyond 2^53 to the
    nearest double, which falls on the same side of every bound below. *)
Definition parseInt (value : string) : option Z :=
  match trim_start value with
  | EmptyString => None
  | String c rest =>
      if Ascii.eqb c "-"%char then option_map Z.opp (read_digits rest None)
      else if Ascii.eqb c "+"%char then read_digits rest None
      else read_digits (String c rest) None
  end.

(** The errors the loader throws, by message:
    [`${name} must be a valid integer, got: ${value}`],
    [`${name} must be at least ${min}, got: ${parsed}`],
    [`${name} must be at most ${max}, got: ${parsed}`],
    [`Required environment variable ${name} is not set or is empty`],
    ['Either SERVICE_NAME or START_CMD must be configured ...']. *)
Inductive ConfigError : Type :=
| NotAnInteger (name value : string)
| BelowMinimum (name : string) (min parsed : Z)
| AboveMaximum (name : string) (max parsed : Z)
| RequiredMissing (name : string)
| NoLaunchMethod.

Inductive Checked (A : Type) : Type :=
| Valid (a : A)
| Invalid (e : ConfigError).
Arguments Valid {A} a.
Arguments Invalid {A} e.

Definition and_then {A B} (c : Checked A) (k : A -> Checked B) : Checked B :=
  match c with
  | Valid a => k a
  | Invalid e => Invalid e
  end.

Definition validatePositiveInteger (name value : string) (min max : Z) : Checked Z :=
  match parseInt value with
  | None => Invalid (NotAnInteger name value)
  | Some parsed =>
      if parsed <? min then Invalid (BelowMinimum name min parsed)
      else if max <? parsed then Invalid (AboveMaximum name max parsed)
      else Valid parsed
  end.

(** A variable of [process.env] is [undefined] or a string. *)
Definition validateRequired (name : string) (value : option string) : Checked string :=
  match value with
  | None => Invalid (RequiredMissing name)
  | Some v =>
      if String.eqb v "" || String.eqb (trim v) "" then Invalid (RequiredMissing name)
      else Valid (trim v)
  end.

Definition validateOptionalString (value : option string) : option string :=
  match value with
  | None => None
  | Some v => if String.eqb v "" then None else Some (trim v)
  end.

(** [process.env.X || fallback] *)
Definition or_default (value : option string) (fallback : string) : string :=
  match value with
  | None => fallback
  | Some v => if String.eqb v "" then fallback else v
  end.

Definition Env : Type := string -> option string.

(** The validated part of the exported object; [settings_config] holds the
    fields the other modules read. *)
Record Settings : Type := mkSettings {
  discord_token : string;
  discord_clientId : string;
  discord_guildId : string;
  palworld_username : string;
  palworld_password : string;
  settings_config : Config;
  monitoring_intervalMs : Z
}.

(** The module body: the properties of the object literal are evaluated in
    order, so the first invalid variable decides the error. *)
Definition load (env : Env) : Checked Settings :=
  and_then (validateRequired "DISCORD_TOKEN" (env "DISCORD_TOKEN")) (fun token =>
  and_then (validateRequired "CLIENT_ID" (env "CLIENT_ID")) (fun clientId =>
  and_then (validateRequired "GUILD_ID" (env "GUILD_ID")) (fun guildId =>
  and_then (validateRequired "PAL_REST_URL" (env "PAL_REST_URL")) (fun apiUrl =>
  and_then (validateRequired "PAL_REST_USER" (env "PAL_REST_USER")) (fun username =>
  and_then (validateRequired "PAL_REST_PASS" (env "PAL_REST_PASS")) (fun password =>
  let serviceName := validateOptionalString (env "SERVICE_NAME") in
  let startCommand := validateOptionalString (env "START_CMD") in
  let startWorkingDirectory := validateOptionalString (env "START_CWD") in
  and_then (validatePositiveInteger "START_TIMEOUT_MS"
              (or_default (env "START_TIMEOUT_MS") "120000") 5000 600000)
           (fun startTimeoutMs =>
  and_then (validatePositiveInteger "POLL_INTERVAL_MS"
              (or_default (env "POLL_INTERVAL_MS") "3000") 1000 60000)
           (fun pollIntervalMs =>
  and_then (validatePositiveInteger "SAVE_WORLD_DELAY_MS"
              (or_default (env "SAVE_WORLD_DELAY_MS") "1500") 500 10000)
           (fun saveWorldDelayMs =>
  and_then (validatePositiveInteger "SHUTDOWN_DELAY_SECONDS"
              (or_default (env "SHUTDOWN_DELAY_SECONDS") "2") 0 30)
           (fun shutdownDelaySeconds =>
  and_then (validatePositiveInteger "MONITOR_INTERVAL_MS"
              (or_default (env "MONITOR_INTERVAL_MS") "600000") 60000 3600000)
           (fun intervalMs =>
  and_then (validatePositiveInteger "EMPTY_CHECK_THRESHOLD"
              (or_default (env "EMPTY_CHECK_THRESHOLD") "2") 1 10)
           (fun emptyCheckThreshold =>
  if negb (truthy_opt serviceName) && negb (truthy_opt startCommand) then
    Invalid NoLaunchMethod
  else
    Valid (mkSettings token clientId guildId username password
             (mkConfig apiUrl serviceName startCommand startWorkingDirectory
                       startTimeoutMs pollIntervalMs saveWorldDelayMs
                       shutdownDelaySeconds emptyCheckThreshold)
             intervalMs))))))))))))).

End Loader.

(** An environment given by its bindings. *)
Fixpoint env_of (bindings : list (string * string)) : Loader.Env :=
  fun name =>
    match bindings with
    | [] => None
    | (key, value) :: rest => if String.eqb key name then Some value else env_of rest name
    end.

Definition required_bindings : list (string * string) :=
  [("DISCORD_TOKEN", "token"); ("CLIENT_ID", "1"); ("GUILD_ID", "2");
   ("PAL_REST_URL", "http://127.0.0.1:8212/v1/api/");
   ("PAL_REST_USER", "admin"); ("PAL_REST_PASS", "secret")].

(** A variable with trailing text after its digits, and the rest left to the
    defaults. *)
Definition test_env : Loader.Env :=
  env_of (("SERVICE_NAME", "PalServer") :: ("START_TIMEOUT_MS", " 6000ms")
          :: ("POLL_INTERVAL_MS", "2000") :: required_bindings).

(** Further scripts and hosts for concrete runs. *)

(** A stop that goes through: the server stops answering after the
    shutdown request. *)
Definition script_clean_stop : Script :=
  [ok_json info_body; ok_json (VArr []); ok_json (VObj []); ok_json (VArr []);
   ok_json (VObj [])].

(** Down at the first liveness poll, up at the next. *)
Definition script_comes_up : Script :=
  [http_failure 503 "Service Unavailable"; ok_json info_body].

(** Up and idle, then the save is refused. *)
Definition script_save_fails : Script :=
  [ok_json info_body; ok_json (VArr []); http_failure 500 "Internal Server Error"].

(** An ok answer whose body is not JSON. *)
Definition script_not_json : Script :=
  [Normal (mkResponse true 200 "OK" (Abrupt (mkError "SyntaxError" "Unexpected token")))].

(** The scripted host with the tokenizer and argument checks of
    [security.js]; every executable passes the path check. *)
Definition checking_host : Host Script :=
  mkHost (net_fetch scripted_host) (timer_late scripted_host)
         (spawn_powershell scripted_host) (spawn_detached scripted_host)
         (discord_setActivity scripted_host) (sanitize_text scripted_host)
         (Security.validateStartCommand (fun _ => Normal tt))
         (coerce_gt_zero scripted_host) (coerce_to_string scripted_host).

Definition command_config : Config :=
  mkConfig "http://127.0.0.1:8212/v1/api/" None
           (Some "PalServer.exe -port=8211 '-name=My Server'") None
           5000 1000 500 2 2.

(** What [test_env] loads as. *)
Definition test_settings : Loader.Settings :=
  Loader.mkSettings "token" "1" "2" "admin" "secret"
    (mkConfig "http://127.0.0.1:8212/v1/api/" (Some "PalServer") None None
              6000 2000 1500 2 2)
    600000.

(** The number of segments an action still has to run from [u] on. *)
Fixpoint segments_left {U A} (t : Task U A) (u : U) : nat :=
  match t with
  | Settled _ => 0%nat
  | Suspended segment next => S (segments_left (next u) (segment u))
  end.

(** The schedule in which [withLock(fn)], made as invocation [i] with the
    shared state at [u], runs to its end with nothing in between: the call,
    one resumption for each segment left after the first, and one for
    [finally]. *)
Definition alone {U A} (fn : Task U A) (u : U) (i : nat) : list (Action U A) :=
  Invoke fn ::
  repeat (Resume i) (S (segments_left (snd (resume fn u)) (fst (resume fn u)))).

Section Orchestrator.

Variable W : Type.
Variable host : Host W.
Variable config : Config.

Abbreviation State := (St W).

Definition set_world (w : W) (s : State) : State :=
  mkSt w (now s) (trace s) (busy s) (serverState s) (consecutiveEmptyChecks s)
       (discordClient s) (lastKnownServerName s).
Definition advance (ms : Z) (s : State) : State :=
  mkSt (world s) (now s + ms) (trace s) (busy s) (serverState s)
       (consecutiveEmptyChecks s) (discordClient s) (lastKnownServerName s).
Definition record (e : Event) (s : State) : State :=
  mkSt (world s) (now s) (e :: trace s) (busy s) (serverState s)
       (consecutiveEmptyChecks s) (discordClient s) (lastKnownServerName s).
Definition set_busy (b : bool) (s : State) : State :=
  mkSt (world s) (now s) (trace s) b (serverState s) (consecutiveEmptyChecks s)
       (discordClient s) (lastKnownServerName s).
Definition set_serverState (x : ServerState) (s : State) : State :=
  mkSt (world s) (now s) (trace s) (busy s) x (consecutiveEmptyChecks s)
       (discordClient s) (lastKnownServerName s).
Definition set_consecutiveEmptyChecks (n : Z) (s : State) : State :=
  mkSt (world s) (now s) (trace s) (busy s) (serverState s) n
       (discordClient s) (lastKnownServerName s).
Definition set_lastKnownServerName (v : JsVal) (s : State) : State :=
  mkSt (world s) (now s) (trace s) (busy s) (serverState s)
       (consecutiveEmptyChecks s) (discordClient s) v.

(** *** The monad of asynchronous functions *)

Definition M (A : Type) : Type := State -> option (Completion A) * State.

Definition ret {A} (a : A) : M A := fun s => (Ret a, s).
Definition throw {A} (e : JsError) : M A := fun s => (Thr e, s).
Definition bind {A B} (m : M A) (k : A -> M B) : M B := fun s =>
  match m s with
  | (Ret a, s1) => k a s1
  | (Thr e, s1) => (Thr e, s1)
  | (OutOfFuel, s1) => (OutOfFuel, s1)
  end.
(** [try { m } catch (e) { handler e }] *)
Definition try_catch {A} (m : M A) (handler : JsError -> M A) : M A := fun s =>
  match m s with
  | (Thr e, s1) => handler e s1
  | other => other
  end.
(** [try { m } finally { cleanup }] with a cleanup that only assigns. *)
Definition try_finally {A} (m : M A) (cleanup : State -> State) : M A := fun s =>
  match m s with
  | (OutOfFuel, s1) => (OutOfFuel, s1)
  | (r, s1) => (r, cleanup s1)
  end.
Definition get : M State := fun s => (Ret s, s).
Definition modify (f : State -> State) : M unit := fun s => (Ret tt, f s).
Definition lift {A} (c : Completion A) : M A := fun s => (Some c, s).

Notation "x <- m ;; k" := (bind m (fun x => k))
  (at level 61, m at next level, right associativity).
Notation "m ;;; k" := (bind m (fun _ => k))
  (at level 61, right associativity).

(** *** Timers and coercions *)

(** [await new Promise(r => setTimeout(r, ms))] *)
Definition sleep (ms : Z) : M unit := fun s =>
  let '(late, w) := timer_late host ms (world s) in
  (Ret tt, advance (timer_delay ms + Z.of_N late) (set_world w s)).

(** [v > 0] *)
Definition js_gt_zero (v : JsVal) : M bool :=
  match v with
  | VUndefined | VNull => ret false
  | VBool b => ret b
  | VNum z => ret (0 <? z)
  | VStr _ | VArr _ | VObj _ => lift (coerce_gt_zero host v)
  end.

(** [`${v}`] *)
Definition js_template (v : JsVal) : M string :=
  match v with
  | VUndefined => ret "undefined"
  | VNull => ret "null"
  | VBool b => ret (if b then "true" else "false")
  | VNum z =>
      if Z.abs z <=? MAX_SAFE_INTEGER then ret (show_Z z)
      else lift (coerce_to_string host v)
  | VStr s => ret s
  | VArr _ | VObj _ => lift (coerce_to_string host v)
  end.

(** [sanitizeErrorMessage(error)] for an [Error] and for a string. *)
Definition sanitizeErrorMessage (e : JsError) : string :=
  sanitize_text host (err_message e).

(* ------------------------------------------------------------------ *)
(** *** [src/palworld.js] *)

Fixpoint strip_trailing_slash (s : string) : string :=
  match s with
  | EmptyString => EmptyString
  | String c rest =>
      match rest with
      | EmptyString => if Ascii.eqb c "/"%char then EmptyString else s
      | _ => String c (strip_trailing_slash rest)
      end
  end.

Definition BASE : string := strip_trailing_slash (apiUrl config).

Definition url (p : string) : string := BASE ++ p.

(** [await fetch(...)]: the request is recorded, the world answers. *)
Definition fetch (req : Request) : M Response := fun s =>
  let '(r, ms, w) := net_fetch host req (world s) in
  (Some r,
   advance (Z.of_N ms)
     (set_world w (record (EvFetch (req_method req) (req_url req)) s))).

Definition http_error (response : Response) : JsError :=
  newError ("HTTP " ++ show_Z (resp_status response) ++ ": " ++ resp_statusText response).

Definition apiGet (path : string) : M JsVal :=
  response <- fetch (mkRequest GET (url path) None) ;;
  if negb (resp_ok response) then throw (http_error response)
  else lift (resp_json response).

Definition apiPost (path : string) (body : JsVal) : M JsVal :=
  response <- fetch (mkRequest POST (url path) (Some body)) ;;
  if negb (resp_ok response) then throw (http_error response)
  else try_catch (lift (resp_json response)) (fun _ => ret (VObj [])).

Definition getInfo : M JsVal := apiGet "/info".

Definition getPlayers : M JsVal :=
  data <- apiGet "/players" ;;
  if isArray data then ret data
  else
    players <- lift (get_prop data "players") ;;
    ret (if truthy players then players else VArr []).

Definition saveWorld : M JsVal := apiPost "/save" (VObj []).

Definition shutdown (seconds : Z) (message : string) : M JsVal :=
  apiPost "/shutdown" (VObj [("waittime", VNum seconds); ("message", VStr message)]).

Definition isUp : M bool :=
  try_catch (apiGet "/info" ;;; ret true) (fun _ => ret false).

(* ------------------------------------------------------------------ *)
(** *** [src/utils/security.js]: [validateServiceName] *)

Definition is_service_char (c : ascii) : bool :=
  let n := nat_of_ascii c in
  ((97 <=? n) && (n <=? 122) || (65 <=? n) && (n <=? 90)
   || (48 <=? n) && (n <=? 57) || (n =? 95) || (n =? 45))%nat.

Fixpoint string_forall (p : ascii -> bool) (s : string) : bool :=
  match s with
  | EmptyString => true
  | String c rest => p c && string_forall p rest
  end.

Definition lower_ascii (c : ascii) : ascii :=
  let n := nat_of_ascii c in
  if ((65 <=? n) && (n <=? 90))%nat then ascii_of_nat (n + 32) else c.

Fixpoint toLowerCase (s : string) : string :=
  match s with
  | EmptyString => EmptyString
  | String c rest => String (lower_ascii c) (toLowerCase rest)
  end.

Definition reservedNames : list string :=
  ["con"; "prn"; "aux"; "nul"; "com1"; "com2"; "com3"; "com4"; "com5"; "com6";
   "com7"; "com8"; "com9"; "lpt1"; "lpt2"; "lpt3"; "lpt4"; "lpt5"; "lpt6";
   "lpt7"; "lpt8"; "lpt9"].

Definition validateServiceName (name : string) : Completion bool :=
  if (string_length_Z name =? 0) || (256 <? string_length_Z name) then
    Abrupt (newError "Service name must be between 1 and 256 characters")
  else if negb (string_forall is_service_char name) then
    Abrupt (newError "Service name contains invalid characters")
  else if existsb (String.eqb (toLowerCase name)) reservedNames then
    Abrupt (newError "Service name uses reserved system name")
  else Normal true.

(* ------------------------------------------------------------------ *)
(** *** [src/process.js] *)

Definition allowedCommands : list string :=
  ["Start-Service"; "Stop-Service"; "Get-Service"].

(** [arg.replace(/'/g, "''")] *)
Fixpoint double_quotes (arg : string) : string :=
  match arg with
  | EmptyString => EmptyString
  | String c rest =>
      if Ascii.eqb c "'"%char then String c (String c (double_quotes rest))
      else String c (double_quotes rest)
  end.

Definition escape_arg (arg : string) : string := "'" ++ double_quotes arg ++ "'".

Definition powershell_argv (fullCommand : string) : list string :=
  ["-NoProfile"; "-NonInteractive"; "-ExecutionPolicy"; "Bypass"; "-Command"; fullCommand].

(** The promise resolves with the trimmed output, which the only caller
    discards; here it resolves with nothing. *)
Definition runSecurePowerShell (command : string) (args : list string) : M unit :=
  if negb (existsb (String.eqb command) allowedCommands) then
    throw (newError "PowerShell command not allowed")
  else
    let fullCommand := command ++ " " ++ String.concat " " (map escape_arg args) in
    fun s =>
      let argv := powershell_argv fullCommand in
      let '(outcome, ms, w) := spawn_powershell host argv (world s) in
      let s1 := advance (Z.of_N ms) (set_world w (record (EvSpawn "powershell.exe" argv) s)) in
      match outcome with
      | Closed code stdout stderr =>
          if code =? 0 then (Ret tt, s1)
          else (Thr (newError (sanitize_text host
                  (if String.eqb stderr "" then "PowerShell exited with code " ++ show_Z code
                   else stderr))), s1)
      | SpawnErrorEvent e => (Thr (newError (sanitizeErrorMessage e)), s1)
      | SpawnThrew e => (Thr (newError (sanitizeErrorMessage e)), s1)
      end.

(** Resolves right after [spawn] returns; only a synchronous throw of
    [spawn] rejects. *)
Definition runSecureDetached (executable : string) (args : list string)
    (cwd : option string) : M unit := fun s =>
  let '(threw, w) :=
    spawn_detached host executable args (if truthy_opt cwd then cwd else None) (world s) in
  let s1 := set_world w (record (EvSpawn executable args) s) in
  match threw with
  | Some e => (Thr (newError (sanitizeErrorMessage e)), s1)
  | None => (Ret tt, s1)
  end.

(** The [while (Date.now() < until)] loop of [waitFor], one unit of [fuel]
    per iteration. *)
Fixpoint waitFor_loop (fuel : nat) (fn : M bool) (until intervalMs : Z)
    (s : State) {struct fuel} : option (Completion bool) * State :=
  if now s <? until then
    match fuel with
    | O => (OutOfFuel, s)
    | S fuel' =>
        (ok <- try_catch fn (fun _ => ret false) ;;
         if ok then ret true
         else sleep intervalMs ;;; waitFor_loop fuel' fn until intervalMs) s
    end
  else (Ret false, s).

Definition waitFor (fuel : nat) (fn : M bool) (timeoutMs intervalMs : Z) : M bool :=
  s <- get ;;
  waitFor_loop fuel fn (now s + timeoutMs) intervalMs.

Definition opt_string (o : option string) : string :=
  match o with
  | Some x => x
  | None => EmptyString
  end.

(** The launch block of [startServer]: service, command, or neither. *)
Definition launchConfigured : M unit :=
  if truthy_opt (serviceName config) then
    lift (validateServiceName (opt_string (serviceName config))) ;;;
    runSecurePowerShell "Start-Service" ["-Name"; opt_string (serviceName config)]
  else if truthy_opt (startCommand config) then
    parsed <- lift (validateStartCommand host (opt_string (startCommand config))) ;;
    runSecureDetached (fst parsed) (snd parsed) (startWorkingDirectory config)
  else throw (newError "No SERVICE_NAME or START_CMD configured").

Definition startServer (fuel : nat) : M StartResult :=
  try_catch
    (already <- isUp ;;
     if already then ret (mkStartResult false (Some "already_running"))
     else
       launchConfigured ;;;
       ok <- waitFor fuel isUp (startTimeoutMs config) (pollIntervalMs config) ;;
       if negb ok then throw (newError "Server did not come up in time")
       else ret (mkStartResult true None))
    (fun error => throw (mkError (err_name error) (sanitizeErrorMessage error))).

(* ------------------------------------------------------------------ *)
(** *** [src/monitor.js] *)

(** Logging leaves no mark on the state and is left out. *)

Definition setActivity (name : string) : M unit := fun s =>
  let '(threw, w) := discord_setActivity host name (world s) in
  let s1 := set_world w (record (EvSetActivity name) s) in
  match threw with
  | Some e => (Thr e, s1)
  | None => (Ret tt, s1)
  end.

Definition client_ready (c : option Client) : bool :=
  match c with
  | Some cl => client_user cl
  | None => false
  end.

Definition updateDiscordStatus : M unit :=
  modify (record EvStatusUpdate) ;;;
  s <- get ;;
  if negb (client_ready (discordClient s)) then ret tt
  else
    try_catch
      (serverName <-
         (if ServerState_eqb (serverState s) KNOWN_UP then
            try_catch
              (info <- getInfo ;;
               name <- lift (get_prop info "servername") ;;
               if truthy name then
                 modify (set_lastKnownServerName name) ;;; ret name
               else ret (lastKnownServerName s))
              (fun _ => ret (lastKnownServerName s))
          else ret (lastKnownServerName s)) ;;
       s1 <- get ;;
       let status := if ServerState_eqb (serverState s1) KNOWN_UP then "UP" else "DOWN" in
       shown <- js_template serverName ;;
       setActivity (shown ++ " is " ++ status))
      (fun _ => ret tt).

Definition handleServerUp : M unit :=
  s <- get ;;
  if negb (ServerState_eqb (serverState s) KNOWN_UP) then
    modify (set_serverState KNOWN_UP) ;;;
    modify (set_consecutiveEmptyChecks 0) ;;;
    updateDiscordStatus
  else ret tt.

Definition handleServerDown : M unit :=
  s <- get ;;
  if negb (ServerState_eqb (serverState s) KNOWN_DOWN) then
    modify (set_serverState KNOWN_DOWN) ;;;
    modify (set_consecutiveEmptyChecks 0) ;;;
    updateDiscordStatus
  else ret tt.

Definition setServerUp : M unit :=
  s <- get ;;
  if negb (ServerState_eqb (serverState s) KNOWN_UP) then handleServerUp else ret tt.

Definition setServerDown : M unit :=
  s <- get ;;
  if negb (ServerState_eqb (serverState s) KNOWN_DOWN) then handleServerDown else ret tt.

Definition performMonitorCheck (gracefulShutdownFn : M ShutdownOutcome)
    (withLockFn : M ShutdownOutcome -> M ShutdownOutcome) : M unit :=
  s <- get ;;
  if ServerState_eqb (serverState s) KNOWN_DOWN then ret tt
  else
    try_catch
      (serverUp <- isUp ;;
       if negb serverUp then
         s1 <- get ;;
         if negb (ServerState_eqb (serverState s1) KNOWN_DOWN) then handleServerDown
         else ret tt
       else
         s1 <- get ;;
         (if negb (ServerState_eqb (serverState s1) KNOWN_UP) then handleServerUp
          else ret tt) ;;;
         players <- getPlayers ;;
         playerCount <- lift (get_prop players "length") ;;
         if strict_eq_zero playerCount then
           modify (fun s2 => set_consecutiveEmptyChecks (consecutiveEmptyChecks s2 + 1) s2) ;;;
           s3 <- get ;;
           if emptyCheckThreshold config <=? consecutiveEmptyChecks s3 then
             try_catch
               (result <- withLockFn gracefulShutdownFn ;;
                if success result then modify (set_consecutiveEmptyChecks 0)
                else ret tt)
               (fun lockError => ret tt)
           else ret tt
         else
           s2 <- get ;;
           if 0 <? consecutiveEmptyChecks s2 then
             js_template playerCount ;;;
             modify (set_consecutiveEmptyChecks 0)
           else ret tt)
      (fun error => ret tt).

(* ------------------------------------------------------------------ *)
(** *** [src/index.js] *)

Definition withLock {A} (fn : M A) : M A :=
  s <- get ;;
  if busy s then throw busyError
  else modify (set_busy true) ;;; try_finally fn (set_busy false).

(** The [while (Date.now() < until)] loop of [waitForShutdown]. *)
Fixpoint waitForShutdown_loop (fuel : nat) (until intervalMs : Z)
    (s : State) {struct fuel} : option (Completion bool) * State :=
  if now s <? until then
    match fuel with
    | O => (OutOfFuel, s)
    | S fuel' =>
        (down <- try_catch (up <- isUp ;; ret (negb up)) (fun _ => ret false) ;;
         if down then ret true
         else sleep intervalMs ;;; waitForShutdown_loop fuel' until intervalMs) s
    end
  else (Ret false, s).

Definition waitForShutdown (fuel : nat) (timeoutMs intervalMs : Z) : M bool :=
  s <- get ;;
  waitForShutdown_loop fuel (now s + timeoutMs) intervalMs.

(** [players.length > 0], then the count as the message renders it. *)
Definition players_online (players : JsVal) : M (option string) :=
  len <- lift (get_prop players "length") ;;
  online <- js_gt_zero len ;;
  if online then (shown <- js_template len ;; ret (Some shown)) else ret None.

Definition gracefulShutdown (fuel : nat) : M ShutdownOutcome :=
  up <- isUp ;;
  if negb up then ret (mkOutcome false "Server already appears **DOWN**.")
  else
    players <- getPlayers ;;
    online <- players_online players ;;
    match online with
    | Some n => ret (mkOutcome false ("Cannot stop: **" ++ n ++ "** player(s) online."))
    | None =>
        try_catch
          (saveWorld ;;;
           sleep (saveWorldDelayMs config) ;;;
           players2 <- getPlayers ;;
           online2 <- players_online players2 ;;
           match online2 with
           | Some n =>
               ret (mkOutcome false ("Abort: **" ++ n ++ "** player(s) just connected."))
           | None =>
               shutdown (shutdownDelaySeconds config) "Stopping (admin request)." ;;;
               serverDown <- waitForShutdown fuel (startTimeoutMs config)
                                             (pollIntervalMs config) ;;
               if negb serverDown then
                 ret (mkOutcome false "Server shutdown timed out - may still be running.")
               else
                 setServerDown ;;;
                 ret (mkOutcome true "Graceful server stop completed.")
           end)
          (fun e => ret (mkOutcome false ("Stop failed: `" ++ sanitizeErrorMessage e ++ "`")))
    end.

(* ------------------------------------------------------------------ *)
(** *** Vocabulary of the statements *)

(** The module-level variables of the two modules are the same in both states. *)
Definition same_bot (s s1 : State) : Prop :=
  busy s1 = busy s /\
  serverState s1 = serverState s /\
  consecutiveEmptyChecks s1 = consecutiveEmptyChecks s /\
  discordClient s1 = discordClient s /\
  lastKnownServerName s1 = lastKnownServerName s.

(** An action that only talks to the remote API: it appends [evs] to the
    trace, leaves the module variables alone and does not turn the clock back. *)
Definition remote_only (evs : list Event) (s s1 : State) : Prop :=
  trace s1 = (evs ++ trace s)%list /\ same_bot s s1 /\ now s <= now s1.

Definition save_request : Event := EvFetch POST (url "/save").
Definition shutdown_request : Event := EvFetch POST (url "/shutdown").
Definition info_request : Event := EvFetch GET (url "/info").
Definition players_request : Event := EvFetch GET (url "/players").

(** The state in which [withLock] hands control to the shutdown protocol on
    a tick that counted one more empty check. *)
Definition counted (s : State) : State :=
  set_consecutiveEmptyChecks (consecutiveEmptyChecks s + 1) s.

(** The host can render every server name in the activity text. *)
Definition renders_everything : Prop :=
  forall v : JsVal, exists text, coerce_to_string host v = Normal text.

(** What one run of [updateDiscordStatus] can change: it always resolves,
    marks one status update, publishes at most one activity (none without a
    ready client, exactly one with a ready client and a name that renders),
    may refresh the cached server name, spawns nothing and leaves state,
    counter and lock alone. *)
Definition status_published (s s1 : State) : Prop :=
  busy s1 = busy s /\
  serverState s1 = serverState s /\
  consecutiveEmptyChecks s1 = consecutiveEmptyChecks s /\
  discordClient s1 = discordClient s /\
  count_events is_status_update (trace s1) = S (count_events is_status_update (trace s)) /\
  (count_events is_set_activity (trace s1) <= S (count_events is_set_activity (trace s)))%nat /\
  (client_ready (discordClient s) = false ->
   count_events is_set_activity (trace s1) = count_events is_set_activity (trace s)) /\
  (client_ready (discordClient s) = true -> renders_everything ->
   count_events is_set_activity (trace s1) =
   S (count_events is_set_activity (trace s))) /\
  count_events is_spawn (trace s1) = count_events is_spawn (trace s).

(** A transition into [target]: the state is [target], the counter is zero,
    and the display status was updated once. *)
Definition transitioned (target : ServerState) (s s1 : State) : Prop :=
  serverState s1 = target /\
  consecutiveEmptyChecks s1 = 0 /\
  busy s1 = busy s /\
  count_events is_status_update (trace s1) = S (count_events is_status_update (trace s)) /\
  (count_events is_set_activity (trace s1) <= S (count_events is_set_activity (trace s)))%nat /\
  (client_ready (discordClient s) = false ->
   count_events is_set_activity (trace s1) = count_events is_set_activity (trace s)) /\
  (client_ready (discordClient s) = true -> renders_everything ->
   count_events is_set_activity (trace s1) =
   S (count_events is_set_activity (trace s))).

(* ------------------------------------------------------------------ *)
(** *** More of [src/monitor.js] and [src/index.js] *)

Definition set_discordClient (c : option Client) (s : State) : State :=
  mkSt (world s) (now s) (trace s) (busy s) (serverState s)
       (consecutiveEmptyChecks s) c (lastKnownServerName s).

(** [monitoringActive] and [intervalId] of [monitor.js], with the timers the
    module has registered and not cleared; timers are numbered as they are
    created. *)
Record MonitorCtl : Type := mkCtl {
  monitoringActive : bool;
  intervalId : option nat;
  live_timers : list nat;
  next_timer : nat
}.

Definition initial_ctl : MonitorCtl := mkCtl false None [] 0%nat.

Fixpoint clear_timer (id : nat) (timers : list nat) : list nat :=
  match timers with
  | [] => []
  | t :: rest => if Nat.eqb t id then clear_timer id rest else t :: clear_timer id rest
  end.

(** [startMonitoring(gracefulShutdownFn, withLockFn, client)]; the two
    functions are only captured by the timer callback.  The function is cut
    at its [await]s: the entry up to [await isUp()], the seeding of the
    tracked state inside the [try], and the registration of the timer after
    it.  [startMonitoring_enter] answers [None] on the early return. *)
Definition startMonitoring_enter (client : option Client) (ctl : MonitorCtl)
    : M (option MonitorCtl) :=
  modify (set_discordClient client) ;;;
  if monitoringActive ctl then ret None
  else
    modify (set_consecutiveEmptyChecks 0) ;;;
    ret (Some (mkCtl true (intervalId ctl) (live_timers ctl) (next_timer ctl))).

Definition startMonitoring_seed : M unit :=
  try_catch
    (serverUp <- isUp ;;
     if serverUp then handleServerUp else handleServerDown)
    (fun _ => ret tt).

(** [intervalId = setInterval(...)]: a fresh timer is registered and its
    handle overwrites the variable. *)
Definition startMonitoring_register (ctl : MonitorCtl) : MonitorCtl :=
  mkCtl (monitoringActive ctl) (Some (next_timer ctl))
        (next_timer ctl :: live_timers ctl) (S (next_timer ctl)).

Definition startMonitoring (client : option Client) (ctl : MonitorCtl) : M MonitorCtl :=
  entered <- startMonitoring_enter client ctl ;;
  match entered with
  | None => ret ctl
  | Some ctl1 => startMonitoring_seed ;;; ret (startMonitoring_register ctl1)
  end.

Definition stopMonitoring (ctl : MonitorCtl) : M MonitorCtl :=
  if negb (monitoringActive ctl) then ret ctl
  else
    modify (set_consecutiveEmptyChecks 0) ;;;
    match intervalId ctl with
    | Some id => ret (mkCtl false None (clear_timer id (live_timers ctl)) (next_timer ctl))
    | None => ret (mkCtl false (intervalId ctl) (live_timers ctl) (next_timer ctl))
    end.

Inductive CtlOp : Type :=
| OpStart (client : option Client)
| OpStop.

(** A sequence of start and stop calls, each run to its end. *)
Fixpoint run_ctl (ops : list CtlOp) (ctl : MonitorCtl) (s : State)
    : MonitorCtl * State :=
  match ops with
  | [] => (ctl, s)
  | op :: rest =>
      let '(r, s1) :=
        match op with
        | OpStart client => startMonitoring client ctl s
        | OpStop => stopMonitoring ctl s
        end in
      match r with
      | Ret ctl1 => run_ctl rest ctl1 s1
      | _ => run_ctl rest ctl s1
      end
  end.

(** The timers are in step with the two variables. *)
Definition ctl_consistent (ctl : MonitorCtl) : Prop :=
  (monitoringActive ctl = true <-> intervalId ctl <> None) /\
  live_timers ctl = match intervalId ctl with Some id => [id] | None => [] end /\
  Forall (fun t => (t < next_timer ctl)%nat) (live_timers ctl).

(** The monitor tick as [index.js] wires it. *)
Definition tick (fuel : nat) : M unit :=
  performMonitorCheck (gracefulShutdown fuel) (@withLock ShutdownOutcome).

(** The body of the [palstop] command after the authorization check and
    [deferReply]; [editReply] is the interaction's reply function. *)
Definition palstop (editReply : string -> M unit) (fuel : nat) : M unit :=
  try_catch
    (withLock
       (result <- gracefulShutdown fuel ;;
        editReply (message result)))
    (fun err => editReply (sanitizeErrorMessage err)).

(** What the bot does to the tracker, one operation at a time. *)
Inductive BotOp : Type :=
| DoTick
| DoManualStop
| DoNotifyUp
| DoNotifyDown.

Definition run_op (fuel : nat) (op : BotOp) (s : State) : State :=
  match op with
  | DoTick => snd (tick fuel s)
  | DoManualStop => snd (withLock (gracefulShutdown fuel) s)
  | DoNotifyUp => snd (setServerUp s)
  | DoNotifyDown => snd (setServerDown s)
  end.

Definition run_ops (fuel : nat) (ops : list BotOp) (s : State) : State :=
  fold_left (fun st op => run_op fuel op st) ops s.

(** The idle counter is never negative and is zero while the server is
    known to be down. *)
Definition tracker_ok (s : State) : Prop :=
  0 <= consecutiveEmptyChecks s /\
  (serverState s = KNOWN_DOWN -> consecutiveEmptyChecks s = 0).

(** Events that start nothing on the server or the machine: no [POST], no
    spawned process. *)
Definition quiet (e : Event) : bool :=
  match e with
  | EvFetch POST _ | EvSpawn _ _ => false
  | _ => true
  end.

(** [s1] comes after [s] with only quiet events in between. *)
Definition quiet_extension (s s1 : State) : Prop :=
  exists evs, trace s1 = (evs ++ trace s)%list /\ forallb quiet evs = true.

(** [m] always ends, with a value or a thrown error. *)
Definition completes {A} (m : M A) : Prop :=
  forall s, exists c s1, m s = (Some c, s1).

(** Whatever way [m] ends when started where [P] holds, [Q] holds after. *)
Definition hoare {A} (P : State -> Prop) (m : M A) (Q : State -> Prop) : Prop :=
  forall s r s1, m s = (r, s1) -> P s -> Q s1.

(** Tracked state, counter and lock flag are the same in both states. *)
Definition same_tracker (s s1 : State) : Prop :=
  serverState s1 = serverState s /\
  consecutiveEmptyChecks s1 = consecutiveEmptyChecks s /\
  busy s1 = busy s.

(** [m] leaves tracked state, counter and lock flag alone, however it ends. *)
Definition keeps_tracker {A} (m : M A) : Prop :=
  forall s r s1, m s = (r, s1) -> same_tracker s s1.

(** A property of the state that looks at nothing else. *)
Definition tracker_pred (P : State -> Prop) : Prop :=
  forall s s1, same_tracker s s1 -> P s -> P s1.

(** An action of the interleaving model as an action passed to [withLock]:
    its segments run one after the other on the world, and it settles with
    its completion. *)
Fixpoint task_M {A} (t : Task W A) : M A :=
  match t with
  | Settled r => lift r
  | Suspended segment next =>
      fun s => task_M (next (world s)) (set_world (segment (world s)) s)
  end.

(* ================================================================== *)
(** ** Properties *)

Lemma same_bot_refl (s : State) : same_bot s s.
Proof. repeat split. Qed.

Lemma same_bot_trans (s s1 s2 : State) :
  same_bot s s1 -> same_bot s1 s2 -> same_bot s s2.
Proof.
  unfold same_bot; intros (a1 & a2 & a3 & a4 & a5) (b1 & b2 & b3 & b4 & b5).
  repeat split; congruence.
Qed.

Lemma remote_only_refl (s : State) : remote_only [] s s.
Proof. unfold remote_only; simpl; auto using same_bot_refl with zarith. Qed.

Lemma remote_only_trans (evs evs1 : list Event) (s s1 s2 : State) :
  remote_only evs s s1 -> remote_only evs1 s1 s2 ->
  remote_only (evs1 ++ evs)%list s s2.
Proof.
  unfold remote_only; intros (t & b & c) (t1 & b1 & c1); split; [|split].
  - rewrite t1, t, app_assoc; reflexivity.
  - eapply same_bot_trans; eauto.
  - lia.
Qed.

(** *** The remote client *)

Lemma fetch_spec (req : Request) (s : State) :
  exists c s1, fetch req s = (Some c, s1) /\
    remote_only [EvFetch (req_method req) (req_url req)] s s1.
Proof.
  unfold fetch.
  destruct (net_fetch host req (world s)) as [[r ms] w].
  eexists; eexists; split; [reflexivity|].
  unfold remote_only, same_bot; simpl; repeat split; lia.
Qed.

Lemma apiGet_spec (path : string) (s : State) :
  exists c s1, apiGet path s = (Some c, s1) /\
    remote_only [EvFetch GET (url path)] s s1.
Proof.
  unfold apiGet, bind.
  destruct (fetch_spec (mkRequest GET (url path) None) s) as (c & s1 & E & R).
  rewrite E; simpl in R.
  destruct c as [response|e]; [|eauto].
  destruct (negb (resp_ok response)); unfold throw, lift; eauto.
Qed.

Lemma apiPost_spec (path : string) (body : JsVal) (s : State) :
  exists c s1, apiPost path body s = (Some c, s1) /\
    remote_only [EvFetch POST (url path)] s s1.
Proof.
  unfold apiPost, bind.
  destruct (fetch_spec (mkRequest POST (url path) (Some body)) s) as (c & s1 & E & R).
  rewrite E; simpl in R.
  destruct c as [response|e]; [|eauto].
  destruct (negb (resp_ok response)); unfold throw, try_catch, lift, ret; eauto.
  destruct (resp_json response); eauto.
Qed.

Lemma isUp_spec (s : State) :
  exists b s1, isUp s = (Ret b, s1) /\ remote_only [info_request] s s1.
Proof.
  unfold isUp, try_catch, bind, ret.
  destruct (apiGet_spec "/info" s) as (c & s1 & E & R).
  rewrite E; destruct c; eauto.
Qed.

Lemma getPlayers_spec (s : State) :
  exists c s1, getPlayers s = (Some c, s1) /\ remote_only [players_request] s s1.
Proof.
  unfold getPlayers, bind.
  destruct (apiGet_spec "/players" s) as (c & s1 & E & R).
  rewrite E; destruct c as [data|e]; [|eauto].
  destruct (isArray data); unfold ret, lift; eauto.
  destruct (get_prop data "players"); eauto.
Qed.

(** The value [getPlayers] resolves with is never [null] or [undefined], so
    reading its [length] does not throw. *)
Lemma getPlayers_length (s s1 : State) (players : JsVal) :
  getPlayers s = (Ret players, s1) ->
  exists len, get_prop players "length" = Normal len.
Proof.
  unfold getPlayers, bind; intros H.
  destruct (apiGet "/players" s) as [[[data|e]|] s0]; try discriminate.
  destruct (isArray data) eqn:A.
  - inversion H; subst; destruct players; try discriminate; simpl; eauto.
  - unfold lift, ret in H; destruct (get_prop data "players") as [p|e]; try discriminate.
    inversion H; subst.
    destruct (truthy p) eqn:T; [|simpl; eauto].
    destruct p; try discriminate T; simpl; eauto.
Qed.

(** C9.  The liveness probe never throws.  Whatever the status query
    [GET /info] does, [isUp] resolves with a boolean: [true] exactly when the
    query succeeds, [false] when it fails in any way (network error, HTTP
    error status, unparsable body). *)
Theorem isUp_never_throws : forall s : State,
  exists b s1, isUp s = (Ret b, s1) /\
    ((b = true /\ exists info, getInfo s = (Ret info, s1)) \/
     (b = false /\ exists e, getInfo s = (Thr e, s1))).
Proof.
  intros s; unfold isUp, getInfo, try_catch, bind, ret.
  destruct (apiGet_spec "/info" s) as (c & s1 & E & _).
  rewrite E; destruct c as [info|e].
  - exists true, s1; split; [reflexivity|left; eauto].
  - exists false, s1; split; [reflexivity|right; eauto].
Qed.

(** C10, as amended.  When [GET /players] succeeds with body [data]: an array
    body is returned as it is; for any other body that has properties, the
    [players] field is returned when it is truthy and the empty list when it
    is absent or otherwise falsy.  Hence the result is a list whenever the
    body is an array or its [players] field is a list, absent or falsy.
    Whatever the result is, reading its [length] does not throw. *)
Theorem getPlayers_result : forall (s s1 : State) (data : JsVal),
  apiGet "/players" s = (Ret data, s1) ->
  (isArray data = true -> getPlayers s = (Ret data, s1)) /\
  (forall p, isArray data = false -> get_prop data "players" = Normal p ->
     getPlayers s = (Ret (if truthy p then p else VArr []), s1)) /\
  (isArray data = true \/
   (exists p, get_prop data "players" = Normal p /\
              (isArray p = true \/ truthy p = false)) ->
   exists items, getPlayers s = (Ret (VArr items), s1)) /\
  (forall (players : JsVal) (s2 : State),
   getPlayers s = (Ret players, s2) ->
   exists len, get_prop players "length" = Normal len).
Proof.
  intros s s1 data H.
  assert (A : isArray data = true -> getPlayers s = (Ret data, s1)).
  { intros Arr; unfold getPlayers, bind; rewrite H, Arr; reflexivity. }
  assert (B : forall p, isArray data = false -> get_prop data "players" = Normal p ->
     getPlayers s = (Ret (if truthy p then p else VArr []), s1)).
  { intros p Arr P; unfold getPlayers, bind, lift, ret; rewrite H, Arr, P; reflexivity. }
  split; [exact A|split; [exact B|split]].
  - intros [Arr | (p & P & Q)].
    + destruct data; try discriminate; eauto.
    + destruct (isArray data) eqn:Arr.
      * destruct data; try discriminate; eauto.
      * rewrite (B p eq_refl P).
        destruct Q as [Q|Q].
        -- destruct p; try discriminate; simpl; eauto.
        -- rewrite Q; eauto.
  - intros players s2; apply getPlayers_length.
Qed.

(** *** Startup *)

(** C5.  When the first liveness poll of [startServer] finds the server up,
    the call resolves with [{started: false, reason: 'already_running'}];
    the only thing it did is that one [GET /info]: no process was spawned
    and no module variable changed. *)
Theorem startServer_already_running : forall (fuel : nat) (s s1 : State),
  isUp s = (Ret true, s1) ->
  startServer fuel s = (Ret (mkStartResult false (Some "already_running")), s1) /\
  trace s1 = info_request :: trace s /\
  count_events is_spawn (trace s1) = count_events is_spawn (trace s) /\
  same_bot s s1.
Proof.
  intros fuel s s1 H.
  split.
  - unfold startServer, try_catch, bind; rewrite H; reflexivity.
  - destruct (isUp_spec s) as (b & s2 & E & T & B & _).
    rewrite H in E; inversion E; subst.
    repeat split; try apply B.
    + exact T.
    + rewrite T; reflexivity.
Qed.

(** *** The monitor tick *)

(** C8.  A tick that starts while the tracked state is [KNOWN_DOWN] does
    nothing: it resolves leaving the whole state as it was, so no request
    was sent and the counter did not move. *)
Theorem performMonitorCheck_skips_when_down :
  forall (gracefulShutdownFn : M ShutdownOutcome)
         (withLockFn : M ShutdownOutcome -> M ShutdownOutcome) (s : State),
  serverState s = KNOWN_DOWN ->
  performMonitorCheck gracefulShutdownFn withLockFn s = (Ret tt, s).
Proof.
  intros g w s H.
  unfold performMonitorCheck, bind, get; rewrite H; reflexivity.
Qed.

(** *** The state tracker *)

Ltac break_match :=
  match goal with
  | |- context [match ?x with _ => _ end] =>
      lazymatch x with
      | context [match _ with _ => _ end] => fail
      | _ => destruct x eqn:?
      end
  end.

Lemma updateDiscordStatus_spec (s : State) :
  exists s1, updateDiscordStatus s = (Ret tt, s1) /\ status_published s s1.
Proof.
  unfold updateDiscordStatus, status_published, getInfo, apiGet, fetch, setActivity,
    js_template, bind, modify, get, try_catch, ret, lift, throw.
  simpl.
  repeat (break_match; simpl in *; try discriminate);
    repeat match goal with
           | H : (_, _) = (_, _) |- _ => inversion H; clear H; subst
           end;
    simpl;
    (eexists; split; [reflexivity|]; simpl; unfold count_events; simpl;
     repeat split; try lia; try congruence;
     try (intros Hc; rewrite Hc in *; simpl in *; discriminate);
     try (intros Hc Hr; rewrite Hc in *; simpl in *; try discriminate;
          match goal with
          | H : coerce_to_string host ?v = Abrupt _ |- _ =>
              destruct (Hr v) as [text Ht]; rewrite Ht in H; discriminate
          end)).
Qed.

Lemma handleServerUp_spec (s : State) :
  serverState s <> KNOWN_UP ->
  exists s1, handleServerUp s = (Ret tt, s1) /\ transitioned KNOWN_UP s s1.
Proof.
  intros H; unfold handleServerUp, bind, get, modify.
  destruct (ServerState_eqb (serverState s) KNOWN_UP) eqn:E.
  { destruct (serverState s); try discriminate; congruence. }
  simpl.
  destruct (updateDiscordStatus_spec
              (set_consecutiveEmptyChecks 0 (set_serverState KNOWN_UP s)))
    as (s1 & R & P).
  exists s1; split; [exact R|].
  destruct P as (p1 & p2 & p3 & p4 & p5 & p6 & p7 & p8 & p9); simpl in *.
  unfold transitioned; repeat split; auto.
Qed.

Lemma handleServerDown_spec (s : State) :
  serverState s <> KNOWN_DOWN ->
  exists s1, handleServerDown s = (Ret tt, s1) /\ transitioned KNOWN_DOWN s s1.
Proof.
  intros H; unfold handleServerDown, bind, get, modify.
  destruct (ServerState_eqb (serverState s) KNOWN_DOWN) eqn:E.
  { destruct (serverState s); try discriminate; congruence. }
  simpl.
  destruct (updateDiscordStatus_spec
              (set_consecutiveEmptyChecks 0 (set_serverState KNOWN_DOWN s)))
    as (s1 & R & P).
  exists s1; split; [exact R|].
  destruct P as (p1 & p2 & p3 & p4 & p5 & p6 & p7 & p8 & p9); simpl in *.
  unfold transitioned; repeat split; auto.
Qed.

Lemma ServerState_eqb_neq (a b : ServerState) :
  a <> b -> ServerState_eqb a b = false.
Proof. destruct a, b; simpl; congruence. Qed.

Lemma ServerState_eqb_eq (a b : ServerState) :
  ServerState_eqb a b = true <-> a = b.
Proof. destruct a, b; simpl; split; congruence. Qed.

(** C7.  The notifications are idempotent and a real change takes effect
    once.  [setServerUp] in state [KNOWN_UP], and [setServerDown] in state
    [KNOWN_DOWN], leave the whole state as it was: nothing is published and
    the counter keeps its value.  From any other state the notification
    resolves with the tracked state changed, the counter at zero and
    [updateDiscordStatus] run exactly once; that run sets at most one
    activity: none when no ready Discord client is at hand, exactly one when
    the client is ready and the server name renders. *)
Theorem notify_idempotent_and_effectful_once : forall s : State,
  (serverState s = KNOWN_UP -> setServerUp s = (Ret tt, s)) /\
  (serverState s = KNOWN_DOWN -> setServerDown s = (Ret tt, s)) /\
  (serverState s <> KNOWN_UP ->
   exists s1, setServerUp s = (Ret tt, s1) /\ transitioned KNOWN_UP s s1) /\
  (serverState s <> KNOWN_DOWN ->
   exists s1, setServerDown s = (Ret tt, s1) /\ transitioned KNOWN_DOWN s s1).
Proof.
  intros s; repeat split.
  - intros H; unfold setServerUp, bind, get; rewrite H; reflexivity.
  - intros H; unfold setServerDown, bind, get; rewrite H; reflexivity.
  - intros H; unfold setServerUp, bind, get.
    rewrite (ServerState_eqb_neq H); simpl.
    apply handleServerUp_spec; exact H.
  - intros H; unfold setServerDown, bind, get.
    rewrite (ServerState_eqb_neq H); simpl.
    apply handleServerDown_spec; exact H.
Qed.

(** *** The shutdown protocol *)

Lemma remote_only_same_bot (evs : list Event) (s s1 : State) :
  remote_only evs s s1 -> same_bot s s1.
Proof. intros (_ & B & _); exact B. Qed.

Lemma js_gt_zero_pure (v : JsVal) (s : State) :
  exists c, js_gt_zero v s = (Some c, s).
Proof. destruct v; simpl; unfold ret, lift; eauto. Qed.

Lemma js_template_pure (v : JsVal) (s : State) :
  exists c, js_template v s = (Some c, s).
Proof.
  destruct v; simpl; unfold ret, lift; eauto.
  destruct (Z.abs z <=? MAX_SAFE_INTEGER); eauto.
Qed.

Lemma players_online_pure (players : JsVal) (s : State) :
  exists c, players_online players s = (Some c, s).
Proof.
  unfold players_online, bind, lift.
  destruct (get_prop players "length") as [len|e]; [|eauto].
  destruct (js_gt_zero_pure len s) as (c & E); rewrite E.
  destruct c as [[|]|e]; unfold ret; eauto.
  destruct (js_template_pure len s) as (c & E1); rewrite E1.
  destruct c; eauto.
Qed.

Lemma players_online_counted (players : JsVal) (n : Z) (s : State) :
  get_prop players "length" = Normal (VNum n) -> 0 < n <= MAX_SAFE_INTEGER ->
  players_online players s = (Ret (Some (show_Z n)), s).
Proof.
  intros L P; unfold players_online, bind, lift; rewrite L; simpl.
  unfold ret; replace (0 <? n) with true by (symmetry; apply Z.ltb_lt; lia).
  replace (Z.abs n <=? MAX_SAFE_INTEGER) with true
    by (symmetry; apply Z.leb_le; lia).
  reflexivity.
Qed.

Lemma sleep_spec (ms : Z) (s : State) :
  exists s1, sleep ms s = (Ret tt, s1) /\ remote_only [] s s1 /\ now s < now s1.
Proof.
  unfold sleep.
  destruct (timer_late host ms (world s)) as [late w].
  eexists; split; [reflexivity|].
  assert (1 <= timer_delay ms).
  { unfold timer_delay.
    destruct (ms <? 1) eqn:A; simpl; [lia|].
    destruct (2147483647 <? ms); [lia|].
    apply Z.ltb_ge in A; lia. }
  unfold remote_only, same_bot; simpl; repeat split; lia.
Qed.

Lemma setServerDown_spec (s : State) :
  exists s1, setServerDown s = (Ret tt, s1).
Proof.
  unfold setServerDown, bind, get.
  destruct (ServerState_eqb (serverState s) KNOWN_DOWN) eqn:E; simpl.
  - unfold ret; eauto.
  - destruct (@handleServerDown_spec s) as (s1 & R & _); eauto.
    intros C; apply ServerState_eqb_eq in C; congruence.
Qed.

Lemma waitForShutdown_loop_frame (fuel : nat) (until intervalMs : Z) :
  forall (s s1 : State) r,
  waitForShutdown_loop fuel until intervalMs s = (r, s1) -> same_bot s s1.
Proof.
  induction fuel as [|fuel IH]; intros s s1 r H; simpl in H.
  - destruct (now s <? until); inversion H; subst; apply same_bot_refl.
  - destruct (now s <? until); [|inversion H; subst; apply same_bot_refl].
    unfold bind, try_catch, ret in H.
    destruct (isUp_spec s) as (b & s2 & E & R); rewrite E in H.
    apply remote_only_same_bot in R.
    destruct b; simpl in H.
    + destruct (sleep_spec intervalMs s2) as (s3 & E3 & R3 & _); rewrite E3 in H.
      apply remote_only_same_bot in R3.
      apply IH in H.
      eauto using same_bot_trans.
    + inversion H; subst; exact R.
Qed.

(** An attempt that resolves without success has not touched the module
    variables: state, counter and lock are as before. *)
Lemma gracefulShutdown_unsuccessful_frame (fuel : nat) (s s1 : State)
    (o : ShutdownOutcome) :
  gracefulShutdown fuel s = (Ret o, s1) -> success o = false -> same_bot s s1.
Proof.
  intros H F; unfold gracefulShutdown, bind in H.
  destruct (isUp_spec s) as (b & s2 & E & R); rewrite E in H.
  apply remote_only_same_bot in R.
  destruct b; simpl in H; [|inversion H; subst; exact R].
  destruct (getPlayers_spec s2) as (c & s3 & E3 & R3); rewrite E3 in H.
  apply remote_only_same_bot in R3.
  destruct c as [players|e]; [|discriminate].
  destruct (players_online_pure players s3) as (c & E4); rewrite E4 in H.
  destruct c as [[n|]|e]; [inversion H; subst; eauto using same_bot_trans| |discriminate].
  unfold try_catch, saveWorld, shutdown, waitForShutdown, bind, get, ret in H.
  destruct (apiPost_spec "/save" (VObj []) s3) as (c & s4 & E5 & R5); rewrite E5 in H.
  apply remote_only_same_bot in R5.
  assert (B4 : same_bot s s4) by eauto using same_bot_trans.
  destruct c as [saved|e]; [|inversion H; subst; exact B4].
  destruct (sleep_spec (saveWorldDelayMs config) s4) as (s5 & E6 & R6 & _); rewrite E6 in H.
  apply remote_only_same_bot in R6.
  destruct (getPlayers_spec s5) as (c & s6 & E7 & R7); rewrite E7 in H.
  apply remote_only_same_bot in R7.
  assert (B6 : same_bot s s6) by eauto using same_bot_trans.
  destruct c as [players2|e]; [|inversion H; subst; exact B6].
  destruct (players_online_pure players2 s6) as (c & E8); rewrite E8 in H.
  destruct c as [[n|]|e]; try (inversion H; subst; exact B6).
  match type of H with
  | context [apiPost ?p ?b s6] =>
      destruct (apiPost_spec p b s6) as (c & s7 & E9 & R9); rewrite E9 in H
  end.
  apply remote_only_same_bot in R9.
  assert (B7 : same_bot s s7) by eauto using same_bot_trans.
  destruct c as [stopped|e]; [|inversion H; subst; exact B7].
  destruct (waitForShutdown_loop fuel (now s7 + startTimeoutMs config)
              (pollIntervalMs config) s7) as [[[down|e]|] s8] eqn:E10;
    try discriminate.
  - apply waitForShutdown_loop_frame in E10.
    destruct down; simpl in H.
    + destruct (setServerDown_spec s8) as (s9 & E11); rewrite E11 in H.
      inversion H; subst; discriminate.
    + inversion H; subst; eauto using same_bot_trans.
  - apply waitForShutdown_loop_frame in E10.
    inversion H; subst; eauto using same_bot_trans.
Qed.

Lemma append_cancel_l (p a b : string) : p ++ a = p ++ b -> a = b.
Proof.
  induction p as [|c p IH]; simpl; intros H; [exact H|].
  inversion H; auto.
Qed.

Lemma url_inj (a b : string) : url a = url b -> a = b.
Proof. unfold url; apply append_cancel_l. Qed.

Lemma contains_middle (pre needle post : string) :
  contains needle (pre ++ needle ++ post).
Proof. exists pre, post; reflexivity. Qed.

(** C3.  A positive player count stops the shutdown.  Counts are within the
    safe integers, as every array length is.  If the first player poll
    counts [n > 0] players, [gracefulShutdown] resolves without success
    with a message that contains [n], in the state the poll left: the only
    requests sent are the liveness poll and the player poll, so no save and
    no shutdown request.  If the poll after the settle delay counts [n > 0]
    players, it resolves without success with a message that contains [n],
    again in the state that poll left: the requests sent are the liveness
    poll, the first player poll, the save and the second player poll, so no
    shutdown request. *)
Theorem gracefulShutdown_blocked_by_players :
  forall (fuel : nat) (s s1 s2 : State) (players : JsVal) (n : Z),
  0 < n <= MAX_SAFE_INTEGER ->
  isUp s = (Ret true, s1) ->
  getPlayers s1 = (Ret players, s2) ->
  (get_prop players "length" = Normal (VNum n) ->
   let msg := ("Cannot stop: **" ++ show_Z n ++ "** player(s) online.")%string in
     gracefulShutdown fuel s = (Ret (mkOutcome false msg), s2) /\
     contains (show_Z n) msg /\
     trace s2 = [players_request; info_request] ++ trace s /\
     ~ In save_request [players_request; info_request] /\
     ~ In shutdown_request [players_request; info_request])%list /\
  (forall (s3 s4 s5 : State) (saved players2 : JsVal),
   players_online players s2 = (Ret None, s2) ->
   saveWorld s2 = (Ret saved, s3) ->
   sleep (saveWorldDelayMs config) s3 = (Ret tt, s4) ->
   getPlayers s4 = (Ret players2, s5) ->
   get_prop players2 "length" = Normal (VNum n) ->
   let msg := ("Abort: **" ++ show_Z n ++ "** player(s) just connected.")%string in
     gracefulShutdown fuel s = (Ret (mkOutcome false msg), s5) /\
     contains (show_Z n) msg /\
     trace s5 = [players_request; save_request; players_request; info_request] ++ trace s /\
     ~ In shutdown_request
          [players_request; save_request; players_request; info_request])%list.
Proof.
  intros fuel s s1 s2 players n Pos Up Poll.
  assert (T2 : trace s2 = ([players_request; info_request] ++ trace s)%list).
  { destruct (isUp_spec s) as (b & x & E & T & _); rewrite Up in E; inversion E; subst.
    destruct (getPlayers_spec x) as (c & y & E1 & T1 & _); rewrite Poll in E1.
    inversion E1; subst.
    rewrite T1, T; reflexivity. }
  split.
  - intros Len msg.
    split; [|split; [apply contains_middle|split; [exact T2|]]].
    + unfold gracefulShutdown, bind; rewrite Up; simpl; rewrite Poll.
      rewrite (players_online_counted players s2 Len Pos); reflexivity.
    + unfold save_request, shutdown_request, players_request, info_request.
      split; simpl; intros [C|[C|[]]]; discriminate.
  - intros s3 s4 s5 saved players2 None1 Save Sleep Poll2 Len msg.
    split; [|split; [apply contains_middle|split]].
    + unfold gracefulShutdown, bind; rewrite Up; simpl; rewrite Poll, None1.
      unfold try_catch, bind; rewrite Save, Sleep, Poll2.
      rewrite (players_online_counted players2 s5 Len Pos); reflexivity.
    + destruct (apiPost_spec "/save" (VObj []) s2) as (c & y & E & T & _).
      unfold saveWorld in Save; rewrite Save in E; inversion E; subst.
      destruct (sleep_spec (saveWorldDelayMs config) y) as (z & E1 & (T1 & _) & _).
      rewrite Sleep in E1; inversion E1; subst.
      destruct (getPlayers_spec z) as (c & u & E2 & T3 & _); rewrite Poll2 in E2.
      inversion E2; subst.
      rewrite T3, T1, T, T2; reflexivity.
    + unfold save_request, shutdown_request, players_request, info_request.
      simpl; intros [C|[C|[C|[C|[]]]]]; try discriminate.
      inversion C as [U]; apply url_inj in U; discriminate.
Qed.

(** The first player poll sits outside the [try] block of
    [gracefulShutdown]: when it throws, the protocol throws. *)
Lemma gracefulShutdown_first_poll_throws (fuel : nat) (s s1 s2 : State) (e : JsError) :
  isUp s = (Ret true, s1) ->
  getPlayers s1 = (Thr e, s2) ->
  gracefulShutdown fuel s = (Thr e, s2).
Proof.
  intros Up Poll; unfold gracefulShutdown, bind; rewrite Up; simpl; rewrite Poll.
  reflexivity.
Qed.

(** Conversely, nothing after the first player check can make the protocol
    throw: a thrown error comes from the first poll or from reading its
    count. *)
Lemma gracefulShutdown_throws_only_at_first_poll (fuel : nat) (s s1 : State)
    (e : JsError) :
  gracefulShutdown fuel s = (Thr e, s1) ->
  exists s0, isUp s = (Ret true, s0) /\
    (getPlayers s0 = (Thr e, s1) \/
     exists players, getPlayers s0 = (Ret players, s1) /\
                     players_online players s1 = (Thr e, s1)).
Proof.
  intros H; unfold gracefulShutdown, bind in H.
  destruct (isUp_spec s) as (b & s2 & E & _); rewrite E in H.
  destruct b; simpl in H; [|discriminate].
  exists s2; split; [exact E|].
  destruct (getPlayers_spec s2) as (c & s3 & E3 & _); rewrite E3 in H.
  destruct c as [players|e1]; [|inversion H; subst; left; exact E3].
  destruct (players_online_pure players s3) as (c & E4); rewrite E4 in H.
  destruct c as [[n|]|e1]; [discriminate| |inversion H; subst; right; eauto].
  exfalso.
  unfold try_catch, saveWorld, shutdown, waitForShutdown, bind, get, ret in H.
  destruct (apiPost_spec "/save" (VObj []) s3) as (c & s4 & E5 & _); rewrite E5 in H.
  destruct c as [saved|e1]; [|discriminate].
  destruct (sleep_spec (saveWorldDelayMs config) s4) as (s5 & E6 & _); rewrite E6 in H.
  destruct (getPlayers_spec s5) as (c & s6 & E7 & _); rewrite E7 in H.
  destruct c as [players2|e1]; [|discriminate].
  destruct (players_online_pure players2 s6) as (c & E8); rewrite E8 in H.
  destruct c as [[n|]|e1]; try discriminate.
  match type of H with
  | context [apiPost ?p ?b s6] =>
      destruct (apiPost_spec p b s6) as (c & s7 & E9 & _); rewrite E9 in H
  end.
  destruct c as [stopped|e1]; [|discriminate].
  destruct (waitForShutdown_loop fuel (now s7 + startTimeoutMs config)
              (pollIntervalMs config) s7) as [[[down|e1]|] s8]; try discriminate.
  destruct down; simpl in H; [|discriminate].
  destruct (setServerDown_spec s8) as (s9 & E11); rewrite E11 in H; discriminate.
Qed.

(** *** The monitor tick at the threshold *)

Lemma setServerUp_busy (s s1 : State) r :
  setServerUp s = (r, s1) -> busy s1 = busy s.
Proof.
  unfold setServerUp, bind, get; intros H.
  destruct (ServerState_eqb (serverState s) KNOWN_UP) eqn:E; simpl in H.
  - inversion H; reflexivity.
  - destruct (@handleServerUp_spec s) as (s2 & R & T).
    + intros C; apply ServerState_eqb_eq in C; congruence.
    + rewrite R in H; inversion H; subst; apply T.
Qed.

Lemma withLock_unsuccessful_counter (fuel : nat) (s s1 : State) (o : ShutdownOutcome) :
  withLock (gracefulShutdown fuel) s = (Ret o, s1) -> success o = false ->
  consecutiveEmptyChecks s1 = consecutiveEmptyChecks s.
Proof.
  unfold withLock, bind, get, modify, try_finally, throw; intros H F.
  destruct (busy s); [discriminate|].
  destruct (gracefulShutdown fuel (set_busy true s)) as [[[o1|e]|] s2] eqn:E;
    try discriminate.
  inversion H; subst.
  apply gracefulShutdown_unsuccessful_frame in E; [|exact F].
  destruct E as (_ & _ & C & _); exact C.
Qed.

(** A tick that finds the server up with no players and reaches the
    threshold with its count is, from the count on, the attempt under the
    lock followed by the reset on success, inside the inner [try]. *)
Lemma performMonitorCheck_reaches_attempt
    (gracefulShutdownFn : M ShutdownOutcome)
    (withLockFn : M ShutdownOutcome -> M ShutdownOutcome)
    (s s1 s2 s3 : State) (players : JsVal) :
  serverState s <> KNOWN_DOWN ->
  isUp s = (Ret true, s1) ->
  (if negb (ServerState_eqb (serverState s1) KNOWN_UP) then handleServerUp else ret tt) s1 =
    (Ret tt, s2) ->
  getPlayers s2 = (Ret players, s3) ->
  get_prop players "length" = Normal (VNum 0) ->
  emptyCheckThreshold config <= consecutiveEmptyChecks s3 + 1 ->
  performMonitorCheck gracefulShutdownFn withLockFn s =
    try_catch
      (result <- withLockFn gracefulShutdownFn ;;
       if success result then modify (set_consecutiveEmptyChecks 0) else ret tt)
      (fun _ => ret tt) (counted s3).
Proof.
  intros NotDown Up Mark Poll Len Thresh.
  unfold performMonitorCheck.
  unfold bind at 1; unfold get at 1.
  rewrite (ServerState_eqb_neq NotDown).
  unfold try_catch at 1; unfold bind at 1; rewrite Up.
  cbn [negb]; cbv beta iota.
  unfold get at 1; cbv beta iota.
  unfold bind at 1.
  unfold bind at 1; rewrite Mark.
  unfold bind at 1; rewrite Poll.
  unfold bind at 1; unfold lift at 1; rewrite Len.
  cbn [strict_eq_zero Z.eqb]; cbv beta iota.
  unfold bind at 1; unfold modify at 1.
  unfold bind at 1; unfold get at 1.
  fold (counted s3).
  replace (emptyCheckThreshold config <=? consecutiveEmptyChecks (counted s3)) with true
    by (symmetry; apply Z.leb_le; simpl; exact Thresh).
  unfold try_catch.
  destruct (bind _ _ (counted s3)) as [[[[]|e]|] s5]; reflexivity.
Qed.

(** C4.  A tick that finds the server up with no players, counts one more
    empty check and thereby reaches the threshold attempts the shutdown under
    the lock, whatever shutdown function and lock it was given.  When the
    attempt resolves with success the tick itself sets the counter to zero,
    and changes nothing else of what the attempt left.  When the attempt
    resolves without success, or throws as the lock does when it is held, the
    tick ends in the state the attempt left: the counter is not reset and not
    counted further.  With the lock and the shutdown of [index.js]: a held
    lock ends the tick right after the count, with nothing more sent and the
    counter at the value just counted; an attempt without success leaves the
    counter at the value just counted; a successful one leaves it at zero. *)
Theorem performMonitorCheck_at_threshold :
  forall (gracefulShutdownFn : M ShutdownOutcome)
         (withLockFn : M ShutdownOutcome -> M ShutdownOutcome)
         (s s1 s2 s3 : State) (players : JsVal),
  serverState s <> KNOWN_DOWN ->
  isUp s = (Ret true, s1) ->
  (if negb (ServerState_eqb (serverState s1) KNOWN_UP) then handleServerUp else ret tt) s1 =
    (Ret tt, s2) ->
  getPlayers s2 = (Ret players, s3) ->
  get_prop players "length" = Normal (VNum 0) ->
  emptyCheckThreshold config <= consecutiveEmptyChecks s3 + 1 ->
  (forall (o : ShutdownOutcome) (s4 : State),
   withLockFn gracefulShutdownFn (counted s3) = (Ret o, s4) ->
   (success o = true ->
    performMonitorCheck gracefulShutdownFn withLockFn s =
      (Ret tt, set_consecutiveEmptyChecks 0 s4)) /\
   (success o = false ->
    performMonitorCheck gracefulShutdownFn withLockFn s = (Ret tt, s4))) /\
  (forall (e : JsError) (s4 : State),
   withLockFn gracefulShutdownFn (counted s3) = (Thr e, s4) ->
   performMonitorCheck gracefulShutdownFn withLockFn s = (Ret tt, s4)) /\
  (forall fuel : nat,
   let tick := performMonitorCheck (gracefulShutdown fuel) (@withLock ShutdownOutcome) s in
   (busy s = true ->
    tick = (Ret tt, counted s3) /\
    consecutiveEmptyChecks (counted s3) = consecutiveEmptyChecks s3 + 1 /\
    trace (counted s3) = trace s3) /\
   (forall (o : ShutdownOutcome) (s4 : State),
    withLock (gracefulShutdown fuel) (counted s3) = (Ret o, s4) ->
    (success o = true ->
     exists s5, tick = (Ret tt, s5) /\ consecutiveEmptyChecks s5 = 0) /\
    (success o = false ->
     exists s5, tick = (Ret tt, s5) /\
       consecutiveEmptyChecks s5 = consecutiveEmptyChecks s3 + 1))).
Proof.
  intros gracefulShutdownFn withLockFn s s1 s2 s3 players NotDown Up Mark Poll Len Thresh.
  pose proof (@performMonitorCheck_reaches_attempt gracefulShutdownFn withLockFn
                s s1 s2 s3 players NotDown Up Mark Poll Len Thresh) as Tick.
  split; [|split].
  - intros o s4 Attempt; split; intros Outcome;
      rewrite Tick; unfold try_catch, bind; rewrite Attempt, Outcome; reflexivity.
  - intros e s4 Attempt.
    rewrite Tick; unfold try_catch, bind; rewrite Attempt; reflexivity.
  - intros fuel tick.
    pose proof (@performMonitorCheck_reaches_attempt (gracefulShutdown fuel)
                  (@withLock ShutdownOutcome) s s1 s2 s3 players
                  NotDown Up Mark Poll Len Thresh) as Wired.
    fold tick in Wired.
    split.
    + intros Held.
      assert (B3 : busy s3 = true).
      { destruct (isUp_spec s) as (b & x & E & R); rewrite Up in E; inversion E; subst.
        apply remote_only_same_bot in R; destruct R as (R & _).
        apply (@setServerUp_busy x s2 (Ret tt)) in Mark.
        destruct (getPlayers_spec s2) as (c & y & E1 & R1); rewrite Poll in E1.
        inversion E1; subst.
        apply remote_only_same_bot in R1; destruct R1 as (R1 & _).
        congruence. }
      split; [|split; reflexivity].
      rewrite Wired; unfold withLock, try_catch; unfold bind, get, throw.
      cbn [busy counted set_consecutiveEmptyChecks]; rewrite B3; reflexivity.
    + intros o s4 Attempt; split; intros Outcome.
      * exists (set_consecutiveEmptyChecks 0 s4); split; [|reflexivity].
        rewrite Wired; unfold try_catch, bind; rewrite Attempt, Outcome; reflexivity.
      * exists s4; split.
        -- rewrite Wired; unfold try_catch, bind; rewrite Attempt, Outcome; reflexivity.
        -- rewrite (withLock_unsuccessful_counter _ _ Attempt Outcome); reflexivity.
Qed.

(** *** Polling loops end *)

Lemma waitFor_loop_isUp_completes (intervalMs until : Z) (fuel : nat) :
  forall s : State,
  until - now s < Z.of_nat fuel ->
  exists b s1, waitFor_loop fuel isUp until intervalMs s = (Ret b, s1).
Proof.
  induction fuel as [|fuel IH]; intros s Budget; simpl.
  - replace (now s <? until) with false by (symmetry; apply Z.ltb_ge; lia); eauto.
  - destruct (now s <? until) eqn:Before; [|eauto].
    unfold bind, try_catch, ret.
    destruct (isUp_spec s) as (b & s2 & E & _ & _ & Clock); rewrite E.
    destruct b; [eauto|].
    destruct (sleep_spec intervalMs s2) as (s3 & E3 & _ & Later); rewrite E3.
    apply IH; lia.
Qed.

Lemma waitForShutdown_loop_completes (intervalMs until : Z) (fuel : nat) :
  forall s : State,
  until - now s < Z.of_nat fuel ->
  exists b s1, waitForShutdown_loop fuel until intervalMs s = (Ret b, s1).
Proof.
  induction fuel as [|fuel IH]; intros s Budget; simpl.
  - replace (now s <? until) with false by (symmetry; apply Z.ltb_ge; lia); eauto.
  - destruct (now s <? until) eqn:Before; [|eauto].
    unfold bind, try_catch, ret.
    destruct (isUp_spec s) as (b & s2 & E & _ & _ & Clock); rewrite E.
    destruct b; simpl; [|eauto].
    destruct (sleep_spec intervalMs s2) as (s3 & E3 & _ & Later); rewrite E3.
    apply IH; lia.
Qed.

(** With a budget of iterations above the timeout in milliseconds the
    startup poll always ends, with [true] or [false]. *)
Lemma waitFor_isUp_completes (fuel : nat) (timeoutMs intervalMs : Z) (s : State) :
  timeoutMs < Z.of_nat fuel ->
  exists b s1, waitFor fuel isUp timeoutMs intervalMs s = (Ret b, s1).
Proof.
  intros Budget; unfold waitFor, bind, get.
  apply waitFor_loop_isUp_completes; lia.
Qed.

(** With such a budget the shutdown protocol always ends, with an outcome or
    a thrown error. *)
Lemma gracefulShutdown_completes (fuel : nat) (s : State) :
  startTimeoutMs config < Z.of_nat fuel ->
  exists c s1, gracefulShutdown fuel s = (Some c, s1).
Proof.
  intros Budget; unfold gracefulShutdown, bind.
  destruct (isUp_spec s) as (b & s2 & E & _); rewrite E.
  destruct b; simpl; [|unfold ret; eauto].
  destruct (getPlayers_spec s2) as (c & s3 & E3 & _); rewrite E3.
  destruct c as [players|e]; [|eauto].
  destruct (players_online_pure players s3) as (c & E4); rewrite E4.
  destruct c as [[n|]|e]; unfold ret; eauto.
  unfold try_catch, saveWorld, shutdown, waitForShutdown, bind, get, ret.
  destruct (apiPost_spec "/save" (VObj []) s3) as (c & s4 & E5 & _); rewrite E5.
  destruct c as [saved|e]; [|eauto].
  destruct (sleep_spec (saveWorldDelayMs config) s4) as (s5 & E6 & _); rewrite E6.
  destruct (getPlayers_spec s5) as (c & s6 & E7 & _); rewrite E7.
  destruct c as [players2|e]; [|eauto].
  destruct (players_online_pure players2 s6) as (c & E8); rewrite E8.
  destruct c as [[n|]|e]; eauto.
  match goal with
  | |- context [apiPost ?p ?b s6] =>
      destruct (apiPost_spec p b s6) as (c & s7 & E9 & _); rewrite E9
  end.
  destruct c as [stopped|e]; [|eauto].
  destruct (@waitForShutdown_loop_completes (pollIntervalMs config)
              (now s7 + startTimeoutMs config) fuel s7) as (down & s8 & E10); [lia|].
  rewrite E10.
  destruct down; simpl; [|eauto].
  destruct (setServerDown_spec s8) as (s9 & E11); rewrite E11; eauto.
Qed.

(** *** Startup timeout *)

(** C6, as amended.  When the server is down, the launch goes through and
    the liveness polling ends without success at the start timeout,
    [startServer] throws: it rejects with an [Error] whose message is the
    sanitized text of 'Server did not come up in time', and so resolves with
    no result object, neither [{started: true}] nor any other. *)
Theorem startServer_timeout_throws :
  forall (fuel : nat) (s s1 s2 s3 : State),
  isUp s = (Ret false, s1) ->
  launchConfigured s1 = (Ret tt, s2) ->
  waitFor fuel isUp (startTimeoutMs config) (pollIntervalMs config) s2 = (Ret false, s3) ->
  startServer fuel s =
    (Thr (mkError "Error" (sanitize_text host "Server did not come up in time")), s3) /\
  (forall (result : StartResult) (s4 : State), startServer fuel s <> (Ret result, s4)).
Proof.
  intros fuel s s1 s2 s3 Down Launch Poll.
  assert (R : startServer fuel s =
    (Thr (mkError "Error" (sanitize_text host "Server did not come up in time")), s3)).
  { unfold startServer, try_catch, bind; rewrite Down; simpl.
    rewrite Launch, Poll; reflexivity. }
  split; [exact R|].
  intros result s4 C; rewrite R in C; discriminate.
Qed.

(** *** The lock when nothing interleaves *)

(** Run without interruption, [withLock] throws the busy error when the flag
    is set and does nothing else; otherwise it runs the action and clears the
    flag, whether the action returned or threw. *)
Lemma withLock_sequential {A : Type} (fn : M A) (s : State) :
  (busy s = true -> withLock fn s = (Thr busyError, s)) /\
  (forall (c : Completion A) (s1 : State),
   busy s = false -> fn (set_busy true s) = (Some c, s1) ->
   withLock fn s = (Some c, set_busy false s1) /\
   busy (snd (withLock fn s)) = false).
Proof.
  unfold withLock, bind, get, modify, throw, try_finally; split.
  - intros B; rewrite B; reflexivity.
  - intros c s1 B R; rewrite B, R; destruct c; split; reflexivity.
Qed.

(* ------------------------------------------------------------------ *)
(** *** Launching and waiting *)

(** X8.  [runSecurePowerShell] spawns nothing for a command outside its
    whitelist: it throws with the state untouched.  For a whitelisted
    command it spawns [powershell.exe] exactly once, and it resolves only
    when that process closed with exit code 0. *)
Theorem runSecurePowerShell_whitelist :
  forall (command : string) (args : list string) (s : State),
  (existsb (String.eqb command) allowedCommands = false ->
   runSecurePowerShell command args s =
     (Thr (newError "PowerShell command not allowed"), s)) /\
  (existsb (String.eqb command) allowedCommands = true ->
   exists c s1,
     runSecurePowerShell command args s = (Some c, s1) /\
     count_events is_spawn (trace s1) = S (count_events is_spawn (trace s)) /\
     (exists argv, trace s1 = EvSpawn "powershell.exe" argv :: trace s) /\
     same_bot s s1 /\
     (c = Normal tt ->
      exists argv stdout stderr ms w,
        spawn_powershell host argv (world s) = (Closed 0 stdout stderr, ms, w))).
Proof.
  intros command args s; unfold runSecurePowerShell; split; intros A; rewrite A; simpl.
  - reflexivity.
  - destruct (spawn_powershell host _ (world s)) as [[outcome ms] w] eqn:Sp.
    destruct outcome as [code stdout stderr|e|e].
    + destruct (code =? 0) eqn:C.
      * apply Z.eqb_eq in C; subst.
        eexists; eexists; split; [reflexivity|].
        unfold same_bot; simpl; repeat split; eauto 10.
      * eexists; eexists; split; [reflexivity|].
        unfold same_bot; simpl; repeat split; eauto; discriminate.
    + eexists; eexists; split; [reflexivity|].
      unfold same_bot; simpl; repeat split; eauto; discriminate.
    + eexists; eexists; split; [reflexivity|].
      unfold same_bot; simpl; repeat split; eauto; discriminate.
Qed.

Lemma waitFor_loop_cases (fn : M bool) (until intervalMs : Z) (fuel : nat) :
  forall (s s1 : State) (r : option (Completion bool)),
  waitFor_loop fuel fn until intervalMs s = (r, s1) ->
  (forall e, r <> Thr e) /\
  (r = Ret false -> until <= now s1) /\
  (r = Ret true -> exists s0, fn s0 = (Ret true, s1) /\ now s0 < until).
Proof.
  induction fuel as [|fuel IH]; intros s s1 r H; simpl in H.
  - destruct (now s <? until) eqn:B; inversion H; subst.
    + repeat split; intros; discriminate.
    + apply Z.ltb_ge in B.
      split; [intros; discriminate|split; [intros _; exact B|discriminate]].
  - destruct (now s <? until) eqn:B.
    + apply Z.ltb_lt in B.
      unfold bind, try_catch, ret in H.
      destruct (fn s) as [[[[|]|e]|] s2] eqn:F.
      * inversion H; subst.
        split; [intros; discriminate|split; [discriminate|intros _; eauto]].
      * destruct (sleep_spec intervalMs s2) as (s3 & E3 & _); rewrite E3 in H.
        apply IH in H; exact H.
      * destruct (sleep_spec intervalMs s2) as (s3 & E3 & _); rewrite E3 in H.
        apply IH in H; exact H.
      * inversion H; subst.
        repeat split; intros; discriminate.
    + apply Z.ltb_ge in B; inversion H; subst.
      split; [intros; discriminate|split; [intros _; exact B|discriminate]].
Qed.

(** X9.  [waitFor] never throws, whatever the polled function does: its
    errors are swallowed and polling goes on.  It gives [false] only once
    the clock has reached the deadline, and [true] only as the answer of a
    poll that was started before the deadline.  With a timeout that is not
    positive it gives [false] at once, without polling. *)
Theorem waitFor_outcomes :
  forall (fuel : nat) (fn : M bool) (timeoutMs intervalMs : Z)
         (s s1 : State) (r : option (Completion bool)),
  waitFor fuel fn timeoutMs intervalMs s = (r, s1) ->
  (forall e, r <> Thr e) /\
  (r = Ret false -> now s + timeoutMs <= now s1) /\
  (r = Ret true -> exists s0, fn s0 = (Ret true, s1) /\ now s0 < now s + timeoutMs) /\
  (timeoutMs <= 0 -> r = Ret false /\ s1 = s).
Proof.
  intros fuel fn timeoutMs intervalMs s s1 r H.
  unfold waitFor, bind, get in H.
  destruct (waitFor_loop_cases _ _ _ _ _ H) as (A & B & C).
  split; [exact A|split; [exact B|split; [exact C|]]].
  intros T.
  destruct fuel; simpl in H;
    replace (now s <? now s + timeoutMs) with false in H
      by (symmetry; apply Z.ltb_ge; lia);
    inversion H; auto.
Qed.

(** X10.  What [startServer] can resolve with.  Either the first liveness
    poll found the server up, and the result is
    [{started: false, reason: 'already_running'}] with nothing launched; or
    the server was down, the launch went through, and a liveness poll
    started before the start timeout answered up, and the result is
    [{started: true}].  Every throw comes after a first liveness poll that
    found the server down, and carries the name of its cause and the
    sanitized message of its cause, the cause being the error the launch
    threw or, after a launch that went through and a wait that gave
    [false], the error 'Server did not come up in time'. *)
Theorem startServer_outcomes :
  forall (fuel : nat) (s s1 : State),
  (forall result, startServer fuel s = (Ret result, s1) ->
     (result = mkStartResult false (Some "already_running") /\
      isUp s = (Ret true, s1)) \/
     (result = mkStartResult true None /\
      exists s2 s3 s4,
        isUp s = (Ret false, s2) /\
        launchConfigured s2 = (Ret tt, s3) /\
        isUp s4 = (Ret true, s1) /\
        now s4 < now s3 + startTimeoutMs config)) /\
  (forall e, startServer fuel s = (Thr e, s1) ->
     exists cause s2,
       isUp s = (Ret false, s2) /\
       e = mkError (err_name cause) (sanitize_text host (err_message cause)) /\
       (launchConfigured s2 = (Thr cause, s1) \/
        (cause = newError "Server did not come up in time" /\
         exists s3,
           launchConfigured s2 = (Ret tt, s3) /\
           waitFor fuel isUp (startTimeoutMs config) (pollIntervalMs config) s3 =
             (Ret false, s1)))).
Proof.
  intros fuel s s1; split.
  - intros result H; unfold startServer, try_catch, bind in H.
    destruct (isUp_spec s) as (b & s2 & E & _); rewrite E in H.
    destruct b; simpl in H.
    + inversion H; subst; left; auto.
    + right.
      destruct (launchConfigured s2) as [[[[]|e]|] s3] eqn:L; try discriminate.
      destruct (waitFor fuel isUp (startTimeoutMs config) (pollIntervalMs config) s3)
        as [[[ok|e]|] s4] eqn:Wt; try discriminate.
      destruct ok; simpl in H; [|discriminate].
      inversion H; subst.
      unfold waitFor, bind, get in Wt.
      destruct (waitFor_loop_cases _ _ _ _ _ Wt) as (_ & _ & T).
      destruct (T eq_refl) as (s0 & P & Before).
      split; [reflexivity|eauto 10].
  - intros e H; unfold startServer, try_catch, bind in H.
    destruct (isUp_spec s) as (b & s2 & E & _); rewrite E in H.
    destruct b; simpl in H; [discriminate|].
    destruct (launchConfigured s2) as [[[[]|cause]|] s3] eqn:L; try discriminate.
    + destruct (waitFor fuel isUp (startTimeoutMs config) (pollIntervalMs config) s3)
        as [[[ok|e1]|] s4] eqn:Wt; try discriminate.
      * destruct ok; simpl in H; [discriminate|].
        unfold throw in H; inversion H; subst.
        exists (newError "Server did not come up in time"), s2.
        split; [exact E|split; [reflexivity|right]].
        split; [reflexivity|exists s3; split; [exact L|exact Wt]].
      * exfalso.
        unfold waitFor, bind, get in Wt.
        destruct (waitFor_loop_cases _ _ _ _ _ Wt) as (Never & _).
        exact (Never e1 eq_refl).
    + unfold throw in H; inversion H; subst.
      exists cause, s2; split; [exact E|split; [reflexivity|left; exact L]].
Qed.

(* ------------------------------------------------------------------ *)
(** *** More on the shutdown protocol *)

Lemma quiet_extension_refl (s : State) : quiet_extension s s.
Proof. exists []; split; reflexivity. Qed.

Lemma quiet_extension_trans (s s1 s2 : State) :
  quiet_extension s s1 -> quiet_extension s1 s2 -> quiet_extension s s2.
Proof.
  intros (a & Ta & Qa) (b & Tb & Qb); exists (b ++ a)%list; split.
  - rewrite Tb, Ta, app_assoc; reflexivity.
  - rewrite forallb_app, Qa, Qb; reflexivity.
Qed.

Lemma isUp_quiet (s s1 : State) r :
  isUp s = (r, s1) -> quiet_extension s s1.
Proof.
  intros H; destruct (isUp_spec s) as (b & s2 & E & T & _).
  rewrite H in E; inversion E; subst.
  exists [info_request]; split; [exact T|reflexivity].
Qed.

Lemma updateDiscordStatus_quiet (s : State) :
  quiet_extension s (snd (updateDiscordStatus s)).
Proof.
  unfold quiet_extension, updateDiscordStatus, getInfo, apiGet, fetch, setActivity,
    js_template, bind, modify, get, try_catch, ret, lift, throw.
  simpl.
  repeat (break_match; simpl in *; try discriminate);
    repeat match goal with
           | H : (_, _) = (_, _) |- _ => inversion H; clear H; subst
           end;
    simpl;
    first
      [ exists [EvStatusUpdate]; split; reflexivity
      | eexists [_; EvStatusUpdate]; split; reflexivity
      | eexists [_; _; EvStatusUpdate]; split; reflexivity ].
Qed.

Lemma setServerDown_quiet (s s1 : State) r :
  setServerDown s = (r, s1) -> quiet_extension s s1 /\ serverState s1 = KNOWN_DOWN.
Proof.
  unfold setServerDown, handleServerDown, bind, get, modify; intros H.
  destruct (ServerState_eqb (serverState s) KNOWN_DOWN) eqn:E; simpl in H.
  - inversion H; subst; split; [apply quiet_extension_refl|].
    apply ServerState_eqb_eq; exact E.
  - rewrite E in H; simpl in H.
    pose proof (updateDiscordStatus_quiet
                  (set_consecutiveEmptyChecks 0 (set_serverState KNOWN_DOWN s))) as Q.
    destruct (updateDiscordStatus_spec
                (set_consecutiveEmptyChecks 0 (set_serverState KNOWN_DOWN s)))
      as (s2 & R & P).
    rewrite R in H, Q; inversion H; subst; simpl in Q.
    split; [exact Q|].
    destruct P as (_ & P & _); exact P.
Qed.

Lemma waitForShutdown_loop_quiet (fuel : nat) (until intervalMs : Z) :
  forall (s s1 : State) r,
  waitForShutdown_loop fuel until intervalMs s = (r, s1) -> quiet_extension s s1.
Proof.
  induction fuel as [|fuel IH]; intros s s1 r H; simpl in H.
  - destruct (now s <? until); inversion H; subst; apply quiet_extension_refl.
  - destruct (now s <? until); [|inversion H; subst; apply quiet_extension_refl].
    unfold bind, try_catch, ret in H.
    destruct (isUp s) as [[[up|e]|] s2] eqn:E.
    + apply isUp_quiet in E.
      destruct up; simpl in H.
      * destruct (sleep_spec intervalMs s2) as (s3 & E3 & (T3 & _) & _); rewrite E3 in H.
        apply IH in H.
        eapply quiet_extension_trans; [exact E|].
        eapply quiet_extension_trans; [|exact H].
        exists []; split; [exact T3|reflexivity].
      * inversion H; subst; exact E.
    + destruct (isUp_spec s) as (b & x & E1 & _); congruence.
    + destruct (isUp_spec s) as (b & x & E1 & _); congruence.
Qed.

(** X11.  A stop that reports success did everything in order: it polled
    liveness and players, saved the world, polled players again, requested
    the shutdown, and from then on sent no further [POST] and spawned
    nothing (liveness polls and the status update only read); and it left
    the tracked state at [KNOWN_DOWN]. *)
Theorem gracefulShutdown_success_order :
  forall (fuel : nat) (s s1 : State) (o : ShutdownOutcome),
  gracefulShutdown fuel s = (Ret o, s1) ->
  success o = true ->
  serverState s1 = KNOWN_DOWN /\
  message o = "Graceful server stop completed." /\
  exists after,
    trace s1 =
      (after ++ [shutdown_request; players_request; save_request; players_request;
                 info_request] ++ trace s)%list /\
    forallb quiet after = true.
Proof.
  intros fuel s s1 o H F; unfold gracefulShutdown, bind in H.
  destruct (isUp_spec s) as (b & s2 & E & T2 & _); rewrite E in H.
  destruct b; simpl in H; [|inversion H; subst; discriminate].
  destruct (getPlayers_spec s2) as (c & s3 & E3 & T3 & _); rewrite E3 in H.
  destruct c as [players|e]; [|discriminate].
  destruct (players_online_pure players s3) as (c & E4); rewrite E4 in H.
  destruct c as [[n|]|e]; [inversion H; subst; discriminate| |discriminate].
  unfold try_catch, saveWorld, shutdown, waitForShutdown, bind, get, ret in H.
  destruct (apiPost_spec "/save" (VObj []) s3) as (c & s4 & E5 & T4 & _);
    rewrite E5 in H.
  destruct c as [saved|e]; [|inversion H; subst; discriminate].
  destruct (sleep_spec (saveWorldDelayMs config) s4) as (s5 & E6 & (T5 & _) & _);
    rewrite E6 in H.
  destruct (getPlayers_spec s5) as (c & s6 & E7 & T6 & _); rewrite E7 in H.
  destruct c as [players2|e]; [|inversion H; subst; discriminate].
  destruct (players_online_pure players2 s6) as (c & E8); rewrite E8 in H.
  destruct c as [[n|]|e]; try (inversion H; subst; discriminate).
  match type of H with
  | context [apiPost ?p ?b s6] =>
      destruct (apiPost_spec p b s6) as (c & s7 & E9 & T7 & _); rewrite E9 in H
  end.
  destruct c as [stopped|e]; [|inversion H; subst; discriminate].
  destruct (waitForShutdown_loop fuel (now s7 + startTimeoutMs config)
              (pollIntervalMs config) s7) as [[[down|e]|] s8] eqn:E10;
    try discriminate; [|inversion H; subst; discriminate].
  apply waitForShutdown_loop_quiet in E10.
  destruct down; simpl in H; [|inversion H; subst; discriminate].
  destruct (setServerDown s8) as [[[[]|e]|] s9] eqn:E11;
    try discriminate; try (inversion H; subst; discriminate).
  apply setServerDown_quiet in E11; destruct E11 as (Q9 & D9).
  inversion H; subst.
  split; [exact D9|split; [reflexivity|]].
  destruct (quiet_extension_trans E10 Q9) as (after & Ta & Qa).
  exists after; split; [|exact Qa].
  rewrite Ta, T7, T6, T5, T4, T3, T2; reflexivity.
Qed.

(** X12.  Two gates of the stop.  A server that does not answer the liveness
    poll is reported as already down, and nothing but that poll was sent.
    A save that fails aborts the stop with the sanitized failure: the
    requests sent are the liveness poll, the player poll and the save, and no
    shutdown is requested. *)
Theorem gracefulShutdown_gates :
  forall (fuel : nat) (s s1 : State),
  (isUp s = (Ret false, s1) ->
   gracefulShutdown fuel s =
     (Ret (mkOutcome false "Server already appears **DOWN**."), s1) /\
   trace s1 = info_request :: trace s) /\
  (forall (s2 s3 : State) (players : JsVal) (e : JsError),
   isUp s = (Ret true, s1) ->
   getPlayers s1 = (Ret players, s2) ->
   players_online players s2 = (Ret None, s2) ->
   saveWorld s2 = (Thr e, s3) ->
   gracefulShutdown fuel s =
     (Ret (mkOutcome false ("Stop failed: `" ++ sanitize_text host (err_message e) ++ "`")),
      s3) /\
   trace s3 = save_request :: players_request :: info_request :: trace s /\
   same_bot s s3).
Proof.
  intros fuel s s1; split.
  - intros Down; split.
    + unfold gracefulShutdown, bind; rewrite Down; reflexivity.
    + destruct (isUp_spec s) as (b & x & E & T & _); rewrite Down in E.
      inversion E; subst; exact T.
  - intros s2 s3 players e Up Poll None1 Save.
    destruct (isUp_spec s) as (b & x & E & (T1 & B1 & _)); rewrite Up in E.
    inversion E; subst.
    destruct (getPlayers_spec x) as (c & y & E2 & (T2 & B2 & _)); rewrite Poll in E2.
    inversion E2; subst.
    destruct (apiPost_spec "/save" (VObj []) y) as (c & z & E3 & (T3 & B3 & _)).
    unfold saveWorld in Save; rewrite Save in E3; inversion E3; subst.
    split; [|split].
    + unfold gracefulShutdown, bind; rewrite Up; simpl; rewrite Poll, None1.
      unfold try_catch, saveWorld, bind; rewrite Save; reflexivity.
    + rewrite T3, T2, T1; reflexivity.
    + eauto using same_bot_trans.
Qed.

(* ------------------------------------------------------------------ *)
(** *** The other branches of the monitor tick *)

(** Run the tick up to the reading of the player count. *)
Ltac tick_to_count NotDown Up Mark Poll Len :=
  unfold performMonitorCheck;
  unfold bind at 1; unfold get at 1;
  rewrite (ServerState_eqb_neq NotDown);
  unfold try_catch at 1; unfold bind at 1; rewrite Up;
  cbn [negb]; cbv beta iota;
  unfold get at 1; cbv beta iota;
  unfold bind at 1;
  unfold bind at 1; rewrite Mark;
  unfold bind at 1; rewrite Poll;
  unfold bind at 1; unfold lift at 1; rewrite Len.

(** X13.  A tick that finds the server up with no players and stays below
    the threshold only counts: the counter goes up by one, the shutdown
    function and the lock are not called, and nothing is sent after the
    player poll. *)
Theorem performMonitorCheck_below_threshold :
  forall (gracefulShutdownFn : M ShutdownOutcome)
         (withLockFn : M ShutdownOutcome -> M ShutdownOutcome)
         (s s1 s2 s3 : State) (players : JsVal),
  serverState s <> KNOWN_DOWN ->
  isUp s = (Ret true, s1) ->
  (if negb (ServerState_eqb (serverState s1) KNOWN_UP) then handleServerUp else ret tt) s1 =
    (Ret tt, s2) ->
  getPlayers s2 = (Ret players, s3) ->
  get_prop players "length" = Normal (VNum 0) ->
  consecutiveEmptyChecks s3 + 1 < emptyCheckThreshold config ->
  performMonitorCheck gracefulShutdownFn withLockFn s = (Ret tt, counted s3).
Proof.
  intros gs wl s s1 s2 s3 players NotDown Up Mark Poll Len Below.
  tick_to_count NotDown Up Mark Poll Len.
  cbn [strict_eq_zero Z.eqb]; cbv beta iota.
  unfold bind at 1; unfold modify at 1.
  unfold bind at 1; unfold get at 1.
  fold (counted s3).
  replace (emptyCheckThreshold config <=? consecutiveEmptyChecks (counted s3)) with false
    by (symmetry; apply Z.leb_gt; simpl; exact Below).
  reflexivity.
Qed.

(** X14.  A tick that finds players resets the counter: with a player count
    that is a number other than zero the tick ends with the counter at zero
    and nothing sent after the player poll.  A player poll whose result has
    no [length] at all counts as occupied too. *)
Theorem performMonitorCheck_players_present :
  forall (gracefulShutdownFn : M ShutdownOutcome)
         (withLockFn : M ShutdownOutcome -> M ShutdownOutcome)
         (s s1 s2 s3 : State) (players count : JsVal),
  serverState s <> KNOWN_DOWN ->
  isUp s = (Ret true, s1) ->
  (if negb (ServerState_eqb (serverState s1) KNOWN_UP) then handleServerUp else ret tt) s1 =
    (Ret tt, s2) ->
  getPlayers s2 = (Ret players, s3) ->
  get_prop players "length" = Normal count ->
  (count = VUndefined \/
   exists n, count = VNum n /\ n <> 0 /\ Z.abs n <= MAX_SAFE_INTEGER) ->
  0 <= consecutiveEmptyChecks s3 ->
  exists s4,
    performMonitorCheck gracefulShutdownFn withLockFn s = (Ret tt, s4) /\
    consecutiveEmptyChecks s4 = 0 /\
    trace s4 = trace s3 /\
    serverState s4 = serverState s3.
Proof.
  intros gs wl s s1 s2 s3 players count NotDown Up Mark Poll Len Shape Pos.
  assert (NZ : strict_eq_zero count = false).
  { destruct Shape as [->|(n & -> & N & _)]; [reflexivity|].
    simpl; apply Z.eqb_neq; exact N. }
  assert (R : exists text, js_template count s3 = (Ret text, s3)).
  { destruct Shape as [->|(n & -> & _ & Safe)]; simpl; unfold ret; eauto.
    replace (Z.abs n <=? MAX_SAFE_INTEGER) with true
      by (symmetry; apply Z.leb_le; exact Safe).
    eauto. }
  destruct R as (text & R).
  tick_to_count NotDown Up Mark Poll Len.
  rewrite NZ; cbv beta iota.
  unfold bind at 1; unfold get at 1.
  destruct (0 <? consecutiveEmptyChecks s3) eqn:C.
  - unfold bind at 1; rewrite R; unfold modify.
    eexists; split; [reflexivity|]; simpl; auto.
  - apply Z.ltb_ge in C.
    exists s3; split; [reflexivity|]; repeat split; lia.
Qed.

(** X15.  A tick that gets no answer to the liveness poll, from a state other
    than [KNOWN_DOWN], moves the tracker to [KNOWN_DOWN] with the counter at
    zero and one status update, and polls no players.  A tick whose player
    poll throws ends there without touching the counter or the state. *)
Theorem performMonitorCheck_down_or_error :
  forall (gracefulShutdownFn : M ShutdownOutcome)
         (withLockFn : M ShutdownOutcome -> M ShutdownOutcome)
         (s s1 : State),
  serverState s <> KNOWN_DOWN ->
  (isUp s = (Ret false, s1) ->
   exists s2,
     performMonitorCheck gracefulShutdownFn withLockFn s = (Ret tt, s2) /\
     transitioned KNOWN_DOWN s1 s2 /\
     count_events is_request (trace s2) = S (count_events is_request (trace s))) /\
  (forall (s2 s3 : State) (e : JsError),
   isUp s = (Ret true, s1) ->
   (if negb (ServerState_eqb (serverState s1) KNOWN_UP) then handleServerUp else ret tt) s1 =
     (Ret tt, s2) ->
   getPlayers s2 = (Thr e, s3) ->
   performMonitorCheck gracefulShutdownFn withLockFn s = (Ret tt, s3) /\
   consecutiveEmptyChecks s3 = consecutiveEmptyChecks s2 /\
   serverState s3 = serverState s2).
Proof.
  intros gs wl s s1 NotDown; split.
  - intros Down.
    destruct (isUp_spec s) as (b & x & E & T & B & _); rewrite Down in E.
    inversion E; subst.
    assert (NotDown1 : serverState x <> KNOWN_DOWN).
    { destruct B as (_ & St & _); congruence. }
    destruct (@handleServerDown_spec x NotDown1) as (s2 & R & Tr).
    pose proof (updateDiscordStatus_quiet
                  (set_consecutiveEmptyChecks 0 (set_serverState KNOWN_DOWN x))) as Q.
    exists s2; split; [|split; [exact Tr|]].
    + unfold performMonitorCheck.
      unfold bind at 1; unfold get at 1.
      rewrite (ServerState_eqb_neq NotDown).
      unfold try_catch at 1; unfold bind at 1; rewrite Down.
      cbn [negb]; cbv beta iota.
      unfold bind at 1; unfold get at 1.
      rewrite (ServerState_eqb_neq NotDown1); cbn [negb].
      rewrite R; reflexivity.
    + unfold handleServerDown, bind, get, modify in R.
      rewrite (ServerState_eqb_neq NotDown1) in R; simpl in R.
      unfold updateDiscordStatus, bind, modify, get, try_catch, ret in R.
      simpl in R.
      destruct (negb (client_ready (discordClient x))) eqn:Cl.
      * inversion R; subst; unfold count_events; simpl; rewrite T; reflexivity.
      * unfold js_template, setActivity, lift, ret in R.
        repeat match type of R with
               | context [match ?y with _ => _ end] =>
                   lazymatch y with
                   | context [match _ with _ => _ end] => fail
                   | _ => destruct y eqn:?
                   end
               end;
          simpl in R; inversion R; subst; unfold count_events; simpl;
          rewrite T; reflexivity.
  - intros s2 s3 e Up Mark Poll.
    destruct (getPlayers_spec s2) as (c & y & E1 & _ & B & _); rewrite Poll in E1.
    inversion E1; subst.
    split; [|destruct B as (_ & St & Cn & _); auto].
    unfold performMonitorCheck.
    unfold bind at 1; unfold get at 1.
    rewrite (ServerState_eqb_neq NotDown).
    unfold try_catch at 1; unfold bind at 1; rewrite Up.
    cbn [negb]; cbv beta iota.
    unfold get at 1; cbv beta iota.
    unfold bind at 1.
    unfold bind at 1; rewrite Mark.
    unfold bind at 1; rewrite Poll.
    reflexivity.
Qed.

(* ------------------------------------------------------------------ *)
(** *** Reasoning rules for the monad *)

Lemma completes_ret {A} (a : A) : completes (ret a).
Proof. intros s; unfold ret; eauto. Qed.

Lemma completes_throw {A} (e : JsError) : completes (@throw A e).
Proof. intros s; unfold throw; eauto. Qed.

Lemma completes_lift {A} (c : Completion A) : completes (lift c).
Proof. intros s; unfold lift; eauto. Qed.

Lemma completes_modify (f : State -> State) : completes (modify f).
Proof. intros s; unfold modify; eauto. Qed.

Lemma completes_bind {A B} (m : M A) (k : A -> M B) :
  completes m -> (forall a, completes (k a)) -> completes (bind m k).
Proof.
  intros Hm Hk s; unfold bind.
  destruct (Hm s) as ([a|e] & s1 & E); rewrite E; [apply Hk|eauto].
Qed.

Lemma completes_get_bind {B} (k : State -> M B) :
  (forall a, completes (k a)) -> completes (bind get k).
Proof. intros Hk s; unfold bind, get; apply Hk. Qed.

Lemma completes_try_catch {A} (m : M A) (h : JsError -> M A) :
  completes m -> (forall e, completes (h e)) -> completes (try_catch m h).
Proof.
  intros Hm Hh s; unfold try_catch.
  destruct (Hm s) as ([a|e] & s1 & E); rewrite E; [eauto|apply Hh].
Qed.

Lemma completes_withLock {A} (m : M A) : completes m -> completes (withLock m).
Proof.
  intros Hm s; unfold withLock, bind, get, modify, throw, try_finally.
  destruct (busy s); [eauto|].
  destruct (Hm (set_busy true s)) as (c & s1 & E); rewrite E.
  destruct c; eauto.
Qed.

Lemma hoare_ret {A} (P : State -> Prop) (a : A) : hoare P (ret a) P.
Proof. intros s r s1 H; inversion H; auto. Qed.

Lemma hoare_lift {A} (P : State -> Prop) (c : Completion A) : hoare P (lift c) P.
Proof. intros s r s1 H; inversion H; auto. Qed.

Lemma hoare_modify (P Q : State -> Prop) (f : State -> State) :
  (forall s, P s -> Q (f s)) -> hoare P (modify f) Q.
Proof. intros F s r s1 H; inversion H; auto. Qed.

Lemma hoare_weaken {A} (P P1 Q Q1 : State -> Prop) (m : M A) :
  hoare P1 m Q1 -> (forall s, P s -> P1 s) -> (forall s, Q1 s -> Q s) -> hoare P m Q.
Proof. intros H HP HQ s r s1 E Ps; eapply HQ, H; eauto. Qed.

Lemma hoare_bind {A B} (P R Q : State -> Prop) (m : M A) (k : A -> M B) :
  hoare P m R -> (forall a, hoare R (k a) Q) -> (forall s, R s -> Q s) ->
  hoare P (bind m k) Q.
Proof.
  intros Hm Hk RQ s r s1 E Ps; unfold bind in E.
  destruct (m s) as [[[a|e]|] s2] eqn:Em.
  - eapply Hk; eauto.
  - inversion E; subst; eauto.
  - inversion E; subst; eauto.
Qed.

Lemma hoare_get_bind {B} (P Q : State -> Prop) (k : State -> M B) :
  (forall a, hoare (fun s => P s /\ s = a) (k a) Q) -> hoare P (bind get k) Q.
Proof. intros Hk s r s1 E Ps; unfold bind, get in E; eapply Hk; eauto. Qed.

Lemma hoare_try_catch {A} (P R Q : State -> Prop) (m : M A) (h : JsError -> M A) :
  hoare P m R -> (forall e, hoare R (h e) Q) -> (forall s, R s -> Q s) ->
  hoare P (try_catch m h) Q.
Proof.
  intros Hm Hh RQ s r s1 E Ps; unfold try_catch in E.
  destruct (m s) as [[[a|e]|] s2] eqn:Em.
  - inversion E; subst; eauto.
  - eapply Hh; eauto.
  - inversion E; subst; eauto.
Qed.

Lemma hoare_keeps {A} (P : State -> Prop) (m : M A) :
  tracker_pred P -> keeps_tracker m -> hoare P m P.
Proof. intros TP K s r s1 E Ps; eapply TP; eauto. Qed.

Lemma same_tracker_refl (s : State) : same_tracker s s.
Proof. repeat split. Qed.

Lemma same_tracker_trans (s s1 s2 : State) :
  same_tracker s s1 -> same_tracker s1 s2 -> same_tracker s s2.
Proof.
  unfold same_tracker; intros (a1 & a2 & a3) (b1 & b2 & b3); repeat split; congruence.
Qed.

Lemma same_bot_tracker (s s1 : State) : same_bot s s1 -> same_tracker s s1.
Proof. intros (a & b & c & _); repeat split; assumption. Qed.

Lemma keeps_ret {A} (a : A) : keeps_tracker (ret a).
Proof. intros s r s1 H; inversion H; apply same_tracker_refl. Qed.

Lemma keeps_throw {A} (e : JsError) : keeps_tracker (@throw A e).
Proof. intros s r s1 H; inversion H; apply same_tracker_refl. Qed.

Lemma keeps_lift {A} (c : Completion A) : keeps_tracker (lift c).
Proof. intros s r s1 H; inversion H; apply same_tracker_refl. Qed.

Lemma keeps_bind {A B} (m : M A) (k : A -> M B) :
  keeps_tracker m -> (forall a, keeps_tracker (k a)) -> keeps_tracker (bind m k).
Proof.
  intros Hm Hk s r s1 E; unfold bind in E.
  destruct (m s) as [[[a|e]|] s2] eqn:Em.
  - eapply same_tracker_trans; [eapply Hm; eauto|eapply Hk; eauto].
  - inversion E; subst; eapply Hm; eauto.
  - inversion E; subst; eapply Hm; eauto.
Qed.

Lemma keeps_try_catch {A} (m : M A) (h : JsError -> M A) :
  keeps_tracker m -> (forall e, keeps_tracker (h e)) -> keeps_tracker (try_catch m h).
Proof.
  intros Hm Hh s r s1 E; unfold try_catch in E.
  destruct (m s) as [[[a|e]|] s2] eqn:Em.
  - inversion E; subst; eapply Hm; eauto.
  - eapply same_tracker_trans; [eapply Hm; eauto|eapply Hh; eauto].
  - inversion E; subst; eapply Hm; eauto.
Qed.

Lemma keeps_apiGet (path : string) : keeps_tracker (apiGet path).
Proof.
  intros s r s1 H; destruct (apiGet_spec path s) as (c & s2 & E & R).
  rewrite H in E; inversion E; subst.
  apply same_bot_tracker, (remote_only_same_bot R).
Qed.

Lemma keeps_apiPost (path : string) (body : JsVal) : keeps_tracker (apiPost path body).
Proof.
  intros s r s1 H; destruct (apiPost_spec path body s) as (c & s2 & E & R).
  rewrite H in E; inversion E; subst.
  apply same_bot_tracker, (remote_only_same_bot R).
Qed.

Lemma keeps_isUp : keeps_tracker isUp.
Proof.
  intros s r s1 H; destruct (isUp_spec s) as (c & s2 & E & R).
  rewrite H in E; inversion E; subst.
  apply same_bot_tracker, (remote_only_same_bot R).
Qed.

Lemma keeps_getPlayers : keeps_tracker getPlayers.
Proof.
  intros s r s1 H; destruct (getPlayers_spec s) as (c & s2 & E & R).
  rewrite H in E; inversion E; subst.
  apply same_bot_tracker, (remote_only_same_bot R).
Qed.

Lemma keeps_sleep (ms : Z) : keeps_tracker (sleep ms).
Proof.
  intros s r s1 H; destruct (sleep_spec ms s) as (s2 & E & R & _).
  rewrite H in E; inversion E; subst.
  apply same_bot_tracker, (remote_only_same_bot R).
Qed.

Lemma keeps_js_template (v : JsVal) : keeps_tracker (js_template v).
Proof.
  intros s r s1 H; destruct (js_template_pure v s) as (c & E).
  rewrite H in E; inversion E; subst; apply same_tracker_refl.
Qed.

Lemma keeps_players_online (players : JsVal) : keeps_tracker (players_online players).
Proof.
  intros s r s1 H; destruct (players_online_pure players s) as (c & E).
  rewrite H in E; inversion E; subst; apply same_tracker_refl.
Qed.

Lemma keeps_updateDiscordStatus : keeps_tracker updateDiscordStatus.
Proof.
  intros s r s1 H; destruct (updateDiscordStatus_spec s) as (s2 & E & P).
  rewrite H in E; inversion E; subst.
  destruct P as (a & b & c & _); repeat split; assumption.
Qed.

Lemma keeps_waitForShutdown_loop (fuel : nat) (until intervalMs : Z) :
  keeps_tracker (waitForShutdown_loop fuel until intervalMs).
Proof.
  intros s r s1 H; apply same_bot_tracker, (waitForShutdown_loop_frame _ _ _ _ H).
Qed.

Lemma completes_isUp : completes isUp.
Proof. intros s; destruct (isUp_spec s) as (b & s1 & E & _); eauto. Qed.

Lemma completes_getPlayers : completes getPlayers.
Proof. intros s; destruct (getPlayers_spec s) as (b & s1 & E & _); eauto. Qed.

Lemma completes_js_template (v : JsVal) : completes (js_template v).
Proof. intros s; destruct (js_template_pure v s) as (c & E); eauto. Qed.

Lemma completes_handleServerUp : completes handleServerUp.
Proof.
  intros s; destruct (ServerState_eqb (serverState s) KNOWN_UP) eqn:E.
  - unfold handleServerUp, bind, get; rewrite E; unfold ret; simpl; eauto.
  - destruct (@handleServerUp_spec s) as (s1 & R & _); eauto.
    intros C; apply ServerState_eqb_eq in C; congruence.
Qed.

Lemma completes_handleServerDown : completes handleServerDown.
Proof.
  intros s; destruct (ServerState_eqb (serverState s) KNOWN_DOWN) eqn:E.
  - unfold handleServerDown, bind, get; rewrite E; unfold ret; simpl; eauto.
  - destruct (@handleServerDown_spec s) as (s1 & R & _); eauto.
    intros C; apply ServerState_eqb_eq in C; congruence.
Qed.

Lemma completes_gracefulShutdown (fuel : nat) :
  startTimeoutMs config < Z.of_nat fuel -> completes (gracefulShutdown fuel).
Proof. intros B s; apply gracefulShutdown_completes, B. Qed.

Lemma completes_performMonitorCheck (gs : M ShutdownOutcome)
    (wl : M ShutdownOutcome -> M ShutdownOutcome) :
  completes (wl gs) -> completes (performMonitorCheck gs wl).
Proof.
  intros Hwl; unfold performMonitorCheck.
  apply completes_get_bind; intros s0.
  destruct (ServerState_eqb (serverState s0) KNOWN_DOWN); [apply completes_ret|].
  apply completes_try_catch; [|intros; apply completes_ret].
  apply completes_bind; [apply completes_isUp|intros up].
  destruct up; cbn [negb].
  - apply completes_get_bind; intros s1.
    apply completes_bind.
    { destruct (negb (ServerState_eqb (serverState s1) KNOWN_UP));
        [apply completes_handleServerUp|apply completes_ret]. }
    intros _; apply completes_bind; [apply completes_getPlayers|intros players].
    apply completes_bind; [apply completes_lift|intros count].
    destruct (strict_eq_zero count).
    + apply completes_bind; [apply completes_modify|intros _].
      apply completes_get_bind; intros s3.
      destruct (emptyCheckThreshold config <=? consecutiveEmptyChecks s3);
        [|apply completes_ret].
      apply completes_try_catch; [|intros; apply completes_ret].
      apply completes_bind; [exact Hwl|intros result].
      destruct (success result); [apply completes_modify|apply completes_ret].
    + apply completes_get_bind; intros s2.
      destruct (0 <? consecutiveEmptyChecks s2); [|apply completes_ret].
      apply completes_bind; [apply completes_js_template|intros _; apply completes_modify].
  - apply completes_get_bind; intros s1.
    destruct (negb (ServerState_eqb (serverState s1) KNOWN_DOWN));
      [apply completes_handleServerDown|apply completes_ret].
Qed.

(** X16.  With an iteration budget above the start timeout, the monitor tick
    as [index.js] wires it always resolves: whatever the server, the network
    and Discord do, no error escapes it and it does not hang in a poll. *)
Theorem tick_always_resolves : forall (fuel : nat) (s : State),
  startTimeoutMs config < Z.of_nat fuel ->
  exists s1, tick fuel s = (Ret tt, s1).
Proof.
  intros fuel s Budget.
  destruct (@completes_performMonitorCheck (gracefulShutdown fuel)
              (@withLock ShutdownOutcome)
              (completes_withLock (completes_gracefulShutdown fuel Budget)) s)
    as (c & s1 & E).
  unfold tick; rewrite E.
  destruct c as [[]|e]; [eauto|].
  exfalso; unfold performMonitorCheck, bind, get, try_catch in E.
  destruct (ServerState_eqb (serverState s) KNOWN_DOWN); [discriminate|].
  match type of E with
  | context [match ?m with _ => _ end] => destruct m as [[[[]|e1]|] s2]
  end; discriminate.
Qed.

(* ------------------------------------------------------------------ *)
(** *** Invariants of the tracker and of the lock *)

Lemma hoare_handleServerUp (P Q : State -> Prop) :
  tracker_pred Q ->
  (forall s, P s -> serverState s = KNOWN_UP -> Q s) ->
  (forall s, P s -> Q (set_consecutiveEmptyChecks 0 (set_serverState KNOWN_UP s))) ->
  hoare P handleServerUp Q.
Proof.
  intros TQ Same Change; unfold handleServerUp.
  apply hoare_get_bind; intros a.
  destruct (ServerState_eqb (serverState a) KNOWN_UP) eqn:E; cbn [negb].
  - apply ServerState_eqb_eq in E.
    intros s r s1 H (Ps & Eq); inversion H; subst; auto.
  - intros s r s1 H (Ps & Eq); subst a.
    unfold bind, modify in H; simpl in H.
    eapply TQ; [|apply Change; exact Ps].
    eapply keeps_updateDiscordStatus; exact H.
Qed.

Lemma hoare_handleServerDown (P Q : State -> Prop) :
  tracker_pred Q ->
  (forall s, P s -> serverState s = KNOWN_DOWN -> Q s) ->
  (forall s, P s -> Q (set_consecutiveEmptyChecks 0 (set_serverState KNOWN_DOWN s))) ->
  hoare P handleServerDown Q.
Proof.
  intros TQ Same Change; unfold handleServerDown.
  apply hoare_get_bind; intros a.
  destruct (ServerState_eqb (serverState a) KNOWN_DOWN) eqn:E; cbn [negb].
  - apply ServerState_eqb_eq in E.
    intros s r s1 H (Ps & Eq); inversion H; subst; auto.
  - intros s r s1 H (Ps & Eq); subst a.
    unfold bind, modify in H; simpl in H.
    eapply TQ; [|apply Change; exact Ps].
    eapply keeps_updateDiscordStatus; exact H.
Qed.

Lemma hoare_setServerDown (P Q : State -> Prop) :
  tracker_pred Q ->
  (forall s, P s -> serverState s = KNOWN_DOWN -> Q s) ->
  (forall s, P s -> Q (set_consecutiveEmptyChecks 0 (set_serverState KNOWN_DOWN s))) ->
  hoare P setServerDown Q.
Proof.
  intros TQ Same Change; unfold setServerDown.
  apply hoare_get_bind; intros a.
  destruct (ServerState_eqb (serverState a) KNOWN_DOWN) eqn:E; cbn [negb].
  - apply ServerState_eqb_eq in E.
    intros s r s1 H (Ps & Eq); inversion H; subst; auto.
  - eapply hoare_weaken with (P1 := P) (Q1 := Q);
      [apply (@hoare_handleServerDown P Q TQ Same Change)|intros s (Ps & _); exact Ps|auto].
Qed.

Lemma hoare_setServerUp (P Q : State -> Prop) :
  tracker_pred Q ->
  (forall s, P s -> serverState s = KNOWN_UP -> Q s) ->
  (forall s, P s -> Q (set_consecutiveEmptyChecks 0 (set_serverState KNOWN_UP s))) ->
  hoare P setServerUp Q.
Proof.
  intros TQ Same Change; unfold setServerUp.
  apply hoare_get_bind; intros a.
  destruct (ServerState_eqb (serverState a) KNOWN_UP) eqn:E; cbn [negb].
  - apply ServerState_eqb_eq in E.
    intros s r s1 H (Ps & Eq); inversion H; subst; auto.
  - eapply hoare_weaken with (P1 := P) (Q1 := Q);
      [apply (@hoare_handleServerUp P Q TQ Same Change)|intros s (Ps & _); exact Ps|auto].
Qed.

(** The shutdown protocol keeps a property of the tracker that survives the
    move to [KNOWN_DOWN]. *)
Lemma hoare_gracefulShutdown (P : State -> Prop) (fuel : nat) :
  tracker_pred P ->
  (forall s, P s -> P (set_consecutiveEmptyChecks 0 (set_serverState KNOWN_DOWN s))) ->
  hoare P (gracefulShutdown fuel) P.
Proof.
  intros TP Down; unfold gracefulShutdown.
  apply hoare_bind with (R := P); [apply hoare_keeps, keeps_isUp; exact TP| |auto].
  intros up; destruct up; cbn [negb]; [|apply hoare_ret].
  apply hoare_bind with (R := P); [apply hoare_keeps, keeps_getPlayers; exact TP| |auto].
  intros players.
  apply hoare_bind with (R := P);
    [apply hoare_keeps, keeps_players_online; exact TP| |auto].
  intros [n|]; [apply hoare_ret|].
  apply hoare_try_catch with (R := P); [|intros; apply hoare_ret|auto].
  apply hoare_bind with (R := P);
    [apply hoare_keeps, keeps_apiPost; exact TP| |auto].
  intros _.
  apply hoare_bind with (R := P); [apply hoare_keeps, keeps_sleep; exact TP| |auto].
  intros _.
  apply hoare_bind with (R := P); [apply hoare_keeps, keeps_getPlayers; exact TP| |auto].
  intros players2.
  apply hoare_bind with (R := P);
    [apply hoare_keeps, keeps_players_online; exact TP| |auto].
  intros [n|]; [apply hoare_ret|].
  apply hoare_bind with (R := P);
    [apply hoare_keeps, keeps_apiPost; exact TP| |auto].
  intros _.
  apply hoare_bind with (R := P); [| |auto].
  { unfold waitForShutdown; apply hoare_get_bind; intros a.
    eapply hoare_weaken with (P1 := P) (Q1 := P);
      [apply hoare_keeps, keeps_waitForShutdown_loop; exact TP
      |intros s (Ps & _); exact Ps|auto]. }
  intros down; destruct down; cbn [negb]; [|apply hoare_ret].
  apply hoare_bind with (R := P); [|intros; apply hoare_ret|auto].
  apply hoare_setServerDown; auto.
Qed.

(** [withLock] keeps a property that does not look at the flag. *)
Lemma hoare_withLock {A} (P : State -> Prop) (m : M A) :
  (forall s b, P s -> P (set_busy b s)) ->
  hoare P m P -> hoare P (withLock m) P.
Proof.
  intros Flag Hm s r s1 H Ps.
  unfold withLock, bind, get, modify, throw, try_finally in H.
  destruct (busy s); [inversion H; subst; exact Ps|].
  destruct (m (set_busy true s)) as [[c|] s2] eqn:E.
  - assert (P s2) by (eapply Hm; eauto).
    destruct c; inversion H; subst; auto.
  - inversion H; subst; eapply Hm; eauto.
Qed.

(** [withLock] around an action that always ends gives the flag back. *)
Lemma hoare_withLock_flag {A} (b : bool) (m : M A) :
  completes m ->
  hoare (fun s => busy s = b) (withLock m) (fun s => busy s = b).
Proof.
  intros Cm s r s1 H Bs.
  unfold withLock, bind, get, modify, throw, try_finally in H.
  destruct (busy s) eqn:B; [inversion H; subst; congruence|].
  destruct (Cm (set_busy true s)) as (c & s2 & E); rewrite E in H.
  destruct c; inversion H; subst; reflexivity.
Qed.

(** The tick keeps [P] when the pieces it is made of do; [Pup] is what is
    known between the liveness poll and the shutdown attempt. *)
Lemma hoare_performMonitorCheck (P Pup : State -> Prop)
    (gs : M ShutdownOutcome) (wl : M ShutdownOutcome -> M ShutdownOutcome) :
  tracker_pred P -> tracker_pred Pup ->
  (forall s, Pup s -> P s) ->
  (forall s, P s -> serverState s = KNOWN_UP -> Pup s) ->
  (forall s, P s -> Pup (set_consecutiveEmptyChecks 0 (set_serverState KNOWN_UP s))) ->
  (forall s, P s -> P (set_consecutiveEmptyChecks 0 (set_serverState KNOWN_DOWN s))) ->
  (forall s, Pup s -> Pup (set_consecutiveEmptyChecks (consecutiveEmptyChecks s + 1) s)) ->
  (forall s, P s -> P (set_consecutiveEmptyChecks 0 s)) ->
  hoare Pup (wl gs) P ->
  hoare P (performMonitorCheck gs wl) P.
Proof.
  intros TP TPup UpP PUp ToUp ToDown Count Reset Hwl.
  unfold performMonitorCheck.
  apply hoare_get_bind; intros s0.
  destruct (ServerState_eqb (serverState s0) KNOWN_DOWN).
  { eapply hoare_weaken with (P1 := P) (Q1 := P);
      [apply hoare_ret|intros s (Ps & _); exact Ps|auto]. }
  eapply hoare_weaken with (P1 := P) (Q1 := P); [|intros s (Ps & _); exact Ps|auto].
  apply hoare_try_catch with (R := P); [|intros; apply hoare_ret|auto].
  apply hoare_bind with (R := P); [apply hoare_keeps, keeps_isUp; exact TP| |auto].
  intros up; destruct up; cbn [negb].
  - apply hoare_get_bind; intros s1.
    apply hoare_bind with (R := Pup); [| |exact UpP].
    { destruct (negb (ServerState_eqb (serverState s1) KNOWN_UP)) eqn:E.
      - eapply hoare_weaken with (P1 := P) (Q1 := Pup);
          [apply hoare_handleServerUp; auto|intros s (Ps & _); exact Ps|auto].
      - intros s r s2 H (Ps & Eq); inversion H; subst.
        apply PUp; [exact Ps|].
        apply ServerState_eqb_eq; destruct (ServerState_eqb (serverState s2) KNOWN_UP);
          [reflexivity|discriminate]. }
    intros _.
    apply hoare_bind with (R := Pup);
      [apply hoare_keeps, keeps_getPlayers; exact TPup| |exact UpP].
    intros players.
    apply hoare_bind with (R := Pup); [apply hoare_lift| |exact UpP].
    intros count; destruct (strict_eq_zero count).
    + apply hoare_bind with (R := Pup); [apply hoare_modify; exact Count| |exact UpP].
      intros _; apply hoare_get_bind; intros s3.
      destruct (emptyCheckThreshold config <=? consecutiveEmptyChecks s3).
      * eapply hoare_weaken with (P1 := Pup) (Q1 := P);
          [|intros s (Ps & _); exact Ps|auto].
        apply hoare_try_catch with (R := P); [|intros; apply hoare_ret|auto].
        apply hoare_bind with (R := P); [exact Hwl| |auto].
        intros result; destruct (success result);
          [apply hoare_modify; exact Reset|apply hoare_ret].
      * eapply hoare_weaken with (P1 := Pup) (Q1 := Pup);
          [apply hoare_ret|intros s (Ps & _); exact Ps|exact UpP].
    + apply hoare_get_bind; intros s2.
      destruct (0 <? consecutiveEmptyChecks s2).
      * eapply hoare_weaken with (P1 := Pup) (Q1 := P);
          [|intros s (Ps & _); exact Ps|auto].
        apply hoare_bind with (R := Pup);
          [apply hoare_keeps, keeps_js_template; exact TPup| |exact UpP].
        intros _; apply hoare_modify; intros s Ps; apply Reset, UpP, Ps.
      * eapply hoare_weaken with (P1 := Pup) (Q1 := Pup);
          [apply hoare_ret|intros s (Ps & _); exact Ps|exact UpP].
  - apply hoare_get_bind; intros s1.
    destruct (negb (ServerState_eqb (serverState s1) KNOWN_DOWN)).
    + eapply hoare_weaken with (P1 := P) (Q1 := P);
        [apply hoare_handleServerDown; auto|intros s (Ps & _); exact Ps|auto].
    + eapply hoare_weaken with (P1 := P) (Q1 := P);
        [apply hoare_ret|intros s (Ps & _); exact Ps|auto].
Qed.

Lemma tracker_ok_pred : tracker_pred tracker_ok.
Proof.
  intros s s1 (St & C & _) (Pos & Down); unfold tracker_ok.
  rewrite St, C; auto.
Qed.

Lemma op_keeps_tracker_ok (fuel : nat) (op : BotOp) (s : State) :
  tracker_ok s -> tracker_ok (run_op fuel op s).
Proof.
  assert (Zero : forall st x, tracker_ok (set_consecutiveEmptyChecks 0 (set_serverState x st))).
  { intros st x; unfold tracker_ok; simpl; split; [lia|reflexivity]. }
  assert (Reset : forall st, tracker_ok st -> tracker_ok (set_consecutiveEmptyChecks 0 st)).
  { intros st _; unfold tracker_ok; simpl; split; [lia|reflexivity]. }
  assert (Gs : hoare tracker_ok (gracefulShutdown fuel) tracker_ok).
  { apply hoare_gracefulShutdown; [apply tracker_ok_pred|auto]. }
  assert (Wl : hoare tracker_ok (withLock (gracefulShutdown fuel)) tracker_ok).
  { apply hoare_withLock; [|exact Gs]. intros st b Ok; exact Ok. }
  intros Ok; destruct op; simpl.
  - destruct (tick fuel s) as [r s1] eqn:E; simpl.
    refine (@hoare_performMonitorCheck tracker_ok
              (fun st => tracker_ok st /\ serverState st = KNOWN_UP)
              (gracefulShutdown fuel) (@withLock ShutdownOutcome)
              tracker_ok_pred _ _ _ _ _ _ _ _ s r s1 E Ok); auto.
    + intros a b ST (T & U); split; [eapply tracker_ok_pred; eauto|].
      destruct ST as (St & _); congruence.
    + intros st (T & _); exact T.
    + intros st (T & U); unfold tracker_ok in *; simpl; split; [|exact U].
      split; [lia|intros D; congruence].
    + eapply hoare_weaken with (P1 := tracker_ok) (Q1 := tracker_ok);
        [exact Wl|intros st (T & _); exact T|auto].
  - destruct (withLock (gracefulShutdown fuel) s) as [r s1] eqn:E; simpl.
    eapply Wl; eauto.
  - destruct (setServerUp s) as [r s1] eqn:E; simpl.
    refine (@hoare_setServerUp tracker_ok tracker_ok tracker_ok_pred _ _ s r s1 E Ok); auto.
  - destruct (setServerDown s) as [r s1] eqn:E; simpl.
    refine (@hoare_setServerDown tracker_ok tracker_ok tracker_ok_pred _ _ s r s1 E Ok); auto.
Qed.

(** X17.  Whatever sequence of monitor ticks, manual stops and start or stop
    notifications runs, and whatever the server answers, the idle counter is
    never negative and is zero whenever the tracked state is [KNOWN_DOWN]. *)
Theorem tracker_invariant : forall (fuel : nat) (ops : list BotOp) (s : State),
  tracker_ok s -> tracker_ok (run_ops fuel ops s).
Proof.
  intros fuel ops; unfold run_ops.
  induction ops as [|op ops IH]; intros s Ok; simpl; [exact Ok|].
  apply IH, op_keeps_tracker_ok, Ok.
Qed.

Lemma flag_pred (b : bool) : tracker_pred (fun s => busy s = b).
Proof. intros s s1 (_ & _ & B) H; congruence. Qed.

Lemma op_keeps_flag (fuel : nat) (op : BotOp) (s : State) :
  startTimeoutMs config < Z.of_nat fuel ->
  busy (run_op fuel op s) = busy s.
Proof.
  intros Budget.
  pose (P := fun st : State => busy st = busy s).
  assert (TP : tracker_pred P) by apply flag_pred.
  assert (Wl : hoare P (withLock (gracefulShutdown fuel)) P).
  { apply hoare_withLock_flag, completes_gracefulShutdown, Budget. }
  destruct op; simpl.
  - destruct (tick fuel s) as [r s1] eqn:E; simpl.
    refine (@hoare_performMonitorCheck P P (gracefulShutdown fuel)
              (@withLock ShutdownOutcome) TP TP _ _ _ _ _ _ Wl s r s1 E eq_refl);
      unfold P; simpl; auto.
  - destruct (withLock (gracefulShutdown fuel) s) as [r s1] eqn:E; simpl.
    eapply Wl; eauto; reflexivity.
  - destruct (setServerUp s) as [r s1] eqn:E; simpl.
    refine (@hoare_setServerUp P P TP _ _ s r s1 E eq_refl); unfold P; simpl; auto.
  - destruct (setServerDown s) as [r s1] eqn:E; simpl.
    refine (@hoare_setServerDown P P TP _ _ s r s1 E eq_refl); unfold P; simpl; auto.
Qed.

(** X18.  With an iteration budget above the start timeout the lock never
    leaks: after any sequence of monitor ticks, manual stops and
    notifications the flag [busy] is what it was, so a lock that was free is
    free again, also after runs that threw. *)
Theorem lock_never_leaks : forall (fuel : nat) (ops : list BotOp) (s : State),
  startTimeoutMs config < Z.of_nat fuel ->
  busy (run_ops fuel ops s) = busy s.
Proof.
  intros fuel ops s Budget; revert s; unfold run_ops.
  induction ops as [|op ops IH]; intros s; simpl; [reflexivity|].
  rewrite IH; apply op_keeps_flag, Budget.
Qed.

(* ------------------------------------------------------------------ *)
(** *** Starting and stopping the monitor *)

Lemma seed_state (s : State) :
  consecutiveEmptyChecks s = 0 ->
  exists s1 b s0,
    startMonitoring_seed s = (Ret tt, s1) /\
    isUp s = (Ret b, s0) /\
    serverState s1 = (if b then KNOWN_UP else KNOWN_DOWN) /\
    consecutiveEmptyChecks s1 = 0 /\
    discordClient s1 = discordClient s.
Proof.
  intros Zero.
  destruct (isUp_spec s) as (b & s0 & E & _ & B & _).
  destruct B as (_ & St & Cn & Cl & _).
  unfold startMonitoring_seed, try_catch, bind; rewrite E.
  destruct b.
  - destruct (ServerState_eqb (serverState s0) KNOWN_UP) eqn:U.
    + unfold handleServerUp, bind, get; rewrite U; simpl.
      apply ServerState_eqb_eq in U.
      exists s0, true, s0; repeat split; congruence.
    + destruct (@handleServerUp_spec s0) as (s1 & R & T).
      { intros C; apply ServerState_eqb_eq in C; congruence. }
      rewrite R.
      destruct (updateDiscordStatus_spec
                  (set_consecutiveEmptyChecks 0 (set_serverState KNOWN_UP s0)))
        as (s2 & R2 & P).
      unfold handleServerUp, bind, get, modify in R; rewrite U in R; simpl in R.
      rewrite R2 in R; inversion R; subst.
      destruct T as (T1 & T2 & _).
      destruct P as (_ & _ & _ & P4 & _); simpl in P4.
      exists s1, true, s0; repeat split; congruence.
  - destruct (ServerState_eqb (serverState s0) KNOWN_DOWN) eqn:U.
    + unfold handleServerDown, bind, get; rewrite U; simpl.
      apply ServerState_eqb_eq in U.
      exists s0, false, s0; repeat split; congruence.
    + destruct (@handleServerDown_spec s0) as (s1 & R & T).
      { intros C; apply ServerState_eqb_eq in C; congruence. }
      rewrite R.
      destruct (updateDiscordStatus_spec
                  (set_consecutiveEmptyChecks 0 (set_serverState KNOWN_DOWN s0)))
        as (s2 & R2 & P).
      unfold handleServerDown, bind, get, modify in R; rewrite U in R; simpl in R.
      rewrite R2 in R; inversion R; subst.
      destruct T as (T1 & T2 & _).
      destruct P as (_ & _ & _ & P4 & _); simpl in P4.
      exists s1, false, s0; repeat split; congruence.
Qed.

Lemma startMonitoring_resolves (client : option Client) (ctl : MonitorCtl) (s : State) :
  exists s1,
    startMonitoring client ctl s =
      (Ret (if monitoringActive ctl then ctl
            else mkCtl true (Some (next_timer ctl)) (next_timer ctl :: live_timers ctl)
                       (S (next_timer ctl))), s1).
Proof.
  unfold startMonitoring, startMonitoring_enter.
  destruct (monitoringActive ctl); [unfold bind, modify, ret; eauto|].
  destruct (@seed_state (set_consecutiveEmptyChecks 0 (set_discordClient client s)) eq_refl)
    as (s1 & b & s0 & R & _).
  unfold bind at 1 2 3; unfold modify, ret; simpl.
  unfold bind; rewrite R; eauto.
Qed.

Lemma stopMonitoring_resolves (ctl : MonitorCtl) (s : State) :
  exists s1,
    stopMonitoring ctl s =
      (Ret (if monitoringActive ctl then
              match intervalId ctl with
              | Some id => mkCtl false None (clear_timer id (live_timers ctl)) (next_timer ctl)
              | None => mkCtl false None (live_timers ctl) (next_timer ctl)
              end
            else ctl), s1).
Proof.
  unfold stopMonitoring, bind, modify, ret.
  destruct (monitoringActive ctl); simpl; [|eauto].
  destruct (intervalId ctl); eauto.
Qed.

Lemma ctl_step_consistent (op : CtlOp) (ctl : MonitorCtl) (s : State) :
  ctl_consistent ctl ->
  exists ctl1 s1,
    match op with
    | OpStart client => startMonitoring client ctl s
    | OpStop => stopMonitoring ctl s
    end = (Ret ctl1, s1) /\ ctl_consistent ctl1.
Proof.
  intros C; pose proof C as (Act & Live & Fresh); destruct op as [client|].
  - destruct (startMonitoring_resolves client ctl s) as (s1 & R).
    eexists; eexists; split; [exact R|].
    destruct (monitoringActive ctl) eqn:A; [exact C|].
    assert (N : intervalId ctl = None).
    { destruct (intervalId ctl); [|reflexivity].
      assert (false = true) by (apply Act; discriminate); discriminate. }
    rewrite N in Live; unfold ctl_consistent; simpl; rewrite Live.
    repeat split; try discriminate; auto.
  - destruct (stopMonitoring_resolves ctl s) as (s1 & R).
    eexists; eexists; split; [exact R|].
    destruct (monitoringActive ctl) eqn:A; [|exact C].
    destruct (intervalId ctl) as [id|] eqn:I.
    + rewrite Live; unfold ctl_consistent; simpl; rewrite Nat.eqb_refl.
      repeat split; try discriminate; auto; intros C; congruence.
    + exfalso; apply (proj1 Act); reflexivity.
Qed.

Lemma run_ctl_consistent (ops : list CtlOp) :
  forall (ctl : MonitorCtl) (s : State),
  ctl_consistent ctl -> ctl_consistent (fst (run_ctl ops ctl s)).
Proof.
  induction ops as [|op ops IH]; intros ctl s C; simpl; [exact C|].
  destruct (ctl_step_consistent op s C) as (ctl1 & s1 & R & C1).
  rewrite R; apply IH, C1.
Qed.

(** X19.  Over any sequence of [startMonitoring] and [stopMonitoring] calls
    that each run to their end before the next begins, the module never has
    more than one timer registered: exactly one while monitoring is active,
    none while it is not.  Starting twice registers no second timer and
    stopping twice is harmless. *)
Theorem monitoring_has_at_most_one_timer :
  forall (ops : list CtlOp) (s : State),
  let ctl := fst (run_ctl ops initial_ctl s) in
  (List.length (live_timers ctl) <= 1)%nat /\
  (monitoringActive ctl = true -> exists id, live_timers ctl = [id] /\ intervalId ctl = Some id) /\
  (monitoringActive ctl = false -> live_timers ctl = [] /\ intervalId ctl = None).
Proof.
  intros ops s ctl.
  assert (C : ctl_consistent ctl).
  { apply run_ctl_consistent; unfold ctl_consistent; simpl.
    repeat split; try discriminate; auto; intros C; congruence. }
  destruct C as (Act & Live & _).
  destruct (intervalId ctl) as [id|] eqn:I; rewrite Live; simpl.
  - split; [auto|]; split; [eauto|].
    intros A; assert (T : monitoringActive ctl = true) by (apply Act; discriminate).
    congruence.
  - split; [auto|]; split; [|auto].
    intros A; exfalso; apply (proj1 Act); auto.
Qed.

(** X20.  The first [startMonitoring] seeds the tracker from one liveness
    poll: it resolves with monitoring active, the client stored, the counter
    at zero and the tracked state [KNOWN_UP] or [KNOWN_DOWN] as the poll
    answered, never [UNKNOWN].  A call while monitoring is active only stores
    the client. *)
Theorem startMonitoring_seeds_state :
  forall (client : option Client) (ctl : MonitorCtl) (s : State),
  (monitoringActive ctl = true ->
   startMonitoring client ctl s = (Ret ctl, set_discordClient client s)) /\
  (monitoringActive ctl = false ->
   exists ctl1 s1 up s0,
     startMonitoring client ctl s = (Ret ctl1, s1) /\
     monitoringActive ctl1 = true /\
     isUp (set_consecutiveEmptyChecks 0 (set_discordClient client s)) = (Ret up, s0) /\
     serverState s1 = (if up then KNOWN_UP else KNOWN_DOWN) /\
     consecutiveEmptyChecks s1 = 0 /\
     discordClient s1 = client).
Proof.
  intros client ctl s; split; intros A.
  - unfold startMonitoring, startMonitoring_enter, bind, modify; rewrite A; reflexivity.
  - destruct (@seed_state (set_consecutiveEmptyChecks 0 (set_discordClient client s))
                eq_refl) as (s1 & b & s0 & R & Up & St & Cn & Cl).
    exists (mkCtl true (Some (next_timer ctl)) (next_timer ctl :: live_timers ctl)
                  (S (next_timer ctl))), s1, b, s0.
    split; [|repeat split; auto].
    unfold startMonitoring, startMonitoring_enter; rewrite A.
    unfold bind at 1 2 3; unfold modify, ret; simpl.
    unfold bind; rewrite R; reflexivity.
Qed.

(* ------------------------------------------------------------------ *)
(** *** The stop command *)

(** X21.  The [palstop] command always ends in a reply and gives the lock
    back.  When the lock is held it replies with the sanitized busy message
    and does nothing else.  When the first player poll of the stop throws,
    the error is caught here: the lock is released and the reply is the
    sanitized error.  When the stop resolves, the reply is its message and
    the lock is released after the reply. *)
Theorem palstop_replies :
  forall (editReply : string -> M unit) (fuel : nat) (s : State),
  (busy s = true ->
   palstop editReply fuel s =
     editReply (sanitize_text host "Another operation is in progress.") s) /\
  (forall (s1 s2 : State) (e : JsError),
   busy s = false ->
   isUp (set_busy true s) = (Ret true, s1) ->
   getPlayers s1 = (Thr e, s2) ->
   palstop editReply fuel s =
     editReply (sanitize_text host (err_message e)) (set_busy false s2)) /\
  (forall (s1 s2 : State) (o : ShutdownOutcome),
   busy s = false ->
   gracefulShutdown fuel (set_busy true s) = (Ret o, s1) ->
   editReply (message o) s1 = (Ret tt, s2) ->
   palstop editReply fuel s = (Ret tt, set_busy false s2)).
Proof.
  intros editReply fuel s; split; [|split].
  - intros B; unfold palstop, try_catch, withLock, bind, get, throw.
    rewrite B; reflexivity.
  - intros s1 s2 e B Up Poll.
    pose proof (gracefulShutdown_first_poll_throws fuel _ Up Poll) as G.
    unfold palstop, try_catch, withLock, bind, get, modify, try_finally.
    rewrite B; simpl.
    unfold bind in G; unfold bind; rewrite G; reflexivity.
  - intros s1 s2 o B G R.
    unfold palstop, try_catch, withLock, bind, get, modify, try_finally.
    rewrite B; simpl.
    unfold bind in G; unfold bind; rewrite G, R; reflexivity.
Qed.

(** X22.  The one-timer property needs the calls not to overlap.  When
    [stopMonitoring] runs while a first [startMonitoring] is suspended at its
    liveness poll, the start goes on to register its timer all the same:
    monitoring is then inactive with a timer registered, a further
    [stopMonitoring] returns early and leaves that timer, and the next
    [startMonitoring] registers a second one. *)
Theorem stopMonitoring_during_start :
  forall (client : option Client) (ctl : MonitorCtl) (s s' : State),
  ctl_consistent ctl ->
  monitoringActive ctl = false ->
  exists ctl1 s1 ctl2 s2,
    startMonitoring_enter client ctl s = (Ret (Some ctl1), s1) /\
    stopMonitoring ctl1 s' = (Ret ctl2, s2) /\
    let ctl3 := startMonitoring_register ctl2 in
    monitoringActive ctl3 = false /\
    live_timers ctl3 = [next_timer ctl] /\
    (forall s3, stopMonitoring ctl3 s3 = (Ret ctl3, s3)) /\
    (forall client' s3, exists ctl4 s4,
       startMonitoring client' ctl3 s3 = (Ret ctl4, s4) /\
       List.length (live_timers ctl4) = 2%nat).
Proof.
  intros client ctl s s' C A.
  destruct C as (Act & Live & _).
  assert (N : intervalId ctl = None).
  { destruct (intervalId ctl); [|reflexivity].
    assert (monitoringActive ctl = true) by (apply Act; discriminate); congruence. }
  rewrite N in Live.
  eexists; eexists; eexists; eexists.
  split; [unfold startMonitoring_enter, bind, modify, ret; rewrite A; reflexivity|].
  split; [unfold stopMonitoring, bind, modify, ret; simpl; rewrite N; reflexivity|].
  simpl; rewrite Live.
  split; [reflexivity|]; split; [reflexivity|]; split.
  - intros s3; reflexivity.
  - intros client' s3.
    match goal with |- context [startMonitoring client' ?c s3] =>
      destruct (startMonitoring_resolves client' c s3) as (s4 & R) end.
    eexists; eexists; split; [exact R|reflexivity].
Qed.

(* ------------------------------------------------------------------ *)
(** *** Reading the body of a response *)

(** X23.  A POST is done once the status is ok: a body that cannot be parsed
    is read as the empty object, where the same answer to a GET throws the
    parse error.  With a status that is not ok both throw the HTTP error and
    the body is not looked at. *)
Theorem apiPost_tolerates_unparsable_body :
  forall (path : string) (body : JsVal) (s : State) (response : Response)
         (ms : N) (w : W),
  (net_fetch host (mkRequest POST (url path) (Some body)) (world s)
     = (Normal response, ms, w) ->
   let s1 := advance (Z.of_N ms) (set_world w (record (EvFetch POST (url path)) s)) in
   (resp_ok response = false ->
    apiPost path body s = (Thr (http_error response), s1)) /\
   (resp_ok response = true ->
    apiPost path body s =
      (Ret (match resp_json response with Normal v => v | Abrupt _ => VObj [] end), s1))) /\
  (net_fetch host (mkRequest GET (url path) None) (world s)
     = (Normal response, ms, w) ->
   let s1 := advance (Z.of_N ms) (set_world w (record (EvFetch GET (url path)) s)) in
   (resp_ok response = false ->
    apiGet path s = (Thr (http_error response), s1)) /\
   (resp_ok response = true ->
    apiGet path s = (Some (resp_json response), s1))).
Proof.
  intros path body s response ms w; split; intros F s1; split; intros Ok.
  - unfold apiPost, bind, fetch; simpl; rewrite F, Ok; reflexivity.
  - unfold apiPost, bind, fetch, try_catch, lift; simpl; rewrite F, Ok; simpl.
    destruct (resp_json response); reflexivity.
  - unfold apiGet, bind, fetch; simpl; rewrite F, Ok; reflexivity.
  - unfold apiGet, bind, fetch, lift; simpl; rewrite F, Ok; reflexivity.
Qed.

(* ------------------------------------------------------------------ *)
(** *** The traffic of a start *)

Lemma launchConfigured_trace (s s1 : State) (r : option (Completion unit)) :
  launchConfigured s = (r, s1) ->
  (trace s1 = trace s /\ r <> Ret tt) \/
  (exists exe args, trace s1 = EvSpawn exe args :: trace s).
Proof.
  unfold launchConfigured; intros H.
  destruct (truthy_opt (serviceName config)).
  - unfold bind, lift in H.
    destruct (validateServiceName (opt_string (serviceName config))).
    + unfold runSecurePowerShell in H; simpl in H.
      destruct (spawn_powershell host _ (world s)) as [[outcome ms] w].
      right; eexists; eexists.
      destruct outcome as [code stdout stderr|e|e];
        [destruct (code =? 0)|..]; inversion H; subst; reflexivity.
    + inversion H; subst; left; split; [reflexivity|discriminate].
  - destruct (truthy_opt (startCommand config)).
    + unfold bind, lift in H.
      destruct (validateStartCommand host (opt_string (startCommand config))) as [p|e].
      * unfold runSecureDetached in H.
        destruct (spawn_detached host (fst p) (snd p) _ (world s)) as (threw & w).
        right; exists (fst p), (snd p).
        destruct threw; inversion H; subst; reflexivity.
      * inversion H; subst; left; split; [reflexivity|discriminate].
    + unfold throw in H; inversion H; subst; left; split; [reflexivity|discriminate].
Qed.

Lemma waitFor_loop_polls (intervalMs until : Z) (fuel : nat) :
  forall (s s1 : State) (r : option (Completion bool)),
  1 <= intervalMs <= 2147483647 ->
  waitFor_loop fuel isUp until intervalMs s = (r, s1) ->
  exists n : nat,
    trace s1 = (repeat info_request n ++ trace s)%list /\
    (n = 0%nat \/ intervalMs * (Z.of_nat n - 1) < until - now s).
Proof.
  induction fuel as [|fuel IH]; intros s s1 r Iv H; simpl in H.
  - exists 0%nat; destruct (now s <? until); inversion H; subst; auto.
  - destruct (now s <? until) eqn:B;
      [|exists 0%nat; inversion H; subst; auto].
    apply Z.ltb_lt in B.
    destruct (isUp_spec s) as (b & s0 & E & T0 & _ & N0).
    unfold bind, try_catch in H; rewrite E in H.
    destruct b.
    + unfold ret in H; inversion H; subst.
      exists 1%nat; split; [exact T0|right; simpl; lia].
    + unfold sleep in H.
      destruct (timer_late host intervalMs (world s0)) as (late & w) eqn:L.
      apply IH in H; [|exact Iv].
      destruct H as (n & T & Bound); simpl in T, Bound.
      exists (S n); split.
      * rewrite T; simpl; rewrite T0; simpl.
        clear; induction n as [|n IHn]; simpl; [reflexivity|].
        rewrite IHn; reflexivity.
      * right.
        assert (D : timer_delay intervalMs = intervalMs).
        { unfold timer_delay.
          destruct (intervalMs <? 1) eqn:A1; [apply Z.ltb_lt in A1; lia|].
          destruct (2147483647 <? intervalMs) eqn:A2; [apply Z.ltb_lt in A2; lia|].
          reflexivity. }
        rewrite D in Bound.
        destruct Bound as [Z0|Bound]; [subst; simpl; lia|].
        nia.
Qed.

Lemma startServer_traffic (fuel : nat) (s s1 : State) (r : option (Completion StartResult)) :
  1 <= pollIntervalMs config <= 2147483647 ->
  startServer fuel s = (r, s1) ->
  exists (n : nat) (spawned : list Event),
    trace s1 = (repeat info_request n ++ spawned ++ info_request :: trace s)%list /\
    (List.length spawned <= 1)%nat /\
    forallb is_spawn spawned = true /\
    (n = 0%nat \/ pollIntervalMs config * (Z.of_nat n - 1) < startTimeoutMs config).
Proof.
  intros Iv H.
  assert (Body : exists rb,
            (already <- isUp ;;
             if already then ret (mkStartResult false (Some "already_running"))
             else
               launchConfigured ;;;
               ok <- waitFor fuel isUp (startTimeoutMs config) (pollIntervalMs config) ;;
               if negb ok then throw (newError "Server did not come up in time")
               else ret (mkStartResult true None)) s = (rb, s1)).
  { unfold startServer, try_catch in H.
    match type of H with (match ?m with _ => _ end) = _ =>
      destruct m as (rb & sb) eqn:E end.
    destruct rb as [[a|e]|]; [| unfold throw in H |]; inversion H; subst; eauto. }
  clear H; destruct Body as (rb & H).
  destruct (isUp_spec s) as (b & s0 & E & T0 & _).
  unfold bind in H; rewrite E in H.
  destruct b.
  - unfold ret in H; inversion H; subst.
    exists 0%nat, []; repeat split; auto.
  - destruct (launchConfigured s0) as (rl & s2) eqn:L.
    assert (Sp : exists spawned, trace s2 = (spawned ++ trace s0)%list /\
                   (List.length spawned <= 1)%nat /\ forallb is_spawn spawned = true).
    { destruct (@launchConfigured_trace _ _ _ L) as [(T & _)|(exe & args & T)].
      - exists []; repeat split; auto.
      - exists [EvSpawn exe args]; repeat split; auto. }
    destruct Sp as (spawned & T2 & Len & All).
    destruct rl as [[[]|e]|].
    + unfold waitFor, get in H; unfold bind in H.
      destruct (waitFor_loop fuel isUp (now s2 + startTimeoutMs config)
                  (pollIntervalMs config) s2) as (rw & s3) eqn:Wt.
      destruct (@waitFor_loop_polls _ _ _ _ _ _ Iv Wt) as (n & T3 & Bound).
      assert (s1 = s3).
      { destruct rw as [[[]|e]|]; unfold throw, ret in H; simpl in H;
          inversion H; reflexivity. }
      subst s3.
      exists n, spawned; split; [|split; [exact Len|split; [exact All|]]].
      * rewrite T3, T2, T0; simpl; reflexivity.
      * destruct Bound as [Z0|Bound]; [auto|right; lia].
    + inversion H; subst.
      exists 0%nat, spawned; repeat split; auto.
      rewrite T2, T0; reflexivity.
    + inversion H; subst.
      exists 0%nat, spawned; repeat split; auto.
      rewrite T2, T0; reflexivity.
Qed.

End Orchestrator.

(* ================================================================== *)
(** ** Properties of the lock under interleaving *)

Section LockProperties.

Variables U A : Type.

Abbreviation LSys := (Sys U A).

Lemma holding_count_app (l : list (Invocation U A)) (x : Invocation U A) :
  List.length (filter (@is_holding U A) (l ++ [x])) =
  (List.length (filter (@is_holding U A) l) + if is_holding x then 1 else 0)%nat.
Proof.
  rewrite filter_app, length_app; simpl.
  destruct (is_holding x); reflexivity.
Qed.

Lemma holding_count_update (l : list (Invocation U A)) :
  forall (i : nat) (x y : Invocation U A),
  nth_error l i = Some x ->
  (List.length (filter (@is_holding U A) (update_nth i y l)) + (if is_holding x then 1 else 0) =
   List.length (filter (@is_holding U A) l) + (if is_holding y then 1 else 0))%nat.
Proof.
  induction l as [|z l IH]; intros [|i] x y H; simpl in H; try discriminate.
  - inversion H; subst; simpl.
    destruct (is_holding x), (is_holding y); simpl; lia.
  - simpl; specialize (IH i x y H).
    destruct (is_holding z); simpl; lia.
Qed.

Lemma nth_error_update_same {X} (l : list X) :
  forall (i : nat) (x y : X),
  nth_error l i = Some x -> nth_error (update_nth i y l) i = Some y.
Proof.
  induction l as [|z l IH]; intros [|i] x y H; simpl in *; try discriminate; eauto.
Qed.

Lemma step_consistent (sys : LSys) (a : Action U A) :
  lock_consistent sys -> lock_consistent (step sys a).
Proof.
  unfold lock_consistent, holders; intros Inv.
  destruct a as [fn|i|f]; simpl.
  - destruct (lock_busy sys) eqn:B.
    + simpl; rewrite holding_count_app; simpl; lia.
    + destruct (resume fn (shared sys)) as [u t]; simpl.
      rewrite holding_count_app; simpl; lia.
  - destruct (nth_error (invocations sys) i) as [[e|t|r]|] eqn:N; try exact Inv.
    destruct t as [r|segment next]; simpl.
    + pose proof (holding_count_update _ _ (Finished r) N) as C; simpl in C.
      destruct (lock_busy sys); lia.
    + pose proof (holding_count_update _ _ (Holding (next (shared sys))) N) as C.
      simpl in C; destruct (lock_busy sys); lia.
  - exact Inv.
Qed.

Lemma run_consistent (acts : list (Action U A)) :
  forall sys : LSys, lock_consistent sys -> lock_consistent (run sys acts).
Proof.
  induction acts as [|a acts IH]; intros sys Inv; simpl; [exact Inv|].
  apply IH, step_consistent, Inv.
Qed.

Lemma reachable_consistent (u : U) (acts : list (Action U A)) :
  lock_consistent (run (initial u) acts).
Proof. apply run_consistent; reflexivity. Qed.

Lemma holding_means_busy (sys : LSys) (i : nat) (t : Task U A) :
  lock_consistent sys ->
  nth_error (invocations sys) i = Some (Holding t) ->
  lock_busy sys = true /\ holders sys = 1%nat.
Proof.
  unfold lock_consistent, holders; intros Inv N.
  pose proof (holding_count_update _ _ (Finished (Abrupt busyError)) N) as C.
  simpl in C.
  destruct (lock_busy sys); [split; [reflexivity|exact Inv]|lia].
Qed.

Lemma set_world_same (s : St U) : set_world (world s) s = s.
Proof. destruct s; reflexivity. Qed.

Lemma task_M_resume (fn : Task U A) (s : St U) :
  task_M fn s =
  task_M (snd (resume fn (world s))) (set_world (fst (resume fn (world s))) s).
Proof.
  destruct fn as [r|segment next]; simpl; [rewrite set_world_same|]; reflexivity.
Qed.

(** A rejected invocation stays rejected, whatever is resumed. *)
Lemma rejected_stays (i k : nat) (e : JsError) :
  forall sys : LSys,
  nth_error (invocations sys) i = Some (Rejected e) ->
  run sys (repeat (Resume i) k) = sys.
Proof.
  induction k as [|k IH]; intros sys N; simpl; [reflexivity|].
  rewrite N; apply IH, N.
Qed.

(** A holder resumed until its action has settled and [finally] has run does
    what the action does when run in one piece, and ends with the lock
    released. *)
Lemma holder_runs_to_end (t : Task U A) :
  forall (sys : LSys) (i : nat) (s : St U),
  nth_error (invocations sys) i = Some (Holding t) ->
  world s = shared sys ->
  let sys1 := run sys (repeat (Resume i) (S (segments_left t (shared sys)))) in
  exists r,
    task_M t s = (Some r, set_world (shared sys1) s) /\
    nth_error (invocations sys1) i = Some (Finished r) /\
    lock_busy sys1 = false.
Proof.
  induction t as [r|segment next IH]; intros sys i s N Ws.
  - exists r; cbn [segments_left repeat run fold_left step]; rewrite N.
    cbn [shared lock_busy invocations]; split; [|split; [|reflexivity]].
    + simpl; unfold lift; rewrite <- Ws, set_world_same; reflexivity.
    + eapply nth_error_update_same; exact N.
  - cbn [segments_left].
    change (repeat (Resume i) (S (S (segments_left (next (shared sys)) (segment (shared sys))))))
      with (@Resume U A i ::
            repeat (Resume i) (S (segments_left (next (shared sys)) (segment (shared sys))))).
    cbn [run fold_left]; fold (@run U A).
    assert (St1 : step sys (Resume i) =
                  mkSys (lock_busy sys) (segment (shared sys))
                        (update_nth i (Holding (next (shared sys))) (invocations sys))).
    { simpl; rewrite N; reflexivity. }
    rewrite St1.
    specialize (IH (shared sys)
                   (mkSys (lock_busy sys) (segment (shared sys))
                          (update_nth i (Holding (next (shared sys))) (invocations sys)))
                   i (set_world (segment (world s)) s)).
    cbn [shared invocations] in IH.
    destruct IH as (r & Run & Done & Free).
    + eapply nth_error_update_same; exact N.
    + rewrite Ws; destruct s; reflexivity.
    + exists r; split; [|split; [exact Done|exact Free]].
      simpl; rewrite Ws, <- Ws; rewrite Ws.
      rewrite Ws in Run; rewrite Run; destruct s; reflexivity.
Qed.


End LockProperties.

(* ================================================================== *)
(** ** Concrete runs *)


(** C2, at the failing input.  The server answers the liveness poll and then
    fails the first player poll with HTTP 500: [gracefulShutdown] throws that
    error instead of resolving with an outcome. *)
Theorem gracefulShutdown_throws_when_first_poll_fails :
  fst (gracefulShutdown scripted_host test_config 10
         (test_state script_poll_fails KNOWN_UP 0 false)) =
  Thr (newError "HTTP 500: Internal Server Error").
Proof.
  rewrite (@gracefulShutdown_first_poll_throws Script scripted_host test_config 10
             (test_state script_poll_fails KNOWN_UP 0 false) _ _
             (newError "HTTP 500: Internal Server Error") eq_refl eq_refl).
  reflexivity.
Qed.

Lemma gracefulShutdown_blocked_by_players_witness :
  (exists s2,
     gracefulShutdown scripted_host test_config 10
       (test_state script_occupied KNOWN_UP 0 false) =
     (Ret (mkOutcome false "Cannot stop: **1** player(s) online."), s2)) /\
  (exists s5,
     gracefulShutdown scripted_host test_config 10
       (test_state script_late_join KNOWN_UP 0 false) =
     (Ret (mkOutcome false "Abort: **1** player(s) just connected."), s5)).
Proof.
  assert (One : 0 < 1 <= MAX_SAFE_INTEGER) by (unfold MAX_SAFE_INTEGER; lia).
  split.
  - destruct (@gracefulShutdown_blocked_by_players Script scripted_host test_config 10
                (test_state script_occupied KNOWN_UP 0 false) _ _
                (VArr [player "A"]) 1 One eq_refl eq_refl) as (Pre & _).
    destruct (Pre eq_refl) as (Run & _).
    eexists; exact Run.
  - destruct (@gracefulShutdown_blocked_by_players Script scripted_host test_config 10
                (test_state script_late_join KNOWN_UP 0 false) _ _
                (VArr []) 1 One eq_refl eq_refl) as (_ & Post).
    destruct (Post _ _ _ (VObj []) (VArr [player "A"])
                eq_refl eq_refl eq_refl eq_refl eq_refl) as (Run & _).
    eexists; exact Run.
Defined.

Lemma performMonitorCheck_at_threshold_witness :
  (exists s5,
     performMonitorCheck scripted_host test_config
       (gracefulShutdown scripted_host test_config 10)
       (@withLock Script ShutdownOutcome)
       (test_state script_idle_stop KNOWN_UP 1 false) = (Ret tt, s5) /\
     consecutiveEmptyChecks s5 = 0) /\
  (exists s5,
     performMonitorCheck scripted_host test_config
       (gracefulShutdown scripted_host test_config 10)
       (@withLock Script ShutdownOutcome)
       (test_state script_idle_late_join KNOWN_UP 1 false) = (Ret tt, s5) /\
     consecutiveEmptyChecks s5 = 2) /\
  (exists s5,
     performMonitorCheck scripted_host test_config
       (gracefulShutdown scripted_host test_config 10)
       (@withLock Script ShutdownOutcome)
       (test_state script_idle_stop KNOWN_UP 1 true) = (Ret tt, s5) /\
     consecutiveEmptyChecks s5 = 2) /\
  consecutiveEmptyChecks
    (snd (performMonitorCheck scripted_host test_config
            (fun st => (Ret (mkOutcome true "stopped"), st)) (fun fn => fn)
            (test_state [ok_json info_body; ok_json (VArr [])] KNOWN_UP 1 false))) = 0 /\
  consecutiveEmptyChecks
    (snd (performMonitorCheck scripted_host test_config
            (fun st => (Thr (newError "refused"), st)) (fun fn => fn)
            (test_state [ok_json info_body; ok_json (VArr [])] KNOWN_UP 1 false))) = 2.
Proof.
  assert (NotDown : KNOWN_UP <> KNOWN_DOWN) by discriminate.
  assert (Thresh : 2 <= 1 + 1) by lia.
  pose (polled := fun s : St Script =>
          snd (getPlayers scripted_host test_config
                 (snd (isUp scripted_host test_config s)))).
  pose (attempted := fun s : St Script =>
          snd (withLock (gracefulShutdown scripted_host test_config 10)
                 (counted (polled s)))).
  pose (wired := gracefulShutdown scripted_host test_config 10).
  split; [|split; [|split; [|split]]].
  - pose (s := test_state script_idle_stop KNOWN_UP 1 false).
    destruct (@performMonitorCheck_at_threshold Script scripted_host test_config
                wired (@withLock Script ShutdownOutcome)
                s (snd (isUp scripted_host test_config s))
                (snd (isUp scripted_host test_config s)) (polled s) (VArr [])
                NotDown eq_refl eq_refl eq_refl eq_refl Thresh) as (_ & _ & Wired).
    destruct (Wired 10%nat) as (_ & Attempt).
    assert (Run : withLock (gracefulShutdown scripted_host test_config 10)
                    (counted (polled s)) =
                  (Ret (mkOutcome true "Graceful server stop completed."), attempted s))
      by (vm_compute; reflexivity).
    destruct (Attempt _ _ Run) as (Success & _).
    exact (Success eq_refl).
  - pose (s := test_state script_idle_late_join KNOWN_UP 1 false).
    destruct (@performMonitorCheck_at_threshold Script scripted_host test_config
                wired (@withLock Script ShutdownOutcome)
                s (snd (isUp scripted_host test_config s))
                (snd (isUp scripted_host test_config s)) (polled s) (VArr [])
                NotDown eq_refl eq_refl eq_refl eq_refl Thresh) as (_ & _ & Wired).
    destruct (Wired 10%nat) as (_ & Attempt).
    assert (Run : withLock (gracefulShutdown scripted_host test_config 10)
                    (counted (polled s)) =
                  (Ret (mkOutcome false "Abort: **1** player(s) just connected."),
                   attempted s))
      by (vm_compute; reflexivity).
    destruct (Attempt _ _ Run) as (_ & Failure).
    exact (Failure eq_refl).
  - pose (s := test_state script_idle_stop KNOWN_UP 1 true).
    destruct (@performMonitorCheck_at_threshold Script scripted_host test_config
                wired (@withLock Script ShutdownOutcome)
                s (snd (isUp scripted_host test_config s))
                (snd (isUp scripted_host test_config s)) (polled s) (VArr [])
                NotDown eq_refl eq_refl eq_refl eq_refl Thresh) as (_ & _ & Wired).
    destruct (Wired 10%nat) as (Held & _).
    destruct (Held eq_refl) as (Run & Count & _).
    exists (counted (polled s)); split; [exact Run|exact Count].
  - pose (s := test_state [ok_json info_body; ok_json (VArr [])] KNOWN_UP 1 false).
    destruct (@performMonitorCheck_at_threshold Script scripted_host test_config
                (fun st => (Ret (mkOutcome true "stopped"), st)) (fun fn => fn)
                s (snd (isUp scripted_host test_config s))
                (snd (isUp scripted_host test_config s)) (polled s) (VArr [])
                NotDown eq_refl eq_refl eq_refl eq_refl Thresh) as (Resolved & _).
    destruct (Resolved _ _ eq_refl) as (Success & _).
    exact (f_equal (fun r => consecutiveEmptyChecks (snd r)) (Success eq_refl)).
  - pose (s := test_state [ok_json info_body; ok_json (VArr [])] KNOWN_UP 1 false).
    destruct (@performMonitorCheck_at_threshold Script scripted_host test_config
                (fun st => (Thr (newError "refused"), st)) (fun fn => fn)
                s (snd (isUp scripted_host test_config s))
                (snd (isUp scripted_host test_config s)) (polled s) (VArr [])
                NotDown eq_refl eq_refl eq_refl eq_refl Thresh) as (_ & Thrown & _).
    exact (f_equal (fun r => consecutiveEmptyChecks (snd r)) (Thrown _ _ eq_refl)).
Defined.

Lemma startServer_already_running_witness :
  fst (startServer scripted_host test_config 10
         (test_state [ok_json info_body] KNOWN_UP 0 false)) =
  Ret (mkStartResult false (Some "already_running")).
Proof.
  destruct (@startServer_already_running Script scripted_host test_config 10
              (test_state [ok_json info_body] KNOWN_UP 0 false) _ eq_refl) as (Run & _).
  rewrite Run; reflexivity.
Defined.

Lemma startServer_timeout_throws_witness :
  fst (startServer scripted_host test_config 10 (test_state [] KNOWN_DOWN 0 true)) =
  Thr (newError "Server did not come up in time").
Proof.
  pose (s := test_state [] KNOWN_DOWN 0 true).
  pose (s1 := snd (isUp scripted_host test_config s)).
  pose (s2 := snd (launchConfigured scripted_host test_config s1)).
  pose (s3 := snd (waitFor scripted_host 10 (isUp scripted_host test_config)
                     (startTimeoutMs test_config) (pollIntervalMs test_config) s2)).
  assert (Down : isUp scripted_host test_config s = (Ret false, s1)) by reflexivity.
  assert (Launch : launchConfigured scripted_host test_config s1 = (Ret tt, s2))
    by reflexivity.
  assert (Poll : waitFor scripted_host 10 (isUp scripted_host test_config)
                   (startTimeoutMs test_config) (pollIntervalMs test_config) s2 =
                 (Ret false, s3)) by (vm_compute; reflexivity).
  destruct (@startServer_timeout_throws Script scripted_host test_config 10
              s s1 s2 s3 Down Launch Poll) as (Run & _).
  exact (f_equal fst Run).
Defined.

(** C6, as worded, fails.  The server never answers: the polling runs into
    the start timeout and [startServer] throws; it does not resolve with a
    result object that carries the timeout as its reason. *)
Lemma startServer_timeout_not_in_result :
  ~ reports_timeout_in_result
      (fst (startServer scripted_host test_config 10 (test_state [] KNOWN_DOWN 0 true))).
Proof.
  intros (flag & text & R & _).
  vm_compute in R; discriminate R.
Qed.

Lemma notify_idempotent_and_effectful_once_witness :
  setServerUp scripted_host test_config (test_state [] KNOWN_UP 3 false) =
    (Ret tt, test_state [] KNOWN_UP 3 false) /\
  (exists s1,
     setServerDown scripted_host test_config (test_state [] KNOWN_UP 3 false) = (Ret tt, s1) /\
     transitioned scripted_host KNOWN_DOWN (test_state [] KNOWN_UP 3 false) s1).
Proof.
  assert (Change : KNOWN_UP <> KNOWN_DOWN) by discriminate.
  destruct (@notify_idempotent_and_effectful_once Script scripted_host test_config
              (test_state [] KNOWN_UP 3 false)) as (Same & _ & _ & Down).
  split; [exact (Same eq_refl)|exact (Down Change)].
Defined.

Lemma performMonitorCheck_skips_when_down_witness :
  performMonitorCheck scripted_host test_config
    (gracefulShutdown scripted_host test_config 10) (@withLock Script ShutdownOutcome)
    (test_state script_idle_stop KNOWN_DOWN 1 false) =
  (Ret tt, test_state script_idle_stop KNOWN_DOWN 1 false).
Proof.
  exact (@performMonitorCheck_skips_when_down Script scripted_host test_config
           (gracefulShutdown scripted_host test_config 10) (@withLock Script ShutdownOutcome)
           (test_state script_idle_stop KNOWN_DOWN 1 false) eq_refl).
Defined.

Lemma getPlayers_result_witness :
  exists items,
    fst (getPlayers scripted_host test_config
           (test_state (tl script_occupied) KNOWN_UP 0 false)) = Ret (VArr items).
Proof.
  destruct (@getPlayers_result Script scripted_host test_config
              (test_state (tl script_occupied) KNOWN_UP 0 false) _
              (VObj [("players", VArr [player "A"])]) eq_refl) as (_ & _ & Listed & _).
  destruct Listed as (items & Run).
  - right; exists (VArr [player "A"]); split; [reflexivity|left; reflexivity].
  - exists items; rewrite Run; reflexivity.
Defined.

(** C10, as worded, fails.  The server answers [GET /players] with the body
    [{"players": 5}]: [getPlayers] resolves with the number 5, not a list. *)
Lemma getPlayers_number_not_list :
  ~ resolves_with_list
      (fst (getPlayers scripted_host test_config
              (test_state script_players_number KNOWN_UP 0 false))).
Proof.
  intros (items & R).
  vm_compute in R; discriminate R.
Qed.

(* ================================================================== *)
(** ** Properties of the pure helpers *)

Lemma show_Z_append_nonempty (n : Z) (unit_name : string) :
  unit_name <> EmptyString -> show_Z n ++ unit_name <> EmptyString.
Proof.
  intros H C; destruct (show_Z n); simpl in C; [congruence|discriminate].
Qed.

Lemma concat_nonempty (sep x : string) (rest : list string) :
  x <> EmptyString -> String.concat sep (x :: rest) <> EmptyString.
Proof.
  intros H C; destruct rest as [|y rest]; simpl in C; [congruence|].
  destruct x; [congruence|discriminate].
Qed.

(** X1.  For a whole, non-negative number of seconds within the safe
    integers [formatUptime] shows the hours, minutes and seconds of the
    uptime, each only when it is not zero, except that a zero uptime reads
    "0s": the shown numbers recompose the input and the text is never
    empty. *)
Theorem formatUptime_components : forall seconds : Z,
  0 <= seconds <= MAX_SAFE_INTEGER ->
  exists h m sec,
    seconds = 3600 * h + 60 * m + sec /\
    0 <= h /\ 0 <= m < 60 /\ 0 <= sec < 60 /\
    formatUptime seconds =
      String.concat " "
        (uptime_component h "h" ++ uptime_component m "m" ++
         (if (0 <? sec) || (seconds =? 0) then [(show_Z sec ++ "s")%string] else []))%list /\
    formatUptime seconds <> EmptyString.
Proof.
  intros seconds (Pos & Safe).
  exists (seconds / 3600), (Z.rem seconds 3600 / 60), (Z.rem seconds 60).
  rewrite !Z.rem_mod_nonneg by lia.
  pose proof (Z.div_mod seconds 3600 ltac:(lia)) as D1.
  pose proof (Z.mod_pos_bound seconds 3600 ltac:(lia)) as B1.
  pose proof (Z.div_mod (seconds mod 3600) 60 ltac:(lia)) as D2.
  pose proof (Z.mod_pos_bound (seconds mod 3600) 60 ltac:(lia)) as B2.
  pose proof (Z.mod_pos_bound seconds 60 ltac:(lia)) as B3.
  assert (M : (seconds mod 3600) mod 60 = seconds mod 60).
  { replace 3600 with (60 * 60) by lia.
    rewrite Z.rem_mul_r by lia.
    rewrite Z.add_mod, Z.mul_comm, Z.mod_mul by lia.
    rewrite Z.add_0_r, !Z.mod_mod by lia; reflexivity. }
  assert (H0 : 0 <= seconds / 3600) by (apply Z.div_pos; lia).
  assert (M0 : 0 <= seconds mod 3600 / 60 < 60).
  { split; [apply Z.div_pos; lia|apply Z.div_lt_upper_bound; lia]. }
  split; [lia|split; [lia|split; [lia|split; [lia|]]]].
  assert (E : formatUptime seconds =
      String.concat " "
        (uptime_component (seconds / 3600) "h" ++
         uptime_component (seconds mod 3600 / 60) "m" ++
         (if (0 <? seconds mod 60) || (seconds =? 0)
          then [(show_Z (seconds mod 60) ++ "s")%string] else []))%list).
  { unfold formatUptime, uptime_component, push.
    rewrite !Z.rem_mod_nonneg by lia.
    destruct (0 <? seconds / 3600) eqn:Hh;
      destruct (0 <? seconds mod 3600 / 60) eqn:Hm;
      destruct (0 <? seconds mod 60) eqn:Hs; simpl; try reflexivity.
    all: try (replace (seconds =? 0) with false
                by (symmetry; apply Z.eqb_neq; intros ->; discriminate); reflexivity).
    apply Z.ltb_ge in Hh, Hm, Hs.
    replace (seconds =? 0) with true by (symmetry; apply Z.eqb_eq; lia).
    reflexivity. }
  split; [exact E|].
  rewrite E; unfold uptime_component.
  destruct (0 <? seconds / 3600) eqn:Hh; cbn [app].
  { apply concat_nonempty, show_Z_append_nonempty; discriminate. }
  destruct (0 <? seconds mod 3600 / 60) eqn:Hm; cbn [app].
  { apply concat_nonempty, show_Z_append_nonempty; discriminate. }
  destruct (0 <? seconds mod 60) eqn:Hs; cbn [orb].
  { apply concat_nonempty, show_Z_append_nonempty; discriminate. }
  apply Z.ltb_ge in Hh, Hm, Hs.
  replace (seconds =? 0) with true by (symmetry; apply Z.eqb_eq; lia).
  apply concat_nonempty, show_Z_append_nonempty; discriminate.
Qed.

Lemma formatUptime_components_witness :
  formatUptime 8130 = "2h 15m 30s" /\
  (exists h m sec,
     8130 = 3600 * h + 60 * m + sec /\ 0 <= h /\ 0 <= m < 60 /\ 0 <= sec < 60 /\
     formatUptime 8130 =
       String.concat " "
         (uptime_component h "h" ++ uptime_component m "m" ++
          (if (0 <? sec) || (8130 =? 0) then [(show_Z sec ++ "s")%string] else []))%list /\
     formatUptime 8130 <> EmptyString).
Proof.
  assert (P : 0 <= 8130 <= MAX_SAFE_INTEGER) by (unfold MAX_SAFE_INTEGER; lia).
  pose proof (formatUptime_components P) as Shown.
  split; [|exact Shown].
  destruct Shown as (h & m & sec & Sum & Hh & Hm & Hs & Text & _).
  assert (h = 2 /\ m = 15 /\ sec = 30) as (Eh & Em & Es) by lia.
  rewrite Eh, Em, Es in Text; exact Text.
Defined.

(** *** The tokenizer of [validateStartCommand] *)

Lemma push_current_nonempty (parts : list string) (current : string) :
  Forall (fun p => p <> EmptyString) parts ->
  Forall (fun p => p <> EmptyString) (Security.push_current parts current).
Proof.
  intros H; unfold Security.push_current, push.
  destruct current; simpl; [exact H|].
  apply Forall_app; split; [exact H|].
  constructor; [discriminate|constructor].
Qed.

Lemma parse_loop_nonempty (rest : string) :
  forall (parts : list string) (current : string) (inQuotes : bool)
         (quoteChar : option ascii),
  Forall (fun p => p <> EmptyString) parts ->
  Forall (fun p => p <> EmptyString)
         (Security.parse_loop rest parts current inQuotes quoteChar).
Proof.
  induction rest as [|c rest IH]; intros parts current inQuotes quoteChar H; simpl.
  - apply push_current_nonempty, H.
  - repeat match goal with
           | |- context [if ?b then _ else _] => destruct b
           end; apply IH; auto using push_current_nonempty.
Qed.

(** X2.  The tokenizer of [validateStartCommand] never yields an empty
    part: runs of spaces and empty quoted stretches produce nothing. *)
Theorem parse_command_parts_nonempty : forall startCommand : string,
  Forall (fun p => p <> EmptyString) (Security.parse_command startCommand).
Proof.
  intros startCommand; apply parse_loop_nonempty; constructor.
Qed.

Lemma has_space_append (a b : string) :
  has_space (a ++ b) = has_space a || has_space b.
Proof.
  unfold has_space; induction a as [|c a IH]; simpl; [reflexivity|].
  rewrite IH, orb_assoc; reflexivity.
Qed.

Lemma fold_append_app (l : list string) (x : string) :
  fold_right append EmptyString (l ++ [x]) = fold_right append EmptyString l ++ x.
Proof.
  induction l as [|y l IH]; simpl.
  - destruct x; simpl; [reflexivity|]. f_equal.
    clear; induction x; simpl; congruence.
  - rewrite IH.
    clear; induction y; simpl; congruence.
Qed.

Lemma append_assoc (a b c : string) : (a ++ b) ++ c = a ++ b ++ c.
Proof. induction a; simpl; congruence. Qed.

Lemma append_empty_r (a : string) : a ++ EmptyString = a.
Proof. induction a; simpl; congruence. Qed.

Lemma fold_push_current (parts : list string) (current : string) :
  fold_right append EmptyString (Security.push_current parts current) =
  fold_right append EmptyString parts ++ current.
Proof.
  unfold Security.push_current, push; destruct current; simpl.
  - rewrite append_empty_r; reflexivity.
  - apply fold_append_app.
Qed.

Lemma push_current_no_space (parts : list string) (current : string) :
  Forall (fun p => has_space p = false) parts -> has_space current = false ->
  Forall (fun p => has_space p = false) (Security.push_current parts current).
Proof.
  intros H C; unfold Security.push_current, push.
  destruct (Nat.eqb (String.length current) 0); [exact H|].
  apply Forall_app; split; [exact H|constructor; [exact C|constructor]].
Qed.

Lemma parse_loop_unquoted (rest : string) :
  forall (parts : list string) (current : string),
  Security.string_exists Security.is_quote rest = false ->
  Forall (fun p => has_space p = false) parts ->
  has_space current = false ->
  let result := Security.parse_loop rest parts current false None in
  Forall (fun p => has_space p = false) result /\
  fold_right append EmptyString result =
    fold_right append EmptyString parts ++ current ++ drop_spaces rest.
Proof.
  induction rest as [|c rest IH]; intros parts current Q P C; simpl in *.
  - split; [apply push_current_no_space; assumption|].
    rewrite fold_push_current, append_empty_r; reflexivity.
  - apply orb_false_iff in Q; destruct Q as (Qc & Qr).
    rewrite Qc; simpl.
    destruct (Ascii.eqb c " ") eqn:Sp; simpl.
    + destruct (IH (Security.push_current parts current) EmptyString Qr) as (F & E).
      * apply push_current_no_space; assumption.
      * reflexivity.
      * split; [exact F|].
        rewrite E, fold_push_current; simpl; rewrite append_assoc; reflexivity.
    + destruct (IH parts (current ++ String c EmptyString) Qr P) as (F & E).
      * rewrite has_space_append, C; unfold has_space; simpl; rewrite Sp; reflexivity.
      * split; [exact F|].
        rewrite E, append_assoc; simpl; reflexivity.
Qed.

Lemma push_current_app (before parts : list string) (current : string) :
  Security.push_current (before ++ parts) current =
  (before ++ Security.push_current parts current)%list.
Proof.
  unfold Security.push_current, push.
  destruct (Nat.eqb (String.length current) 0); [reflexivity|].
  rewrite app_assoc; reflexivity.
Qed.

(** Parts already cut are not touched again. *)
Lemma parse_loop_app (rest : string) :
  forall (before parts : list string) (current : string) (inQuotes : bool)
         (quoteChar : option ascii),
  Security.parse_loop rest (before ++ parts) current inQuotes quoteChar =
  (before ++ Security.parse_loop rest parts current inQuotes quoteChar)%list.
Proof.
  induction rest as [|c rest IH]; intros before parts current inQuotes quoteChar; simpl.
  - apply push_current_app.
  - destruct (Security.is_quote c && negb inQuotes); [apply IH|].
    destruct (match quoteChar with Some q => Ascii.eqb c q | None => false end && inQuotes);
      [apply IH|].
    destruct (Ascii.eqb c " " && negb inQuotes); [|apply IH].
    rewrite push_current_app; apply IH.
Qed.

(** Outside quotes a space ends what came before it. *)
Lemma parse_loop_space (a : string) :
  forall (parts : list string) (current b : string),
  Security.string_exists Security.is_quote a = false ->
  Security.parse_loop (a ++ String " " b) parts current false None =
  Security.parse_loop b (Security.parse_loop a parts current false None)
    EmptyString false None.
Proof.
  induction a as [|c a IH]; intros parts current b Q; simpl in *; [reflexivity|].
  apply orb_false_iff in Q; destruct Q as (Qc & Qa).
  rewrite Qc; simpl.
  destruct (Ascii.eqb c " "); simpl; apply IH; exact Qa.
Qed.

(** Without quotes and spaces nothing is cut. *)
Lemma parse_loop_word (w : string) :
  forall (parts : list string) (current : string),
  Security.string_exists Security.is_quote w = false ->
  has_space w = false ->
  Security.parse_loop w parts current false None =
  Security.push_current parts (current ++ w).
Proof.
  induction w as [|c w IH]; intros parts current Q S; simpl in *.
  - rewrite append_empty_r; reflexivity.
  - apply orb_false_iff in Q; destruct Q as (Qc & Qw).
    unfold has_space in S; simpl in S.
    apply orb_false_iff in S; destruct S as (Sc & Sw).
    rewrite Qc, Sc; simpl.
    rewrite (IH parts (current ++ String c EmptyString) Qw Sw), append_assoc.
    reflexivity.
Qed.

Lemma string_exists_append (p : ascii -> bool) (a b : string) :
  Security.string_exists p (a ++ b) =
  Security.string_exists p a || Security.string_exists p b.
Proof.
  induction a as [|c a IH]; simpl; [reflexivity|].
  rewrite IH, orb_assoc; reflexivity.
Qed.

(** X3.  On a command without quote characters the tokenizer splits at the
    spaces and at nothing else.  It cuts at every space: the parts of
    [a ++ " " ++ b] are the parts of [a] followed by the parts of [b].  It
    cuts nowhere else: a command without a space that is not empty is its
    own single part.  Hence no part contains a space, and the parts put
    together are the command with its spaces removed. *)
Theorem parse_command_unquoted : forall startCommand : string,
  Security.string_exists Security.is_quote startCommand = false ->
  Forall (fun p => has_space p = false) (Security.parse_command startCommand) /\
  fold_right append EmptyString (Security.parse_command startCommand) =
    drop_spaces startCommand /\
  (forall a b : string,
   startCommand = a ++ " " ++ b ->
   Security.parse_command startCommand =
     (Security.parse_command a ++ Security.parse_command b)%list) /\
  (has_space startCommand = false ->
   startCommand <> EmptyString ->
   Security.parse_command startCommand = [startCommand]).
Proof.
  intros startCommand Q.
  destruct (@parse_loop_unquoted startCommand [] EmptyString Q) as (F & E);
    [constructor|reflexivity|].
  split; [exact F|split; [exact E|split]].
  - intros a b Cut; subst startCommand.
    rewrite string_exists_append in Q.
    apply orb_false_iff in Q; destruct Q as (Qa & _).
    unfold Security.parse_command.
    change (a ++ " " ++ b) with (a ++ String " " b).
    rewrite (parse_loop_space a [] EmptyString b Qa).
    rewrite <- (app_nil_r (Security.parse_loop a [] EmptyString false None)) at 1.
    apply parse_loop_app.
  - intros NoSpace NotEmpty.
    unfold Security.parse_command.
    rewrite (parse_loop_word startCommand [] EmptyString Q NoSpace); simpl.
    unfold Security.push_current, push.
    destruct startCommand; [contradiction NotEmpty; reflexivity|reflexivity].
Qed.

Lemma parse_command_unquoted_witness :
  Security.parse_command "PalServer.exe  -port=8211" =
    (Security.parse_command "PalServer.exe" ++ Security.parse_command " -port=8211")%list /\
  Security.parse_command "PalServer.exe" = ["PalServer.exe"] /\
  fold_right append EmptyString (Security.parse_command "PalServer.exe  -port=8211") =
    "PalServer.exe-port=8211".
Proof.
  destruct (@parse_command_unquoted "PalServer.exe  -port=8211" eq_refl)
    as (_ & Joined & Cut & _).
  destruct (@parse_command_unquoted "PalServer.exe" eq_refl) as (_ & _ & _ & Whole).
  split; [exact (Cut "PalServer.exe" " -port=8211" eq_refl)|].
  split; [apply Whole; [reflexivity|discriminate]|exact Joined].
Defined.

(** *** [validateCommandArgument] and [validateStartCommand] *)

Lemma at_some_position_head (p : string -> bool) (q : ascii -> bool) :
  (forall t, p t = true -> exists c rest, t = String c rest /\ q c = true) ->
  forall s, Security.at_some_position p s = true -> Security.string_exists q s = true.
Proof.
  intros Head s; induction s as [|c s IH]; simpl; intros H.
  - rewrite orb_false_r in H.
    destruct (Head _ H) as (c & rest & E & _); discriminate.
  - apply orb_true_iff in H; destruct H as [H|H].
    + destruct (Head _ H) as (d & rest & E & Q); inversion E; subst.
      rewrite Q; reflexivity.
    + rewrite (IH H), orb_true_r; reflexivity.
Qed.

Lemma delimited_head (open1 : ascii) (open2 : option ascii) (close : ascii) :
  Security.is_shell_meta open1 = true ->
  forall t, Security.delimited_here open1 open2 close t = true ->
  exists c rest, t = String c rest /\ Security.is_shell_meta c = true.
Proof.
  intros M t H; destruct t as [|c rest]; simpl in H; [discriminate|].
  apply andb_true_iff in H; destruct H as (E & _).
  apply Ascii.eqb_eq in E; subst; eauto.
Qed.

Lemma delimited_never_alone (arg : string) (o1 : ascii) (o2 : option ascii) (cl : ascii) :
  Security.is_shell_meta o1 = true ->
  Security.string_exists Security.is_shell_meta arg = false ->
  Security.at_some_position (Security.delimited_here o1 o2 cl) arg = false.
Proof.
  intros Meta Clean.
  destruct (Security.at_some_position (Security.delimited_here o1 o2 cl) arg) eqn:D;
    [|reflexivity].
  apply (at_some_position_head _ Security.is_shell_meta
           (delimited_head o1 o2 cl Meta)) in D.
  congruence.
Qed.

Lemma accepted_argument_clean (arg : string) :
  Security.validateCommandArgument arg = Normal tt ->
  string_length_Z arg <= 1024 /\
  Security.string_exists Security.is_shell_meta arg = false /\
  Security.at_some_position Security.exec_flag_here arg = false.
Proof.
  unfold Security.validateCommandArgument, Security.argument_patterns.
  destruct (1024 <? string_length_Z arg) eqn:L; [discriminate|].
  apply Z.ltb_ge in L.
  cbn [existsb].
  destruct (Security.string_exists Security.is_shell_meta arg); [discriminate|].
  destruct (Security.at_some_position Security.exec_flag_here arg); [discriminate|].
  auto.
Qed.

(** X4.  [validateCommandArgument] accepts an argument exactly when it has
    at most 1024 characters, contains none of the shell metacharacters
    [; & | ` $ ( )] and no command-execution flag followed by white space.
    The last three of its five patterns can never be the ones that reject:
    whatever they match contains a metacharacter. *)
Theorem validateCommandArgument_accepts : forall arg : string,
  Security.validateCommandArgument arg = Normal tt <->
  string_length_Z arg <= 1024 /\
  Security.string_exists Security.is_shell_meta arg = false /\
  Security.at_some_position Security.exec_flag_here arg = false.
Proof.
  intros arg; split; [apply accepted_argument_clean|].
  intros (L & M1 & M2).
  unfold Security.validateCommandArgument, Security.argument_patterns.
  replace (1024 <? string_length_Z arg) with false by (symmetry; apply Z.ltb_ge; lia).
  cbn [existsb]; rewrite M1, M2.
  rewrite !delimited_never_alone by (reflexivity || exact M1).
  reflexivity.
Qed.

Lemma validate_arguments_all (args : list string) :
  Security.validate_arguments args = Normal tt ->
  Forall (fun arg => Security.validateCommandArgument arg = Normal tt) args.
Proof.
  induction args as [|arg args IH]; simpl; intros H; [constructor|].
  destruct (Security.validateCommandArgument arg) as [[]|e] eqn:E; [|discriminate].
  constructor; auto.
Qed.

(** X5.  What [validateStartCommand] returns is the tokenized command: the
    executable is the first part and passed the path check, and every
    argument is non-empty, has at most 1024 characters and contains no shell
    metacharacter. *)
Theorem validateStartCommand_result :
  forall (validateExecutablePath : string -> Completion unit)
         (startCommand executable : string) (args : list string),
  Security.validateStartCommand validateExecutablePath startCommand =
    Normal (executable, args) ->
  Security.parse_command startCommand = executable :: args /\
  1 <= string_length_Z startCommand <= 2048 /\
  executable <> EmptyString /\
  validateExecutablePath executable = Normal tt /\
  Forall (fun arg => arg <> EmptyString /\
                     string_length_Z arg <= 1024 /\
                     Security.string_exists Security.is_shell_meta arg = false) args.
Proof.
  intros vep cmd exe args H; unfold Security.validateStartCommand in H.
  destruct ((string_length_Z cmd =? 0) || (2048 <? string_length_Z cmd)) eqn:L;
    [discriminate|].
  apply orb_false_iff in L; destruct L as (L0 & L1).
  apply Z.eqb_neq in L0; apply Z.ltb_ge in L1.
  assert (NE : Forall (fun p => p <> EmptyString) (Security.parse_command cmd))
    by (apply parse_loop_nonempty; constructor).
  destruct (Security.parse_command cmd) as [|x parts] eqn:P; [discriminate|].
  destruct (vep x) as [[]|e] eqn:V; [|discriminate].
  destruct (Security.validate_arguments parts) as [[]|e] eqn:A; [|discriminate].
  inversion H; subst.
  inversion NE as [|? ? NEx NEargs]; subst.
  split; [reflexivity|].
  split; [unfold string_length_Z in *; lia|].
  split; [exact NEx|split; [exact V|]].
  apply validate_arguments_all in A.
  rewrite Forall_forall in *; intros arg In.
  destruct (accepted_argument_clean arg (A arg In)) as (Len & Meta & _).
  auto.
Qed.

Lemma validateStartCommand_result_witness :
  Security.parse_command "PalServer.exe -port=8211 '-name=My Server'" =
  ["PalServer.exe"; "-port=8211"; "-name=My Server"].
Proof.
  destruct (@validateStartCommand_result (fun _ => Normal tt)
              "PalServer.exe -port=8211 '-name=My Server'"
              "PalServer.exe" ["-port=8211"; "-name=My Server"] eq_refl) as (Parsed & _).
  exact Parsed.
Defined.

(** *** Quoting for PowerShell *)

(** X6.  The quoting of a PowerShell argument loses nothing: two arguments
    with the same quoted form are the same argument. *)
Theorem escape_arg_injective : forall a b : string,
  escape_arg a = escape_arg b -> a = b.
Proof.
  assert (D : forall a b, double_quotes a = double_quotes b -> a = b).
  { induction a as [|c a IH]; intros [|d b] H; simpl in H.
    - reflexivity.
    - destruct (Ascii.eqb d "'"); discriminate.
    - destruct (Ascii.eqb c "'"); discriminate.
    - destruct (Ascii.eqb c "'") eqn:C, (Ascii.eqb d "'") eqn:E.
      + inversion H; subst; f_equal; auto.
      + inversion H; subst; congruence.
      + inversion H; subst; congruence.
      + inversion H; subst; f_equal; auto. }
  intros a b H; unfold escape_arg in H; simpl in H.
  inversion H as [H1].
  assert (C : forall x y t, x ++ t = y ++ t -> x = y).
  { intros x y t E.
    assert (A : forall u v, String.length (u ++ v) = (String.length u + String.length v)%nat).
    { induction u; simpl; intros; [reflexivity|f_equal; auto]. }
    assert (L : String.length x = String.length y).
    { apply (f_equal String.length) in E; rewrite !A in E; lia. }
    revert y E L; induction x as [|c x IHx]; intros [|d y] E L; simpl in *;
      try discriminate; [reflexivity|].
    inversion E; subst; f_equal; apply IHx; [assumption|lia]. }
  apply D, (C _ _ "'"), H1.
Qed.

Lemma double_quotes_plain (s : string) :
  string_forall is_service_char s = true -> double_quotes s = s.
Proof.
  induction s as [|c s IH]; simpl; intros H; [reflexivity|].
  apply andb_true_iff in H; destruct H as (Hc & Hs).
  destruct (Ascii.eqb c "'") eqn:Q.
  - apply Ascii.eqb_eq in Q; subst; discriminate.
  - rewrite (IH Hs); reflexivity.
Qed.

(** X7.  A service name that [validateServiceName] accepts has 1 to 256
    characters, all of them letters, digits, hyphens or underscores, and is
    not a reserved device name in any casing.  Quoting leaves such a name as
    it is, so the command handed to PowerShell is
    [Start-Service '-Name' '<name>'] with the name verbatim. *)
Theorem validateServiceName_accepted : forall name : string,
  validateServiceName name = Normal true ->
  1 <= string_length_Z name <= 256 /\
  string_forall is_service_char name = true /\
  ~ In (toLowerCase name) reservedNames /\
  "Start-Service" ++ " " ++ String.concat " " (map escape_arg ["-Name"; name]) =
    "Start-Service '-Name' '" ++ name ++ "'".
Proof.
  intros name H; unfold validateServiceName in H.
  destruct ((string_length_Z name =? 0) || (256 <? string_length_Z name)) eqn:L;
    [discriminate|].
  apply orb_false_iff in L; destruct L as (L0 & L1).
  apply Z.eqb_neq in L0; apply Z.ltb_ge in L1.
  destruct (string_forall is_service_char name) eqn:F; [|discriminate].
  destruct (existsb (String.eqb (toLowerCase name)) reservedNames) eqn:R; [discriminate|].
  split; [unfold string_length_Z in *; lia|].
  split; [reflexivity|].
  split.
  - intros I.
    assert (E : existsb (String.eqb (toLowerCase name)) reservedNames = true).
    { apply existsb_exists; exists (toLowerCase name); split;
        [exact I|apply String.eqb_refl]. }
    congruence.
  - cbn [map]; unfold escape_arg; rewrite (double_quotes_plain name F); reflexivity.
Qed.

Lemma validateServiceName_accepted_witness :
  "Start-Service" ++ " " ++ String.concat " " (map escape_arg ["-Name"; "PalServer"]) =
  "Start-Service '-Name' 'PalServer'".
Proof.
  destruct (@validateServiceName_accepted "PalServer" eq_refl) as (_ & _ & _ & Line).
  exact Line.
Defined.

Lemma escape_arg_injective_witness : "it's" = "it's".
Proof. exact (@escape_arg_injective "it's" "it's" eq_refl). Defined.

(* ------------------------------------------------------------------ *)
(** *** What is launched was validated *)

(** X24.  [startServer] launches nothing that did not pass validation.  The
    launch block either spawns nothing and throws, or spawns exactly one
    process: for a configured service, PowerShell with the command line
    [Start-Service '-Name' '<name>'] and a name [validateServiceName]
    accepted; otherwise the executable and arguments that
    [validateStartCommand] cut out of the start command, the executable
    having passed the path check and no argument holding a shell
    metacharacter.  The start command is not looked at when a service is
    configured. *)
Theorem launch_spawns_only_validated :
  forall (W : Type) (host : Host W) (config : Config)
         (validateExecutablePath : string -> Completion unit)
         (s s1 : St W) (r : option (Completion unit)),
  (forall command, validateStartCommand host command =
                   Security.validateStartCommand validateExecutablePath command) ->
  launchConfigured host config s = (r, s1) ->
  (trace s1 = trace s /\ exists e, r = Thr e) \/
  (exists name,
     serviceName config = Some name /\
     validateServiceName name = Normal true /\
     trace s1 =
       EvSpawn "powershell.exe"
         (powershell_argv ("Start-Service '-Name' '" ++ name ++ "'")) :: trace s) \/
  (exists command executable args,
     truthy_opt (serviceName config) = false /\
     startCommand config = Some command /\
     Security.parse_command command = executable :: args /\
     validateExecutablePath executable = Normal tt /\
     Forall (fun arg => Security.string_exists Security.is_shell_meta arg = false) args /\
     trace s1 = EvSpawn executable args :: trace s).
Proof.
  intros W host config vep s s1 r Sec H; unfold launchConfigured in H.
  destruct (truthy_opt (serviceName config)) eqn:Sv.
  - destruct (serviceName config) as [name|] eqn:Nm; [|discriminate]; simpl in H.
    unfold bind, lift in H.
    destruct (validateServiceName name) as [b|e] eqn:V;
      [|inversion H; subst; left; eauto].
    right; left; exists name.
    assert (Vt : validateServiceName name = Normal true).
    { unfold validateServiceName in V |- *.
      repeat match type of V with
             | (if ?c then _ else _) = _ => destruct c; [discriminate|]
             end.
      reflexivity. }
    assert (F : string_forall is_service_char name = true).
    { unfold validateServiceName in Vt.
      destruct ((string_length_Z name =? 0) || (256 <? string_length_Z name));
        [discriminate|].
      destruct (string_forall is_service_char name); [reflexivity|discriminate]. }
    split; [reflexivity|split; [exact Vt|]].
    unfold runSecurePowerShell in H; simpl in H.
    unfold escape_arg in H; rewrite (double_quotes_plain name F) in H; simpl in H.
    destruct (spawn_powershell host _ (world s)) as [[outcome ms] w].
    destruct outcome as [code stdout stderr|e|e];
      [destruct (code =? 0)|..]; inversion H; subst; reflexivity.
  - destruct (truthy_opt (startCommand config)) eqn:Cm.
    + destruct (startCommand config) as [command|] eqn:Sc; [|discriminate]; simpl in H.
      unfold bind, lift in H; rewrite Sec in H.
      destruct (Security.validateStartCommand vep command) as [[exe args]|e] eqn:V;
        [|inversion H; subst; left; eauto].
      right; right; exists command, exe, args.
      unfold Security.validateStartCommand in V.
      destruct ((string_length_Z command =? 0) || (2048 <? string_length_Z command));
        [discriminate|].
      destruct (Security.parse_command command) as [|x parts] eqn:P; [discriminate|].
      destruct (vep x) as [[]|e] eqn:Vx; [|discriminate].
      destruct (Security.validate_arguments parts) as [[]|e] eqn:A; [|discriminate].
      inversion V; subst.
      split; [reflexivity|split; [reflexivity|split; [reflexivity|split; [exact Vx|]]]].
      split.
      * apply validate_arguments_all in A.
        rewrite Forall_forall in *; intros arg In.
        destruct (accepted_argument_clean arg (A arg In)) as (_ & Meta & _).
        exact Meta.
      * unfold runSecureDetached in H; simpl in H.
        destruct (spawn_detached host exe args _ (world s)) as (threw & w).
        destruct threw; inversion H; subst; reflexivity.
    + unfold throw in H; inversion H; subst; left; eauto.
Qed.

(* ------------------------------------------------------------------ *)
(** *** The configuration loader *)

Lemma validatePositiveInteger_bounds (name value : string) (min max n : Z) :
  Loader.validatePositiveInteger name value min max = Loader.Valid n ->
  Loader.parseInt value = Some n /\ min <= n <= max.
Proof.
  unfold Loader.validatePositiveInteger.
  destruct (Loader.parseInt value) as [parsed|]; [|discriminate].
  destruct (parsed <? min) eqn:Lo; [discriminate|].
  destruct (max <? parsed) eqn:Hi; [discriminate|].
  intros H; inversion H; subst.
  apply Z.ltb_ge in Lo; apply Z.ltb_ge in Hi; split; [reflexivity|lia].
Qed.

Lemma validateRequired_nonempty (name : string) (value : option string) (v : string) :
  Loader.validateRequired name value = Loader.Valid v ->
  v <> EmptyString /\ exists raw, value = Some raw /\ v = Loader.trim raw.
Proof.
  unfold Loader.validateRequired.
  destruct value as [raw|]; [|discriminate].
  destruct (String.eqb raw "") eqn:E1; [discriminate|]; simpl.
  destruct (String.eqb (Loader.trim raw) "") eqn:E2; [discriminate|].
  intros H; inversion H; subst; split; [|eauto].
  intros C; rewrite C in E2; discriminate.
Qed.

Lemma load_fields (env : Loader.Env) (settings : Loader.Settings) :
  Loader.load env = Loader.Valid settings ->
  let c := Loader.settings_config settings in
  Loader.validateRequired "PAL_REST_URL" (env "PAL_REST_URL") = Loader.Valid (apiUrl c) /\
  Loader.validatePositiveInteger "START_TIMEOUT_MS"
    (Loader.or_default (env "START_TIMEOUT_MS") "120000") 5000 600000
    = Loader.Valid (startTimeoutMs c) /\
  Loader.validatePositiveInteger "POLL_INTERVAL_MS"
    (Loader.or_default (env "POLL_INTERVAL_MS") "3000") 1000 60000
    = Loader.Valid (pollIntervalMs c) /\
  Loader.validatePositiveInteger "SAVE_WORLD_DELAY_MS"
    (Loader.or_default (env "SAVE_WORLD_DELAY_MS") "1500") 500 10000
    = Loader.Valid (saveWorldDelayMs c) /\
  Loader.validatePositiveInteger "SHUTDOWN_DELAY_SECONDS"
    (Loader.or_default (env "SHUTDOWN_DELAY_SECONDS") "2") 0 30
    = Loader.Valid (shutdownDelaySeconds c) /\
  Loader.validatePositiveInteger "MONITOR_INTERVAL_MS"
    (Loader.or_default (env "MONITOR_INTERVAL_MS") "600000") 60000 3600000
    = Loader.Valid (Loader.monitoring_intervalMs settings) /\
  Loader.validatePositiveInteger "EMPTY_CHECK_THRESHOLD"
    (Loader.or_default (env "EMPTY_CHECK_THRESHOLD") "2") 1 10
    = Loader.Valid (emptyCheckThreshold c) /\
  serviceName c = Loader.validateOptionalString (env "SERVICE_NAME") /\
  startCommand c = Loader.validateOptionalString (env "START_CMD") /\
  truthy_opt (serviceName c) || truthy_opt (startCommand c) = true.
Proof.
  unfold Loader.load, Loader.and_then; intros H.
  repeat match type of H with
         | match ?x with Loader.Valid _ => _ | Loader.Invalid _ => _ end = _ =>
             let E := fresh "E" in destruct x eqn:E; [|discriminate]
         end.
  match type of H with
  | (if ?c then _ else _) = _ => destruct c eqn:L; [discriminate|]
  end.
  inversion H; subst; simpl.
  repeat (split; [assumption || reflexivity|]).
  apply andb_false_iff in L.
  destruct (truthy_opt (Loader.validateOptionalString (env "SERVICE_NAME")));
    [reflexivity|].
  destruct (truthy_opt (Loader.validateOptionalString (env "START_CMD")));
    [reflexivity|].
  destruct L; discriminate.
Qed.

(** X25.  A configuration that loads is within the documented bounds: start
    timeout 5 s to 10 min, poll interval 1 s to 1 min, save delay 0.5 s to
    10 s, shutdown delay 0 to 30 s, monitor interval 1 min to 1 h, threshold
    1 to 10, each the integer [parseInt] reads from the variable or from its
    default when the variable is unset or empty; the API address is not
    empty; and a service name or a start command is set. *)
Theorem load_within_bounds :
  forall (env : Loader.Env) (settings : Loader.Settings),
  Loader.load env = Loader.Valid settings ->
  let c := Loader.settings_config settings in
  5000 <= startTimeoutMs c <= 600000 /\
  1000 <= pollIntervalMs c <= 60000 /\
  500 <= saveWorldDelayMs c <= 10000 /\
  0 <= shutdownDelaySeconds c <= 30 /\
  60000 <= Loader.monitoring_intervalMs settings <= 3600000 /\
  1 <= emptyCheckThreshold c <= 10 /\
  Loader.parseInt (Loader.or_default (env "START_TIMEOUT_MS") "120000")
    = Some (startTimeoutMs c) /\
  Loader.parseInt (Loader.or_default (env "POLL_INTERVAL_MS") "3000")
    = Some (pollIntervalMs c) /\
  Loader.parseInt (Loader.or_default (env "EMPTY_CHECK_THRESHOLD") "2")
    = Some (emptyCheckThreshold c) /\
  Loader.parseInt (Loader.or_default (env "SAVE_WORLD_DELAY_MS") "1500")
    = Some (saveWorldDelayMs c) /\
  Loader.parseInt (Loader.or_default (env "SHUTDOWN_DELAY_SECONDS") "2")
    = Some (shutdownDelaySeconds c) /\
  Loader.parseInt (Loader.or_default (env "MONITOR_INTERVAL_MS") "600000")
    = Some (Loader.monitoring_intervalMs settings) /\
  apiUrl c <> EmptyString /\
  truthy_opt (serviceName c) || truthy_opt (startCommand c) = true.
Proof.
  intros env settings H c.
  destruct (load_fields env H) as (U & T & P & Sv & Sd & Mi & Th & _ & _ & L).
  fold c in U, T, P, Sv, Sd, Th, L.
  apply validatePositiveInteger_bounds in T, P, Sv, Sd, Mi, Th.
  apply validateRequired_nonempty in U.
  intuition.
Qed.

(** X26.  Under any configuration that loads, one [startServer] sends at
    most 601 requests to the API, all of them liveness polls, and spawns at
    most one process: the poll interval is at least a second and the start
    timeout at most ten minutes. *)
Theorem loaded_config_bounds_start_traffic :
  forall (env : Loader.Env) (settings : Loader.Settings)
         (W : Type) (host : Host W) (fuel : nat) (s s1 : St W)
         (r : option (Completion StartResult)),
  Loader.load env = Loader.Valid settings ->
  startServer host (Loader.settings_config settings) fuel s = (r, s1) ->
  exists (polls : nat) (spawned : list Event),
    trace s1 =
      (repeat (info_request (Loader.settings_config settings)) polls ++ spawned
       ++ info_request (Loader.settings_config settings) :: trace s)%list /\
    (polls <= 600)%nat /\
    (List.length spawned <= 1)%nat /\
    forallb is_spawn spawned = true.
Proof.
  intros env settings W host fuel s s1 r L H.
  destruct (load_fields env L) as (_ & T & P & _).
  apply validatePositiveInteger_bounds in T, P.
  destruct T as (_ & T); destruct P as (_ & P).
  assert (Iv : 1 <= pollIntervalMs (Loader.settings_config settings) <= 2147483647) by lia.
  destruct (@startServer_traffic W host (Loader.settings_config settings) fuel s s1 r Iv H)
    as (n & spawned & Tr & Len & All & Bound).
  exists n, spawned; split; [exact Tr|split; [|split; [exact Len|exact All]]].
  destruct Bound as [Z0|Bound]; [subst; lia|].
  assert (1000 * (Z.of_nat n - 1) < 600000) by nia.
  lia.
Qed.

Lemma load_within_bounds_witness :
  Loader.load test_env = Loader.Valid test_settings /\
  5000 <= startTimeoutMs (Loader.settings_config test_settings) <= 600000 /\
  Loader.parseInt " 6000ms" = Some 6000.
Proof.
  assert (Loaded : Loader.load test_env = Loader.Valid test_settings)
    by (vm_compute; reflexivity).
  destruct (@load_within_bounds test_env test_settings Loaded)
    as (Timeout & _ & _ & _ & _ & _ & Parsed & _).
  split; [exact Loaded|split; [exact Timeout|exact Parsed]].
Defined.

(* ================================================================== *)
(** ** Concrete runs of the further properties *)

Lemma runSecurePowerShell_whitelist_witness :
  runSecurePowerShell scripted_host "Invoke-Expression" ["calc"]
    (test_state [] UNKNOWN 0 false) =
  (Thr (newError "PowerShell command not allowed"), test_state [] UNKNOWN 0 false).
Proof.
  exact (proj1 (@runSecurePowerShell_whitelist Script scripted_host
                  "Invoke-Expression" ["calc"] (test_state [] UNKNOWN 0 false)) eq_refl).
Defined.

Lemma waitFor_outcomes_witness :
  3000 <= now (snd (waitFor scripted_host 10 (isUp scripted_host test_config) 3000 1000
                      (test_state [] UNKNOWN 0 false))).
Proof.
  pose (s := test_state [] UNKNOWN 0 false).
  pose (s1 := snd (waitFor scripted_host 10 (isUp scripted_host test_config) 3000 1000 s)).
  assert (Run : waitFor scripted_host 10 (isUp scripted_host test_config) 3000 1000 s =
                (Ret false, s1)) by (vm_compute; reflexivity).
  destruct (@waitFor_outcomes Script scripted_host 10 (isUp scripted_host test_config)
              3000 1000 s s1 (Ret false) Run) as (_ & Late & _).
  exact (Late eq_refl).
Defined.

Lemma startServer_outcomes_witness :
  (exists s4,
     fst (isUp scripted_host test_config s4) = Ret true /\
     now s4 < 5000) /\
  (exists cause s2,
     isUp scripted_host test_config (test_state [] KNOWN_DOWN 0 false) = (Ret false, s2) /\
     newError "Server did not come up in time" =
       mkError (err_name cause) (err_message cause)).
Proof.
  split.
  - pose (s := test_state script_comes_up UNKNOWN 0 false).
    pose (s1 := snd (startServer scripted_host test_config 10 s)).
    assert (Run : startServer scripted_host test_config 10 s =
                  (Ret (mkStartResult true None), s1)) by (vm_compute; reflexivity).
    destruct (@startServer_outcomes Script scripted_host test_config 10 s s1) as (Res & _).
    destruct (Res _ Run) as [(No & _)|(_ & s2 & s3 & s4 & Down & Launch & Up & Before)];
      [discriminate No|].
    exists s4; split; [rewrite Up; reflexivity|].
    assert (N3 : now s3 = 0).
    { assert (N2 : s2 = snd (isUp scripted_host test_config s))
        by (rewrite Down; reflexivity).
      assert (E3 : s3 = snd (launchConfigured scripted_host test_config s2))
        by (rewrite Launch; reflexivity).
      rewrite E3, N2; reflexivity. }
    rewrite N3 in Before; exact Before.
  - pose (s := test_state [] KNOWN_DOWN 0 false).
    pose (s1 := snd (startServer scripted_host test_config 10 s)).
    assert (Run : startServer scripted_host test_config 10 s =
                  (Thr (newError "Server did not come up in time"), s1))
      by (vm_compute; reflexivity).
    destruct (@startServer_outcomes Script scripted_host test_config 10 s s1) as (_ & Thrown).
    destruct (Thrown _ Run) as (cause & s2 & Down & Shape & _).
    exists cause, s2; split; [exact Down|exact Shape].
Defined.

Lemma gracefulShutdown_success_order_witness :
  serverState (snd (gracefulShutdown scripted_host test_config 10
                      (test_state script_clean_stop KNOWN_UP 0 false))) = KNOWN_DOWN.
Proof.
  pose (s := test_state script_clean_stop KNOWN_UP 0 false).
  pose (s1 := snd (gracefulShutdown scripted_host test_config 10 s)).
  assert (Run : gracefulShutdown scripted_host test_config 10 s =
                (Ret (mkOutcome true "Graceful server stop completed."), s1))
    by (vm_compute; reflexivity).
  destruct (@gracefulShutdown_success_order Script scripted_host test_config 10 s s1 _
              Run eq_refl) as (Down & _).
  exact Down.
Defined.

Lemma gracefulShutdown_gates_witness :
  fst (gracefulShutdown scripted_host test_config 10 (test_state [] KNOWN_UP 0 false)) =
    Ret (mkOutcome false "Server already appears **DOWN**.") /\
  fst (gracefulShutdown scripted_host test_config 10
         (test_state script_save_fails KNOWN_UP 0 false)) =
    Ret (mkOutcome false "Stop failed: `HTTP 500: Internal Server Error`").
Proof.
  split.
  - pose (s := test_state [] KNOWN_UP 0 false).
    pose (s1 := snd (isUp scripted_host test_config s)).
    assert (Down : isUp scripted_host test_config s = (Ret false, s1)) by reflexivity.
    destruct (@gracefulShutdown_gates Script scripted_host test_config 10 s s1)
      as (Gate & _).
    destruct (Gate Down) as (Run & _).
    exact (f_equal fst Run).
  - pose (s := test_state script_save_fails KNOWN_UP 0 false).
    pose (s1 := snd (isUp scripted_host test_config s)).
    pose (s2 := snd (getPlayers scripted_host test_config s1)).
    pose (s3 := snd (saveWorld scripted_host test_config s2)).
    assert (Up : isUp scripted_host test_config s = (Ret true, s1)) by reflexivity.
    assert (Poll : getPlayers scripted_host test_config s1 = (Ret (VArr []), s2))
      by reflexivity.
    assert (Idle : players_online scripted_host (VArr []) s2 = (Ret None, s2))
      by reflexivity.
    assert (Save : saveWorld scripted_host test_config s2 =
                   (Thr (newError "HTTP 500: Internal Server Error"), s3))
      by (vm_compute; reflexivity).
    destruct (@gracefulShutdown_gates Script scripted_host test_config 10 s s1)
      as (_ & Gate).
    destruct (Gate s2 s3 _ _ Up Poll Idle Save) as (Run & _).
    exact (f_equal fst Run).
Defined.

Lemma performMonitorCheck_below_threshold_witness :
  consecutiveEmptyChecks
    (snd (performMonitorCheck scripted_host test_config
            (gracefulShutdown scripted_host test_config 10) (@withLock Script ShutdownOutcome)
            (test_state [ok_json info_body; ok_json (VArr [])] KNOWN_UP 0 false))) = 1.
Proof.
  pose (s := test_state [ok_json info_body; ok_json (VArr [])] KNOWN_UP 0 false).
  pose (s1 := snd (isUp scripted_host test_config s)).
  pose (s3 := snd (getPlayers scripted_host test_config s1)).
  assert (Known : serverState s <> KNOWN_DOWN) by discriminate.
  assert (Up : isUp scripted_host test_config s = (Ret true, s1)) by reflexivity.
  assert (Mark : (if negb (ServerState_eqb (serverState s1) KNOWN_UP)
                  then handleServerUp scripted_host test_config else ret tt) s1 =
                 (Ret tt, s1)) by reflexivity.
  assert (Poll : getPlayers scripted_host test_config s1 = (Ret (VArr []), s3))
    by reflexivity.
  assert (Below : consecutiveEmptyChecks s3 + 1 < emptyCheckThreshold test_config)
    by reflexivity.
  pose proof (@performMonitorCheck_below_threshold Script scripted_host test_config
                (gracefulShutdown scripted_host test_config 10)
                (@withLock Script ShutdownOutcome)
                s s1 s1 s3 (VArr []) Known Up Mark Poll eq_refl Below) as Run.
  exact (f_equal (fun r => consecutiveEmptyChecks (snd r)) Run).
Defined.

Lemma performMonitorCheck_players_present_witness :
  exists s4,
    performMonitorCheck scripted_host test_config
      (gracefulShutdown scripted_host test_config 10) (@withLock Script ShutdownOutcome)
      (test_state script_occupied KNOWN_UP 1 false) = (Ret tt, s4) /\
    consecutiveEmptyChecks s4 = 0.
Proof.
  pose (s := test_state script_occupied KNOWN_UP 1 false).
  pose (s1 := snd (isUp scripted_host test_config s)).
  pose (s3 := snd (getPlayers scripted_host test_config s1)).
  assert (Known : serverState s <> KNOWN_DOWN) by discriminate.
  assert (Up : isUp scripted_host test_config s = (Ret true, s1)) by reflexivity.
  assert (Mark : (if negb (ServerState_eqb (serverState s1) KNOWN_UP)
                  then handleServerUp scripted_host test_config else ret tt) s1 =
                 (Ret tt, s1)) by reflexivity.
  assert (Poll : getPlayers scripted_host test_config s1 = (Ret (VArr [player "A"]), s3))
    by reflexivity.
  assert (Count : VNum 1 = VUndefined \/
                  exists n, VNum 1 = VNum n /\ n <> 0 /\ Z.abs n <= MAX_SAFE_INTEGER).
  { right; exists 1; split; [reflexivity|split; [discriminate|vm_compute; discriminate]]. }
  assert (Pos : 0 <= consecutiveEmptyChecks s3) by (vm_compute; discriminate).
  destruct (@performMonitorCheck_players_present Script scripted_host test_config
              (gracefulShutdown scripted_host test_config 10)
              (@withLock Script ShutdownOutcome)
              s s1 s1 s3 (VArr [player "A"]) (VNum 1) Known Up Mark Poll eq_refl Count Pos)
    as (s4 & Run & Zero & _).
  exists s4; split; [exact Run|exact Zero].
Defined.

Lemma performMonitorCheck_down_or_error_witness :
  exists s2,
    performMonitorCheck scripted_host test_config
      (gracefulShutdown scripted_host test_config 10) (@withLock Script ShutdownOutcome)
      (test_state [] KNOWN_UP 1 false) = (Ret tt, s2) /\
    serverState s2 = KNOWN_DOWN /\
    consecutiveEmptyChecks s2 = 0.
Proof.
  pose (s := test_state [] KNOWN_UP 1 false).
  pose (s1 := snd (isUp scripted_host test_config s)).
  assert (Known : serverState s <> KNOWN_DOWN) by discriminate.
  assert (Down : isUp scripted_host test_config s = (Ret false, s1)) by reflexivity.
  destruct (@performMonitorCheck_down_or_error Script scripted_host test_config
              (gracefulShutdown scripted_host test_config 10)
              (@withLock Script ShutdownOutcome) s s1 Known) as (Gone & _).
  destruct (Gone Down) as (s2 & Run & (St & Cn & _) & _).
  exists s2; split; [exact Run|split; [exact St|exact Cn]].
Defined.

Lemma tick_always_resolves_witness :
  exists s1,
    tick scripted_host test_config (Z.to_nat 5001) (test_state script_idle_stop KNOWN_UP 1 false) =
    (Ret tt, s1).
Proof.
  apply (@tick_always_resolves Script scripted_host test_config (Z.to_nat 5001)
           (test_state script_idle_stop KNOWN_UP 1 false)).
  vm_compute; reflexivity.
Defined.

Lemma tracker_invariant_witness :
  tracker_ok (run_ops scripted_host test_config 10 [DoTick; DoManualStop; DoNotifyDown]
                (test_state script_occupied UNKNOWN 0 false)).
Proof.
  apply (@tracker_invariant Script scripted_host test_config 10
           [DoTick; DoManualStop; DoNotifyDown] (test_state script_occupied UNKNOWN 0 false)).
  split; [vm_compute; discriminate|discriminate].
Defined.

Lemma lock_never_leaks_witness :
  busy (run_ops scripted_host test_config (Z.to_nat 5001) [DoTick; DoManualStop; DoNotifyUp]
          (test_state script_poll_fails KNOWN_UP 1 false)) = false.
Proof.
  apply (@lock_never_leaks Script scripted_host test_config (Z.to_nat 5001)
           [DoTick; DoManualStop; DoNotifyUp] (test_state script_poll_fails KNOWN_UP 1 false)).
  vm_compute; reflexivity.
Defined.

Lemma monitoring_has_at_most_one_timer_witness :
  (List.length
     (live_timers
        (fst (run_ctl scripted_host test_config
                [OpStart (Some (mkClient true)); OpStart None; OpStop; OpStop;
                 OpStart None]
                initial_ctl (test_state [] UNKNOWN 0 false)))) <= 1)%nat.
Proof.
  exact (proj1 (@monitoring_has_at_most_one_timer Script scripted_host test_config
                  [OpStart (Some (mkClient true)); OpStart None; OpStop; OpStop;
                   OpStart None]
                  (test_state [] UNKNOWN 0 false))).
Defined.

Lemma startMonitoring_seeds_state_witness :
  exists ctl1 s1,
    startMonitoring scripted_host test_config (Some (mkClient true)) initial_ctl
      (test_state [ok_json info_body] UNKNOWN 7 false) = (Ret ctl1, s1) /\
    serverState s1 = KNOWN_UP /\
    consecutiveEmptyChecks s1 = 0.
Proof.
  destruct (@startMonitoring_seeds_state Script scripted_host test_config
              (Some (mkClient true)) initial_ctl
              (test_state [ok_json info_body] UNKNOWN 7 false)) as (_ & First).
  destruct (First eq_refl) as (ctl1 & s1 & up & s0 & Run & _ & Poll & St & Cn & _).
  exists ctl1, s1; split; [exact Run|split; [|exact Cn]].
  assert (U : up = true) by (vm_compute in Poll; inversion Poll; reflexivity).
  rewrite U in St; exact St.
Defined.

Lemma palstop_replies_witness :
  fst (palstop scripted_host test_config (fun _ => ret tt) 10
         (test_state script_poll_fails KNOWN_UP 0 false)) = Ret tt /\
  busy (snd (palstop scripted_host test_config (fun _ => ret tt) 10
               (test_state script_poll_fails KNOWN_UP 0 false))) = false.
Proof.
  pose (s := test_state script_poll_fails KNOWN_UP 0 false).
  pose (s1 := snd (isUp scripted_host test_config (set_busy true s))).
  pose (s2 := snd (getPlayers scripted_host test_config s1)).
  assert (Free : busy s = false) by reflexivity.
  assert (Up : isUp scripted_host test_config (set_busy true s) = (Ret true, s1))
    by reflexivity.
  assert (Poll : getPlayers scripted_host test_config s1 =
                 (Thr (newError "HTTP 500: Internal Server Error"), s2))
    by (vm_compute; reflexivity).
  destruct (@palstop_replies Script scripted_host test_config (fun _ => ret tt) 10 s)
    as (_ & Caught & _).
  pose proof (Caught s1 s2 _ Free Up Poll) as Run.
  split; [exact (f_equal fst Run)|exact (f_equal (fun r => busy (snd r)) Run)].
Defined.

Lemma stopMonitoring_during_start_witness :
  exists ctl1 s1 ctl2 s2,
    startMonitoring_enter None initial_ctl (test_state [] UNKNOWN 0 false) =
      (Ret (Some ctl1), s1) /\
    stopMonitoring ctl1 s1 = (Ret ctl2, s2) /\
    monitoringActive (startMonitoring_register ctl2) = false /\
    live_timers (startMonitoring_register ctl2) = [0%nat].
Proof.
  assert (C : ctl_consistent initial_ctl).
  { unfold ctl_consistent; simpl; repeat split; try discriminate; auto. }
  pose (s := test_state [] UNKNOWN 0 false).
  destruct (@stopMonitoring_during_start Script scripted_host test_config None initial_ctl s
              (set_consecutiveEmptyChecks 0 (set_discordClient None s)) C eq_refl)
    as (ctl1 & s1 & ctl2 & s2 & Enter & Stop & Off & Live & _).
  exists ctl1, s1, ctl2, s2.
  assert (E1 : s1 = set_consecutiveEmptyChecks 0 (set_discordClient None s))
    by (vm_compute in Enter; inversion Enter; reflexivity).
  rewrite E1 in Enter |- *.
  split; [exact Enter|split; [exact Stop|split; [exact Off|exact Live]]].
Defined.

Lemma apiPost_tolerates_unparsable_body_witness :
  fst (apiPost scripted_host test_config "/save" (VObj [])
         (test_state script_not_json KNOWN_UP 0 false)) = Ret (VObj []) /\
  fst (apiGet scripted_host test_config "/info"
         (test_state script_not_json KNOWN_UP 0 false)) =
    Thr (mkError "SyntaxError" "Unexpected token").
Proof.
  pose (s := test_state script_not_json KNOWN_UP 0 false).
  pose (response := mkResponse true 200 "OK"
                      (Abrupt (mkError "SyntaxError" "Unexpected token") : Completion JsVal)).
  destruct (@apiPost_tolerates_unparsable_body Script scripted_host test_config
              "/save" (VObj []) s response 0%N []) as (Post & _).
  destruct (@apiPost_tolerates_unparsable_body Script scripted_host test_config
              "/info" (VObj []) s response 0%N []) as (_ & Get).
  destruct (Post eq_refl) as (_ & Saved).
  destruct (Get eq_refl) as (_ & Read).
  split; [exact (f_equal fst (Saved eq_refl))|exact (f_equal fst (Read eq_refl))].
Defined.

Lemma launch_spawns_only_validated_witness :
  trace (snd (launchConfigured checking_host command_config
                (test_state [] KNOWN_DOWN 0 false))) =
  [EvSpawn "PalServer.exe" ["-port=8211"; "-name=My Server"]].
Proof.
  pose (s := test_state [] KNOWN_DOWN 0 false).
  pose (s1 := snd (launchConfigured checking_host command_config s)).
  assert (Run : launchConfigured checking_host command_config s = (Ret tt, s1))
    by (vm_compute; reflexivity).
  destruct (@launch_spawns_only_validated Script checking_host command_config
              (fun _ => Normal tt) s s1 (Ret tt) (fun _ => eq_refl) Run)
    as [(_ & e & No)|[(name & No & _)|(command & exe & args & _ & Cmd & Parsed & _ & _ & Tr)]];
    [discriminate No|discriminate No|].
  assert (C : command = "PalServer.exe -port=8211 '-name=My Server'")
    by (vm_compute in Cmd; inversion Cmd; reflexivity).
  rewrite C in Parsed; vm_compute in Parsed; inversion Parsed; subst.
  exact Tr.
Defined.

Lemma loaded_config_bounds_start_traffic_witness :
  exists (polls : nat) (spawned : list Event),
    trace (snd (startServer scripted_host (Loader.settings_config test_settings) 10
                  (test_state [] KNOWN_DOWN 0 false))) =
      (repeat (info_request (Loader.settings_config test_settings)) polls ++ spawned
       ++ [info_request (Loader.settings_config test_settings)])%list /\
    (polls <= 600)%nat.
Proof.
  pose (s := test_state [] KNOWN_DOWN 0 false).
  pose (r := fst (startServer scripted_host (Loader.settings_config test_settings) 10 s)).
  pose (s1 := snd (startServer scripted_host (Loader.settings_config test_settings) 10 s)).
  assert (Loaded : Loader.load test_env = Loader.Valid test_settings)
    by (vm_compute; reflexivity).
  assert (Run : startServer scripted_host (Loader.settings_config test_settings) 10 s =
                (r, s1)) by (vm_compute; reflexivity).
  destruct (@loaded_config_bounds_start_traffic test_env test_settings Script
              scripted_host 10 s s1 r Loaded Run) as (polls & spawned & Tr & Few & _).
  exists polls, spawned; split; [exact Tr|exact Few].
Defined.

